(** * Courier dispatch and tracking: the order routes, the tracking routes
    and the Order model, embedded from the JavaScript sources.

    - [backend/routes/orders.js]: [calculatePricing] and the handlers of
      [PATCH /orders/:id/assign], [/status], [/rate] and [/cancel];
    - the tracking router ([PATCH /:orderNumber/location],
      [POST /:orderNumber/update], [POST /:orderNumber/proof],
      [GET /:orderNumber/eta]);
    - the Order and User schemas ([addTrackingUpdate], field types).

    JavaScript numbers are IEEE 754 binary64 values and are modelled by the
    kernel's primitive floats, so that [toFixed], [Math.ceil] and the
    arithmetic of the handlers compute exactly what the engine computes.
    The library functions [Math.sin], [Math.cos], [Math.atan2] and the
    conversions between Numbers and strings are parameters.
    Dates read from the clock are integer milliseconds ([Z]).  The database
    is a pair of finite maps; a handler is a function from the store and the
    request to a response and the store after it.

    The route middleware ([authenticateToken], [requireCourier], ...) runs
    before a handler and hands it [req.user], the authenticated user
    document; the handlers below start from there.  Stored statuses,
    priorities, roles and vehicle types are the schemas' enums.  The fields
    Mongoose maintains by itself ([_id] of an order, [__v], [createdAt],
    [updatedAt]) are not part of the records; an order's key in the store
    stands for its [_id]. *)

From Stdlib Require Import ZArith Floats Lia List Bool String.
From stdpp Require Import base option list sorting gmap strings.

Set Warnings "-inexact-float".
From Stdlib Require Import Ascii.

(* ===================================================================== *)
(** ** JavaScript numbers *)
(* ===================================================================== *)

Module JsNumber.
Local Open Scope Z_scope.

Definition Number := float.

(** The Number nearest to an integer (exact below 2^53). *)
Definition of_Z (z : Z) : Number :=
  SF2Prim (binary_normalize prec emax z 0 false).

(** [Number.prototype.toFixed(2)] on |x| = m * 2^e below 1e21: the integer n
    for which n / 100 - |x| is as close to zero as possible, the larger one
    when there are two. *)
Definition cents (m : positive) (e : Z) : Z :=
  if 0 <=? e then 100 * Z.pos m * 2 ^ e
  else (200 * Z.pos m + 2 ^ (- e)) / 2 ^ (1 - e).

(** [parseFloat] of the digits of n with the point two places from the
    right: the Number nearest to n / 100. *)
Definition parseCents (n : Z) : Number :=
  match n with
  | Z0 => 0%float
  | Zpos p =>
      SF2Prim (SFdiv prec emax (S754_finite false p 0) (S754_finite false 100 0))
  | Zneg _ => nan
  end.

(** [parseFloat(x.toFixed(2))].  [toFixed] prints NaN and the infinities by
    name and values from 1e21 on in shortest round-trip form, all of which
    [parseFloat] reads back; the sign of a negative value is printed before
    the digits, and -0 prints as 0.00. *)
Definition toFixed2 (x : Number) : Number :=
  match Prim2SF x with
  | S754_finite s m e =>
      if (1e21 <=? abs x)%float then x
      else
        let r := parseCents (cents m e) in
        if s then (- r)%float else r
  | S754_zero _ => 0%float
  | _ => x
  end.

(** [Math.ceil]. *)
Definition Math_ceil (x : Number) : Number :=
  match Prim2SF x with
  | S754_finite s m e =>
      if 0 <=? e then x
      else
        let q := Z.shiftr (Z.pos m) (- e) in
        if s then (- of_Z q)%float
        else if Z.shiftl q (- e) =? Z.pos m then of_Z q else of_Z (q + 1)
  | _ => x
  end.

Definition Math_PI : Number := 0x1.921fb54442d18p+1%float.

(** [Math.sin], [Math.cos] and [Math.atan2] are implementation-approximated
    library functions; the handlers are parametric in them. *)
Class MathLib := {
  Math_sin : Number -> Number;
  Math_cos : Number -> Number;
  Math_atan2 : Number -> Number -> Number
}.

(** [Number::toString] in radix 10 and [StringToNumber], the conversions
    the engine applies when [+] meets a string operand and when [/] meets a
    string; the handlers are parametric in them as well. *)
Class StringLib := {
  Number_toString : Number -> string;
  StringToNumber : string -> Number
}.

Definition isNaN (x : Number) : bool :=
  match Prim2SF x with
  | S754_nan => true
  | _ => false
  end.

(** [new Date(t)]: the time value after TimeClip, [None] for an Invalid
    Date. *)
Definition newDate (t : Number) : option Z :=
  match Prim2SF t with
  | S754_zero _ => Some 0
  | S754_finite s m e =>
      if (abs t <=? 8.64e15)%float then
        let q := if 0 <=? e then Z.pos m * 2 ^ e else Z.shiftr (Z.pos m) (- e) in
        Some (if s then - q else q)
      else None
  | _ => None
  end.

(** Neither NaN nor an infinity. *)
Definition finite (x : Number) : bool :=
  match Prim2SF x with
  | S754_zero _ | S754_finite _ _ _ => true
  | _ => false
  end.

(** The exact value of a finite Number, in units of 2^-1074, the spacing of
    the smallest Numbers; every finite Number is a whole multiple of it. *)
Definition units (x : Number) : Z :=
  match Prim2SF x with
  | S754_finite s m e =>
      let v := Z.pos m * 2 ^ (e + 1074) in if s then - v else v
  | _ => 0
  end.

(** [x] is the whole number [z]. *)
Definition isWhole (x : Number) (z : Z) : Prop :=
  finite x = true /\ units x = z * 2 ^ 1074.

End JsNumber.
Import JsNumber.

(* ===================================================================== *)
(** ** Data model (the Order and User schemas) *)
(* ===================================================================== *)

Definition UserId := nat.
Definition OrderId := nat.
(** A [Date] read from the clock: milliseconds since the epoch. *)
Definition Date := Z.

Module Status.
Inductive t := pending | assigned | picked_up | in_transit | delivered
             | cancelled | failed.
#[global] Instance eq_dec : EqDecision t.
Proof. solve_decision. Defined.
Definition name (s : t) : string :=
  match s with
  | pending => "pending" | assigned => "assigned" | picked_up => "picked_up"
  | in_transit => "in_transit" | delivered => "delivered"
  | cancelled => "cancelled" | failed => "failed"
  end.
End Status.

Module Priority.
Inductive t := standard | express | urgent.
End Priority.

Module Role.
Inductive t := customer | courier | admin.
#[global] Instance eq_dec : EqDecision t.
Proof. solve_decision. Defined.
End Role.

Module Vehicle.
Inductive t := bike | motorcycle | car | van.
End Vehicle.

Record Coordinates := { lat : Number; lng : Number }.

Module CurrentLocation.
Record t := { lat : Number; lng : Number; lastUpdated : Date }.
End CurrentLocation.

Module Rating.
Record t := { average : Number; count : Number }.
End Rating.

Module User.
(** [vehicle] is required of couriers and absent otherwise; an absent
    [isAvailable] reads as false. *)
Record t := {
  _id : UserId;
  name : string;
  role : Role.t;
  vehicle : option Vehicle.t;
  isAvailable : bool;
  currentLocation : option CurrentLocation.t;
  rating : Rating.t
}.
Definition set_currentLocation (l : option CurrentLocation.t) (u : t) : t :=
  {| _id := _id u; name := name u; role := role u; vehicle := vehicle u;
     isAvailable := isAvailable u; currentLocation := l; rating := rating u |}.
Definition set_rating (r : Rating.t) (u : t) : t :=
  {| _id := _id u; name := name u; role := role u; vehicle := vehicle u;
     isAvailable := isAvailable u; currentLocation := currentLocation u;
     rating := r |}.
End User.

Module Pricing.
Record t := {
  baseFare : Number;
  distanceFare : Number;
  priorityFare : Number;
  totalAmount : Number
}.
End Pricing.

Module TrackingEvent.
Record t := {
  status : Status.t;
  timestamp : Date;
  location : option Coordinates;
  notes : option string
}.
End TrackingEvent.

Module OrderRating.
Record t := {
  customerRating : option Z;
  courierRating : option Z;
  customerFeedback : option string;
  courierFeedback : option string
}.
End OrderRating.

(** The object literal [imageProof] of the proof upload. *)
Module ImageProof.
Record t := { type : string; timestamp : Date; description : string }.
End ImageProof.

Module LocationDetails.
Record t := {
  address : string;
  coordinates : Coordinates;
  contactName : string;
  contactPhone : string
}.
End LocationDetails.

Module Times.
Record t := { pickup : option Date; delivery : option Date }.
End Times.

(** [images] is declared [[{ type: String, timestamp: .., description: .. }]]:
    the key [type] names the element type, so the field is an array of
    strings. *)
Module Order.
Record t := {
  orderNumber : string;
  customer : UserId;
  courier : option UserId;
  pickupLocation : LocationDetails.t;
  deliveryLocation : LocationDetails.t;
  status : Status.t;
  priority : Priority.t;
  pricing : Pricing.t;
  estimatedTime : Times.t;
  actualTime : Times.t;
  tracking : list TrackingEvent.t;
  rating : OrderRating.t;
  images : list string
}.

Definition set_courier (c : option UserId) (o : t) : t :=
  {| orderNumber := orderNumber o; customer := customer o; courier := c;
     pickupLocation := pickupLocation o; deliveryLocation := deliveryLocation o;
     status := status o; priority := priority o; pricing := pricing o;
     estimatedTime := estimatedTime o; actualTime := actualTime o;
     tracking := tracking o; rating := rating o; images := images o |}.
Definition set_status (s : Status.t) (o : t) : t :=
  {| orderNumber := orderNumber o; customer := customer o; courier := courier o;
     pickupLocation := pickupLocation o; deliveryLocation := deliveryLocation o;
     status := s; priority := priority o; pricing := pricing o;
     estimatedTime := estimatedTime o; actualTime := actualTime o;
     tracking := tracking o; rating := rating o; images := images o |}.
Definition set_actualTime (a : Times.t) (o : t) : t :=
  {| orderNumber := orderNumber o; customer := customer o; courier := courier o;
     pickupLocation := pickupLocation o; deliveryLocation := deliveryLocation o;
     status := status o; priority := priority o; pricing := pricing o;
     estimatedTime := estimatedTime o; actualTime := a;
     tracking := tracking o; rating := rating o; images := images o |}.
Definition set_tracking (l : list TrackingEvent.t) (o : t) : t :=
  {| orderNumber := orderNumber o; customer := customer o; courier := courier o;
     pickupLocation := pickupLocation o; deliveryLocation := deliveryLocation o;
     status := status o; priority := priority o; pricing := pricing o;
     estimatedTime := estimatedTime o; actualTime := actualTime o;
     tracking := l; rating := rating o; images := images o |}.
Definition set_rating (r : OrderRating.t) (o : t) : t :=
  {| orderNumber := orderNumber o; customer := customer o; courier := courier o;
     pickupLocation := pickupLocation o; deliveryLocation := deliveryLocation o;
     status := status o; priority := priority o; pricing := pricing o;
     estimatedTime := estimatedTime o; actualTime := actualTime o;
     tracking := tracking o; rating := r; images := images o |}.

(** [orderSchema.methods.addTrackingUpdate]: push the event, then set the
    status. *)
Definition addTrackingUpdate (s : Status.t) (location : option Coordinates)
    (notes : option string) (now : Date) (o : t) : t :=
  set_status s
    (set_tracking
       (tracking o ++
        [ {| TrackingEvent.status := s; TrackingEvent.timestamp := now;
             TrackingEvent.location := location;
             TrackingEvent.notes := notes |} ])
       o).
End Order.

(** The coordinate pair the tracking schema keeps of a courier's
    [currentLocation]. *)
Definition coordinates_of (l : option CurrentLocation.t) : option Coordinates :=
  match l with
  | Some c => Some {| lat := CurrentLocation.lat c; lng := CurrentLocation.lng c |}
  | None => None
  end.

(* ===================================================================== *)
(** ** Pricing ([calculatePricing]) *)
(* ===================================================================== *)

Section PricingDefs.
Local Open Scope float_scope.

Definition calculatePricing (distance : Number) (priority : Priority.t)
    : Pricing.t :=
  let baseFare := 5.00 in
  let perKmRate := 1.50 in
  let distanceFare := distance * perKmRate in
  let priorityFare :=
    match priority with
    | Priority.express => baseFare * 0.5
    | Priority.urgent => baseFare * 1.0
    | Priority.standard => 0
    end in
  let totalAmount := baseFare + distanceFare + priorityFare in
  {| Pricing.baseFare := toFixed2 baseFare;
     Pricing.distanceFare := toFixed2 distanceFare;
     Pricing.priorityFare := toFixed2 priorityFare;
     Pricing.totalAmount := toFixed2 totalAmount |}.

(** What the specification describes: every component rounded on its own,
    then summed. *)
Definition componentsRoundedThenSummed (distance : Number)
    (priority : Priority.t) : Number :=
  let p := calculatePricing distance priority in
  Pricing.baseFare p + Pricing.distanceFare p + Pricing.priorityFare p.

End PricingDefs.

(* ===================================================================== *)
(** ** The store and the responses *)
(* ===================================================================== *)

(** [res.json(..)] answers 200 with a message and a body;
    [res.status(c).json({ message })] is an error answer. *)
Inductive Response (A : Type) :=
| Ok (message : string) (body : A)
| Error (code : nat) (message : string).
Arguments Ok {A} message body.
Arguments Error {A} code message.

Definition isOk {A} (r : Response A) : bool :=
  match r with Ok _ _ => true | Error _ _ => false end.

Record Db := {
  orders : gmap OrderId Order.t;
  users : gmap UserId User.t
}.

(** [order.save()] and [user.save()]: last write wins on the document. *)
Definition saveOrder (id : OrderId) (o : Order.t) (db : Db) : Db :=
  {| orders := <[id := o]> (orders db); users := users db |}.
Definition saveUser (u : User.t) (db : Db) : Db :=
  {| orders := orders db; users := <[User._id u := u]> (users db) |}.

(** [Order.findOne({ orderNumber })]: the stored key and the document. *)
Definition findOne (db : Db) (n : string) : option (OrderId * Order.t) :=
  snd <$> list_find (fun p : OrderId * Order.t => Order.orderNumber (snd p) = n)
            (map_to_list (orders db)).

(** [order.courier && order.courier.toString() === req.user._id.toString()] *)
Definition isCourierOf (o : Order.t) (u : User.t) : bool :=
  match Order.courier o with
  | Some c => bool_decide (c = User._id u)
  | None => false
  end.
Definition isCustomerOf (o : Order.t) (u : User.t) : bool :=
  bool_decide (Order.customer o = User._id u).
Definition isAdmin (u : User.t) : bool :=
  bool_decide (User.role u = Role.admin).

(* ===================================================================== *)
(** ** [PATCH /orders/:id/assign] *)
(* ===================================================================== *)

(** The handler between [Order.findById] and [order.save()]: the checks, and
    the document as modified in memory. *)
Definition assignChecks (order : Order.t) (user : User.t) (now : Date)
    : Response Order.t :=
  if bool_decide (Order.status order <> Status.pending) then
    Error 400 "Order is not available for assignment"
  else if bool_decide (is_Some (Order.courier order)) then
    Error 400 "Order already assigned to another courier"
  else if negb (User.isAvailable user) then
    Error 400 "You must be available to accept orders"
  else
    Ok "Order assigned successfully"
       (Order.addTrackingUpdate Status.assigned
          (coordinates_of (User.currentLocation user))
          (Some ("Order assigned to courier " +:+ User.name user)) now
          (Order.set_status Status.assigned
             (Order.set_courier (Some (User._id user)) order))).

Definition assignOrder (db : Db) (id : OrderId) (user : User.t) (now : Date)
    : Response Order.t * Db :=
  match orders db !! id with
  | None => (Error 404 "Order not found", db)
  | Some order =>
      match assignChecks order user now with
      | Ok m order' => (Ok m order', saveOrder id order' db)
      | Error c m => (Error c m, db)
      end
  end.

(** *** Claim requests in flight

    Each request awaits [Order.findById], runs the checks on the document it
    read, and awaits [order.save()]; other requests run during either wait.
    A schedule lists, step by step, which request runs next. *)

Inductive InFlight :=
| NotStarted
| Loaded (message : string) (modified : Order.t)
| Answered (r : Response Order.t).

Record ClaimRequest := { claimant : User.t; clock : Date }.

(** The tracking event a claim appends. *)
Definition claimEvent (user : User.t) (now : Date) : TrackingEvent.t :=
  {| TrackingEvent.status := Status.assigned;
     TrackingEvent.timestamp := now;
     TrackingEvent.location := coordinates_of (User.currentLocation user);
     TrackingEvent.notes :=
       Some ("Order assigned to courier " +:+ User.name user) |}.

(** [order.save()] of the document a claim modified in memory: the paths
    that were assigned are written onto the stored document, [courier] and
    [status] by [$set] and the new event by [$push] on [tracking]. *)
Definition saveClaim (user : User.t) (now : Date) (stored : Order.t)
    : Order.t :=
  Order.set_tracking (Order.tracking stored ++ [claimEvent user now])
    (Order.set_status Status.assigned
       (Order.set_courier (Some (User._id user)) stored)).

Definition claimStep (id : OrderId) (rq : ClaimRequest) (st : InFlight)
    (db : Db) : InFlight * Db :=
  match st with
  | NotStarted =>
      match orders db !! id with
      | None => (Answered (Error 404 "Order not found"), db)
      | Some order =>
          match assignChecks order (claimant rq) (clock rq) with
          | Ok m order' => (Loaded m order', db)
          | Error c m => (Answered (Error c m), db)
          end
      end
  | Loaded m order' =>
      match orders db !! id with
      | Some stored =>
          (Answered (Ok m order'),
           saveOrder id (saveClaim (claimant rq) (clock rq) stored) db)
      | None =>
          (* no document to update: [save()] rejects *)
          (Answered (Error 500 "Server error assigning order"), db)
      end
  | Answered r => (Answered r, db)
  end.

Definition runStep (id : OrderId) (rqs : list ClaimRequest) (i : nat)
    (cfg : list InFlight * Db) : list InFlight * Db :=
  match rqs !! i, fst cfg !! i with
  | Some rq, Some st =>
      let '(st', db') := claimStep id rq st (snd cfg) in
      (<[i := st']> (fst cfg), db')
  | _, _ => cfg
  end.

Definition runSchedule (id : OrderId) (rqs : list ClaimRequest)
    (schedule : list nat) (db : Db) : list InFlight * Db :=
  foldl (fun cfg i => runStep id rqs i cfg) (replicate (length rqs) NotStarted, db)
        schedule.

(** Request after request: each one reads, checks and saves before the next
    one starts. *)
Definition serialSchedule (n : nat) : list nat :=
  flat_map (fun i => [i; i]) (seq 0 n).

(** The same requests served one at a time by the handler. *)
Fixpoint serveAll (id : OrderId) (rqs : list ClaimRequest) (db : Db)
    : list (Response Order.t) * Db :=
  match rqs with
  | [] => ([], db)
  | rq :: rest =>
      let '(r, db1) := assignOrder db id (claimant rq) (clock rq) in
      let '(rs, db2) := serveAll id rest db1 in
      (r :: rs, db2)
  end.

Definition succeeded (st : InFlight) : bool :=
  match st with Answered (Ok _ _) => true | _ => false end.
Definition alreadyAssigned (st : InFlight) : bool :=
  match st with
  | Answered (Error 400 m) =>
      bool_decide (m = "Order is not available for assignment"
                   \/ m = "Order already assigned to another courier")
  | _ => false
  end.

(** Exactly one attempt succeeded and every other one was refused. *)
Definition exactlyOneClaim (sts : list InFlight) : Prop :=
  exists i st,
    sts !! i = Some st /\ succeeded st = true /\
    forall j st', j <> i -> sts !! j = Some st' -> alreadyAssigned st' = true.

(* ===================================================================== *)
(** ** [PATCH /orders/:id/status] *)
(* ===================================================================== *)

Record StatusBody := {
  sb_status : Status.t;
  sb_notes : option string;
  sb_location : option Coordinates
}.

(** [body('status').isIn([...])]; a value outside the seven statuses is
    refused the same way as [pending] and [assigned]. *)
Definition statusAccepted : list Status.t :=
  [Status.picked_up; Status.in_transit; Status.delivered; Status.cancelled;
   Status.failed].

(** The object literal [validTransitions]; a status without an entry reads
    [undefined]. *)
Definition validTransitions (s : Status.t) : option (list Status.t) :=
  match s with
  | Status.assigned => Some [Status.picked_up; Status.cancelled]
  | Status.picked_up => Some [Status.in_transit; Status.cancelled]
  | Status.in_transit => Some [Status.delivered; Status.failed]
  | Status.pending => Some [Status.cancelled]
  | _ => None
  end.

Definition cannotChange (from to : Status.t) : string :=
  "Cannot change status from " +:+ Status.name from +:+ " to " +:+ Status.name to.

Definition updateStatus (db : Db) (id : OrderId) (user : User.t)
    (body : StatusBody) (nowActual now : Date) : Response Order.t * Db :=
  let status := sb_status body in
  if negb (bool_decide (status ∈ statusAccepted)) then
    (Error 400 "Validation failed", db)
  else
    match orders db !! id with
    | None => (Error 404 "Order not found", db)
    | Some order =>
        let isAuthorized :=
          isAdmin user || isCourierOf order user
          || (bool_decide (status = Status.cancelled) && isCustomerOf order user) in
        if negb isAuthorized then
          (Error 403 "Not authorized to update this order", db)
        else if match validTransitions (Order.status order) with
                | Some targets => negb (bool_decide (status ∈ targets))
                | None => false
                end then
          (Error 400 (cannotChange (Order.status order) status), db)
        else
          let timed :=
            match status with
            | Status.picked_up =>
                Order.set_actualTime
                  {| Times.pickup := Some nowActual;
                     Times.delivery := Times.delivery (Order.actualTime order) |}
                  order
            | Status.delivered =>
                Order.set_actualTime
                  {| Times.pickup := Times.pickup (Order.actualTime order);
                     Times.delivery := Some nowActual |}
                  order
            | _ => order
            end in
          let order' :=
            Order.addTrackingUpdate status (sb_location body) (sb_notes body)
              now timed in
          (Ok "Order status updated successfully" order', saveOrder id order' db)
    end.

(** The transition table of the specification. *)
Definition inTable (s t : Status.t) : bool :=
  match s, t with
  | Status.pending, Status.assigned | Status.pending, Status.cancelled
  | Status.assigned, Status.picked_up | Status.assigned, Status.cancelled
  | Status.picked_up, Status.in_transit | Status.picked_up, Status.cancelled
  | Status.in_transit, Status.delivered | Status.in_transit, Status.failed => true
  | _, _ => false
  end.

Definition terminal (s : Status.t) : bool :=
  match s with
  | Status.delivered | Status.cancelled | Status.failed => true
  | _ => false
  end.

(* ===================================================================== *)
(** ** [PATCH /orders/:id/cancel] *)
(* ===================================================================== *)

(** [reason || 'Order cancelled'] *)
Definition orDefault (s : option string) (d : string) : string :=
  match s with
  | Some r => if bool_decide (r = "") then d else r
  | None => d
  end.

Definition cancelOrder (db : Db) (id : OrderId) (user : User.t)
    (reason : option string) (now : Date) : Response Order.t * Db :=
  match orders db !! id with
  | None => (Error 404 "Order not found", db)
  | Some order =>
      let isAuthorized :=
        isAdmin user || isCustomerOf order user || isCourierOf order user in
      if negb isAuthorized then
        (Error 403 "Not authorized to cancel this order", db)
      else if negb (bool_decide
                (Order.status order ∈ [Status.pending; Status.assigned])) then
        (Error 400 "Order cannot be cancelled at this stage", db)
      else
        let order' :=
          Order.addTrackingUpdate Status.cancelled None
            (Some (orDefault reason "Order cancelled")) now order in
        (Ok "Order cancelled successfully" order', saveOrder id order' db)
  end.

(* ===================================================================== *)
(** ** [PATCH /orders/:id/rate] *)
(* ===================================================================== *)

(** The score of a request body as JSON carries it: a number or a
    string.  (Arrays, objects, booleans and null are not modelled.) *)
Inductive Score :=
| ScoreNumber (x : Number)
| ScoreString (s : string).

Record RateBody := { rb_rating : Score; rb_feedback : option string }.

(** The integer a string writes when it matches [/^[-+]?[0-9]+$/], the
    pattern of the validator [isInt]. *)
Definition isDigit (c : ascii) : bool :=
  (48 <=? nat_of_ascii c)%nat && (nat_of_ascii c <=? 57)%nat.

Definition digitsValue (l : list ascii) : Z :=
  foldl (fun acc c => (10 * acc + (Z.of_nat (nat_of_ascii c) - 48))%Z) 0%Z l.

Definition integerOf (s : string) : option Z :=
  let digits (l : list ascii) :=
    match l with
    | [] => None
    | _ => if forallb isDigit l then Some (digitsValue l) else None
    end in
  match list_ascii_of_string s with
  | "+"%char :: l => digits l
  | "-"%char :: l => Z.opp <$> digits l
  | l => digits l
  end.

(** [body('rating').isInt({ min: 1, max: 5 })].  The validator tests the
    string form of the value, with no conversion of the value itself: a
    number passes when it is one of 1, .., 5 (a number that is not whole
    prints with a point or an exponent), a string when it writes one of them,
    with or without a sign and leading zeros.  The result is the integer the
    schema's Number cast makes of an accepted score. *)
Definition scoreValue (r : Score) : option Z :=
  match r with
  | ScoreNumber x =>
      List.find (fun n => PrimFloat.eqb x (of_Z n)) [1; 2; 3; 4; 5]%Z
  | ScoreString s =>
      match integerOf s with
      | Some n => if Z.leb 1 n && Z.leb n 5 then Some n else None
      | None => None
      end
  end.

(** [if (order.rating.customerRating)]: set and non-zero. *)
Definition ratingSet (r : option Z) : bool :=
  match r with
  | Some z => negb (Z.eqb z 0)
  | None => false
  end.

Section RateDefs.
Context {strings : StringLib}.

(** [((average * count) + rating) / newCount] on the score as it arrived:
    [+] adds two Numbers and concatenates when the score is a string, and
    [/] converts the concatenation back. *)
Definition newAverage (r : Rating.t) (rating : Score) : Number :=
  let product := (Rating.average r * Rating.count r)%float in
  let sum :=
    match rating with
    | ScoreNumber x => (product + x)%float
    | ScoreString s => StringToNumber (Number_toString product +:+ s)
    end in
  (sum / (Rating.count r + 1))%float.

(** The rolling average as the handler assigns it to the rated profile. *)
Definition rated (r : Rating.t) (rating : Score) : Rating.t :=
  {| Rating.average := toFixed2 (newAverage r rating);
     Rating.count := (Rating.count r + 1)%float |}.

(** The profile with the new rating, as [save()] stores it.  The schema's
    Number cast refuses NaN: the assignment is recorded as invalid and
    [save()] rejects, which the handler's [catch] answers. *)
Definition rateProfile (profile : User.t) (rating : Score) : option User.t :=
  let r := rated (User.rating profile) rating in
  if isNaN (Rating.average r) || isNaN (Rating.count r) then None
  else Some (User.set_rating r profile).

Definition rateOrder (db : Db) (id : OrderId) (user : User.t) (body : RateBody)
    : Response OrderRating.t * Db :=
  let rating := rb_rating body in
  let feedback := rb_feedback body in
  match scoreValue rating with
  | None => (Error 400 "Validation failed", db)
  | Some value =>
    match orders db !! id with
    | None => (Error 404 "Order not found", db)
    | Some order =>
        if bool_decide (Order.status order <> Status.delivered) then
          (Error 400 "Can only rate completed orders", db)
        else if isCustomerOf order user then
          if ratingSet (OrderRating.customerRating (Order.rating order)) then
            (Error 400 "You have already rated this order", db)
          else
            let r' :=
              {| OrderRating.customerRating := Some value;
                 OrderRating.courierRating :=
                   OrderRating.courierRating (Order.rating order);
                 OrderRating.customerFeedback := feedback;
                 OrderRating.courierFeedback :=
                   OrderRating.courierFeedback (Order.rating order) |} in
            let order' := Order.set_rating r' order in
            match Order.courier order with
            | Some c =>
                (* [courier.rating] of null throws; the catch answers *)
                match users db !! c ≫= fun courier => rateProfile courier rating with
                | None => (Error 500 "Server error submitting rating", db)
                | Some courier' =>
                    (Ok "Rating submitted successfully" r',
                     saveOrder id order' (saveUser courier' db))
                end
            | None =>
                (Ok "Rating submitted successfully" r', saveOrder id order' db)
            end
        else if isCourierOf order user then
          if ratingSet (OrderRating.courierRating (Order.rating order)) then
            (Error 400 "You have already rated this order", db)
          else
            let r' :=
              {| OrderRating.customerRating :=
                   OrderRating.customerRating (Order.rating order);
                 OrderRating.courierRating := Some value;
                 OrderRating.customerFeedback :=
                   OrderRating.customerFeedback (Order.rating order);
                 OrderRating.courierFeedback := feedback |} in
            let order' := Order.set_rating r' order in
            match users db !! Order.customer order
                  ≫= fun customer => rateProfile customer rating with
            | None => (Error 500 "Server error submitting rating", db)
            | Some customer' =>
                (Ok "Rating submitted successfully" r',
                 saveOrder id order' (saveUser customer' db))
            end
        else
          (Error 403 "Not authorized to rate this order", db)
    end
  end.

End RateDefs.

(** The rolling average of the specification, unrounded. *)
Definition rollingAverage (r : Rating.t) (rating : Number) : Number :=
  ((Rating.average r * Rating.count r + rating) / (Rating.count r + 1))%float.

(** The profile a successful rating updates: the courier's when the customer
    rates (none when the order has no courier), the customer's when the
    courier rates. *)
Definition ratedParty (o : Order.t) (u : User.t) : option UserId :=
  if isCustomerOf o u then Order.courier o else Some (Order.customer o).

(* ===================================================================== *)
(** ** The tracking router *)
(* ===================================================================== *)

Section TrackingDefs.
Local Open Scope float_scope.

(** [isFloat({ min, max })] on a Number. *)
Definition floatBetween (lo hi x : Number) : bool :=
  (lo <=? x) && (x <=? hi).

Record LocationAck := {
  ack_location : Coordinates;
  ack_timestamp : Date
}.

(** [PATCH /:orderNumber/location]; [nowSaved] and [now] are the two clock
    readings, for [lastUpdated] and for the tracking event. *)
Definition updateLocation (db : Db) (orderNumber : string) (user : User.t)
    (lat lng : Number) (nowSaved now : Date) : Response LocationAck * Db :=
  if negb (floatBetween (-90) 90 lat && floatBetween (-180) 180 lng) then
    (Error 400 "Validation failed", db)
  else
    match findOne db orderNumber with
    | None => (Error 404 "Order not found", db)
    | Some (id, order) =>
        if negb (isCourierOf order user) then
          (Error 403 "Not authorized to update this order", db)
        else
          let user' :=
            User.set_currentLocation
              (Some {| CurrentLocation.lat := lat; CurrentLocation.lng := lng;
                       CurrentLocation.lastUpdated := nowSaved |}) user in
          let locationUpdate :=
            {| TrackingEvent.status := Order.status order;
               TrackingEvent.timestamp := now;
               TrackingEvent.location := Some {| lat := lat; lng := lng |};
               TrackingEvent.notes := Some "Location updated"%string |} in
          let order' :=
            Order.set_tracking (Order.tracking order ++ [locationUpdate]) order in
          (Ok "Location updated successfully"
              {| ack_location := {| lat := lat; lng := lng |};
                 ack_timestamp := now |},
           saveOrder id order' (saveUser user' db))
    end.

(** [POST /:orderNumber/update]: a courier's note. *)
Definition addCustomUpdate (db : Db) (orderNumber : string) (user : User.t)
    (notes : string) (location : option Coordinates) (now : Date)
    : Response TrackingEvent.t * Db :=
  let locationValid :=
    match location with
    | Some l => floatBetween (-90) 90 (lat l) && floatBetween (-180) 180 (lng l)
    | None => true
    end in
  if bool_decide (notes = ""%string) || negb locationValid then
    (Error 400 "Validation failed", db)
  else
    match findOne db orderNumber with
    | None => (Error 404 "Order not found", db)
    | Some (id, order) =>
        if negb (isCourierOf order user) then
          (Error 403 "Not authorized to update this order", db)
        else
          let trackingUpdate :=
            {| TrackingEvent.status := Order.status order;
               TrackingEvent.timestamp := now;
               TrackingEvent.location :=
                 match location with
                 | Some l => Some l
                 | None => coordinates_of (User.currentLocation user)
                 end;
               TrackingEvent.notes := Some notes |} in
          let order' :=
            Order.set_tracking (Order.tracking order ++ [trackingUpdate]) order in
          (Ok "Tracking update added successfully" trackingUpdate,
           saveOrder id order' db)
    end.

(** [POST /:orderNumber/proof]; [isURL] is the validator's verdict on
    [imageUrl].  After the checks the handler builds the object [imageProof]
    and calls [order.images.push(imageProof)]; the elements of [images] are
    strings, the object is not cast to one, and [push] throws before
    [addTrackingUpdate] and [order.save()] are reached.  The [catch] answers
    500. *)
Definition uploadProof (db : Db) (orderNumber : string) (user : User.t)
    (imageUrl : string) (isURL : bool) (description : option string)
    : Response ImageProof.t * Db :=
  if negb isURL then (Error 400 "Validation failed", db)
  else
    match findOne db orderNumber with
    | None => (Error 404 "Order not found", db)
    | Some (id, order) =>
        if negb (isCourierOf order user) then
          (Error 403 "Not authorized to upload proof for this order", db)
        else
          (Error 500 "Server error uploading delivery proof", db)
    end.

(** *** [GET /:orderNumber/eta] *)

Context `{MathLib}.

(** The haversine distance as both [calculateDistance] and the ETA handler
    write it, in kilometres. *)
Definition haversine (lat1 lng1 lat2 lng2 : Number) : Number :=
  let R := 6371 in
  let dLat := (lat2 - lat1) * Math_PI / 180 in
  let dLon := (lng2 - lng1) * Math_PI / 180 in
  let a :=
    Math_sin (dLat / 2) * Math_sin (dLat / 2) +
    Math_cos (lat1 * Math_PI / 180) * Math_cos (lat2 * Math_PI / 180) *
    Math_sin (dLon / 2) * Math_sin (dLon / 2) in
  let c := 2 * Math_atan2 (sqrt a) (sqrt (1 - a)) in
  R * c.

(** [speedMap[vehicle] || 25], in km/h. *)
Definition estimatedSpeed (v : option Vehicle.t) : Number :=
  match v with
  | Some Vehicle.bike => 15
  | Some Vehicle.motorcycle => 25
  | Some Vehicle.car => 30
  | Some Vehicle.van => 25
  | None => 25
  end.

Inductive EtaBody :=
| EtaUnavailable (eta : option Date) (status : Status.t) (message : string)
| EtaEstimate (eta : option Date) (estimatedMinutes : Number)
    (distance : Number) (status : Status.t)
    (courierLocation : option CurrentLocation.t).

(** A coordinate of the courier's [currentLocation] as the arithmetic reads
    it: [undefined], the value of a field that was never set, is NaN in
    every operation of the estimate. *)
Definition courierCoordinate (f : CurrentLocation.t -> Number)
    (l : option CurrentLocation.t) : Number :=
  match l with
  | Some c => f c
  | None => nan
  end.

Definition estimateEta (courierLocation : option CurrentLocation.t)
    (delivery : Coordinates) (vehicle : option Vehicle.t) (status : Status.t)
    (now : Date) : EtaBody :=
  let distance :=
    haversine (courierCoordinate CurrentLocation.lat courierLocation)
      (courierCoordinate CurrentLocation.lng courierLocation)
      (lat delivery) (lng delivery) in
  let estimatedTimeHours := distance / estimatedSpeed vehicle in
  let estimatedTimeMinutes := Math_ceil (estimatedTimeHours * 60) in
  let eta := newDate (of_Z now + estimatedTimeMinutes * 60000) in
  EtaEstimate eta estimatedTimeMinutes (toFixed2 distance) status courierLocation.

(** [currentLocation] is a nested path of the User schema, which reads as
    an object on every user document, with or without coordinates; the guard
    [!order.courier || !order.courier.currentLocation] therefore answers
    only for an order whose courier reference populates to null. *)
Definition getEta (db : Db) (orderNumber : string) (now : Date)
    : Response EtaBody :=
  match findOne db orderNumber with
  | None => Error 404 "Order not found"
  | Some (_, order) =>
      (* [populate('courier', 'currentLocation vehicle')] *)
      match Order.courier order ≫= fun c => users db !! c with
      | Some courier =>
          Ok "" (estimateEta (User.currentLocation courier)
                   (LocationDetails.coordinates (Order.deliveryLocation order))
                   (User.vehicle courier) (Order.status order) now)
      | None =>
          Ok "" (EtaUnavailable (Times.delivery (Order.estimatedTime order))
                   (Order.status order) "Courier location not available")
      end
  end.

End TrackingDefs.

(* ===================================================================== *)
(** ** Sequences of operations on the store *)
(* ===================================================================== *)

(** A request that can write to an order, with the clock readings its
    handler takes; the last reading is the one stamped on the tracking
    event. *)
Inductive Op :=
| OpAssign (id : OrderId) (user : User.t) (now : Date)
| OpStatus (id : OrderId) (user : User.t) (body : StatusBody)
    (nowActual now : Date)
| OpCancel (id : OrderId) (user : User.t) (reason : option string) (now : Date)
| OpRate (id : OrderId) (user : User.t) (body : RateBody)
| OpLocation (orderNumber : string) (user : User.t) (lat lng : Number)
    (nowSaved now : Date)
| OpNote (orderNumber : string) (user : User.t) (notes : string)
    (location : option Coordinates) (now : Date)
| OpProof (orderNumber : string) (user : User.t) (imageUrl : string)
    (isURL : bool) (description : option string).

Section OpDefs.
Context {strings : StringLib}.

Definition exec (op : Op) (db : Db) : Db :=
  match op with
  | OpAssign id u now => snd (assignOrder db id u now)
  | OpStatus id u b t0 now => snd (updateStatus db id u b t0 now)
  | OpCancel id u r now => snd (cancelOrder db id u r now)
  | OpRate id u b => snd (rateOrder db id u b)
  | OpLocation n u la lo t0 now => snd (updateLocation db n u la lo t0 now)
  | OpNote n u s l now => snd (addCustomUpdate db n u s l now)
  | OpProof n u i v d => snd (uploadProof db n u i v d)
  end.

Definition execAll (ops : list Op) (db : Db) : Db :=
  foldl (fun d op => exec op d) db ops.

End OpDefs.

(** The reading an operation stamps on a tracking event ([None]: the
    operation appends none). *)
Definition eventClock (op : Op) : option Date :=
  match op with
  | OpAssign _ _ now | OpStatus _ _ _ _ now | OpCancel _ _ _ now
  | OpLocation _ _ _ _ _ now | OpNote _ _ _ _ now => Some now
  | OpRate _ _ _ | OpProof _ _ _ _ _ => None
  end.

(** Timestamps never decrease along the sequence. *)
Definition nonDecreasing (l : list Date) : Prop := Sorted Z.le l.

Definition timestamps (o : Order.t) : list Date :=
  map TrackingEvent.timestamp (Order.tracking o).

(** From [db] to [db'] every stored order is still stored, with its tracking
    sequence extended at the end by events stamped with the reading [clk]
    (by none when there is no reading). *)
Definition appendsOnly (db db' : Db) (clk : option Date) : Prop :=
  forall (id : OrderId) (order : Order.t),
    orders db !! id = Some order ->
    exists order' events,
      orders db' !! id = Some order' /\
      Order.tracking order' = Order.tracking order ++ events /\
      map TrackingEvent.timestamp events `sublist_of` option_list clk.

(* ===================================================================== *)
(** ** What one handler run does to a stored order *)
(* ===================================================================== *)

(** The relation between a stored order and the document a handler saves in
    its place, read off the seven writing handlers: which fields none of
    them assigns, and how the others can move. *)
Record Evolves (o o' : Order.t) : Prop := {
  ev_orderNumber : Order.orderNumber o' = Order.orderNumber o;
  ev_customer : Order.customer o' = Order.customer o;
  ev_pickupLocation : Order.pickupLocation o' = Order.pickupLocation o;
  ev_deliveryLocation : Order.deliveryLocation o' = Order.deliveryLocation o;
  ev_priority : Order.priority o' = Order.priority o;
  ev_pricing : Order.pricing o' = Order.pricing o;
  ev_estimatedTime : Order.estimatedTime o' = Order.estimatedTime o;
  ev_courier :
    Order.courier o' = Order.courier o \/
    (Order.courier o = None /\ Order.status o = Status.pending /\
     Order.status o' = Status.assigned /\ is_Some (Order.courier o'));
  ev_status :
    Order.status o' = Order.status o \/ Order.status o' <> Status.pending;
  ev_tracking :
    (Order.tracking o' = Order.tracking o /\ Order.status o' = Order.status o) \/
    (exists ev,
       Order.tracking o' = Order.tracking o ++ [ev] /\
       TrackingEvent.status ev = Order.status o');
  ev_images : Order.images o' = Order.images o;
  ev_customerRating :
    (OrderRating.customerRating (Order.rating o')
       = OrderRating.customerRating (Order.rating o) /\
     OrderRating.customerFeedback (Order.rating o')
       = OrderRating.customerFeedback (Order.rating o)) \/
    (ratingSet (OrderRating.customerRating (Order.rating o)) = false /\
     ratingSet (OrderRating.customerRating (Order.rating o')) = true);
  ev_courierRating :
    (OrderRating.courierRating (Order.rating o')
       = OrderRating.courierRating (Order.rating o) /\
     OrderRating.courierFeedback (Order.rating o')
       = OrderRating.courierFeedback (Order.rating o)) \/
    (ratingSet (OrderRating.courierRating (Order.rating o)) = false /\
     ratingSet (OrderRating.courierRating (Order.rating o')) = true);
  ev_pickupTime :
    Times.pickup (Order.actualTime o') = Times.pickup (Order.actualTime o) \/
    Order.status o' = Status.picked_up;
  ev_deliveryTime :
    Times.delivery (Order.actualTime o') = Times.delivery (Order.actualTime o) \/
    Order.status o' = Status.delivered
}.

(** From [db] to [db'] at most one stored order is rewritten, by a document
    it evolves into, and at most one user document is saved; nothing is
    removed. *)
Definition Rewrites (db db' : Db) : Prop :=
  (orders db' = orders db \/
   exists id o o',
     orders db !! id = Some o /\ Evolves o o' /\
     orders db' = <[id := o']> (orders db)) /\
  (users db' = users db \/
   exists u, users db' = <[User._id u := u]> (users db)).

(** The status of the last tracking event is the order's status. *)
Definition statusIsLastEvent (o : Order.t) : Prop :=
  last (map TrackingEvent.status (Order.tracking o)) = Some (Order.status o).

(** A user who is neither an administrator, nor the order's customer, nor
    its courier. *)
Definition stranger (o : Order.t) (u : User.t) : bool :=
  negb (isAdmin u) && negb (isCustomerOf o u) && negb (isCourierOf o u).

(* ===================================================================== *)
(** ** The reading handlers *)
(* ===================================================================== *)

(** [populate(path, ..)]: the referenced user document, null when there is
    none. *)
Definition populate (db : Db) (ref : option UserId) : option User.t :=
  ref ≫= fun k => users db !! k.

(** [GET /orders/:id].  Both references are populated; with [||] cutting
    short, [order.customer._id] is read only for a caller who is not an
    administrator, and throws when the customer document is missing. *)
Definition getOrder (db : Db) (id : OrderId) (user : User.t)
    : Response Order.t :=
  match orders db !! id with
  | None => Error 404 "Order not found"
  | Some order =>
      if isAdmin user then Ok "" order
      else
        match populate db (Some (Order.customer order)) with
        | None => Error 500 "Server error fetching order"
        | Some customer =>
            if bool_decide (User._id customer = User._id user)
               || match populate db (Order.courier order) with
                  | Some courier => bool_decide (User._id courier = User._id user)
                  | None => false
                  end
            then Ok "" order
            else Error 403 "Not authorized to view this order"
        end
  end.

(** [GET /orders/available]: pending orders without courier, newest first,
    at most twenty.  [createdAt] is the creation time Mongoose keeps for the
    document stored under a key. *)
Definition isAvailableOrder (p : OrderId * Order.t) : Prop :=
  Order.status (snd p) = Status.pending /\ Order.courier (snd p) = None.

#[global] Instance isAvailableOrder_dec (p : OrderId * Order.t) :
  Decision (isAvailableOrder p).
Proof. unfold isAvailableOrder. apply _. Defined.

Definition newerFirst (createdAt : OrderId -> Date)
    (a b : OrderId * Order.t) : Prop :=
  (createdAt (fst b) <= createdAt (fst a))%Z.
#[global] Instance newerFirst_dec (createdAt : OrderId -> Date)
    (a b : OrderId * Order.t) : Decision (newerFirst createdAt a b).
Proof. unfold newerFirst. apply _. Defined.

Definition availableOrders (createdAt : OrderId -> Date) (db : Db)
    : list (OrderId * Order.t) :=
  take 20
    (merge_sort (newerFirst createdAt)
       (filter isAvailableOrder (map_to_list (orders db)))).

(** The public fields of the courier and of the customer in a tracking
    snapshot. *)
Record CourierProfile := {
  cp_name : string;
  cp_vehicle : option Vehicle.t;
  cp_rating : Rating.t
}.

Record TrackingInfo := {
  ti_orderNumber : string;
  ti_status : Status.t;
  ti_pickupLocation : LocationDetails.t;
  ti_deliveryLocation : LocationDetails.t;
  ti_estimatedTime : Times.t;
  ti_actualTime : Times.t;
  ti_tracking : list TrackingEvent.t;
  ti_courier : option CourierProfile;
  ti_customer : string
}.

(** [GET /tracking/:orderNumber], without authentication.  [order.customer.name]
    throws when the customer document is missing. *)
Definition getTracking (db : Db) (orderNumber : string)
    : Response TrackingInfo :=
  match findOne db orderNumber with
  | None => Error 404 "Order not found"
  | Some (_, order) =>
      match populate db (Some (Order.customer order)) with
      | None => Error 500 "Server error fetching tracking information"
      | Some customer =>
          Ok ""
             {| ti_orderNumber := Order.orderNumber order;
                ti_status := Order.status order;
                ti_pickupLocation := Order.pickupLocation order;
                ti_deliveryLocation := Order.deliveryLocation order;
                ti_estimatedTime := Order.estimatedTime order;
                ti_actualTime := Order.actualTime order;
                ti_tracking := Order.tracking order;
                ti_courier :=
                  match populate db (Order.courier order) with
                  | Some courier =>
                      Some {| cp_name := User.name courier;
                              cp_vehicle := User.vehicle courier;
                              cp_rating := User.rating courier |}
                  | None => None
                  end;
                ti_customer := User.name customer |}
      end
  end.

(** [GET /tracking/:orderNumber/proof] *)
Definition getProof (db : Db) (orderNumber : string) (user : User.t)
    : Response (list string * Status.t) :=
  match findOne db orderNumber with
  | None => Error 404 "Order not found"
  | Some (_, order) =>
      if isAdmin user || isCustomerOf order user || isCourierOf order user
      then Ok "" (Order.images order, Order.status order)
      else Error 403 "Not authorized to view delivery proof"
  end.

(** The unique index on [orderNumber]. *)
Definition uniqueNumbers (db : Db) : Prop :=
  forall (i j : OrderId) (oi oj : Order.t),
    orders db !! i = Some oi -> orders db !! j = Some oj ->
    Order.orderNumber oi = Order.orderNumber oj -> i = j.

(** Every user document is stored under its own [_id]. *)
Definition keyedById (db : Db) : Prop :=
  forall (k : UserId) (u : User.t), users db !! k = Some u -> User._id u = k.

(* ===================================================================== *)
(** ** Distance of an order ([calculateDistance]) *)
(* ===================================================================== *)

Section DistanceDefs.
Context `{MathLib}.

(** [orderSchema.methods.calculateDistance]: from the pickup coordinate to
    the delivery coordinate. *)
Definition calculateDistance (o : Order.t) : Number :=
  haversine
    (lat (LocationDetails.coordinates (Order.pickupLocation o)))
    (lng (LocationDetails.coordinates (Order.pickupLocation o)))
    (lat (LocationDetails.coordinates (Order.deliveryLocation o)))
    (lng (LocationDetails.coordinates (Order.deliveryLocation o))).

End DistanceDefs.

(* ===================================================================== *)
(** ** The order number *)
(* ===================================================================== *)

(** The decimal digits of a non-negative integer, most significant first
    ([Number.prototype.toString] on a time value or a count). *)
Fixpoint decimalDigitsFuel (fuel : nat) (n : Z) : list Z :=
  match fuel with
  | O => []
  | S f =>
      if (n <? 10)%Z then [n]
      else decimalDigitsFuel f (n / 10)%Z ++ [(n mod 10)%Z]
  end.

Definition decimalDigits (n : Z) : list Z :=
  decimalDigitsFuel (S (S (Z.to_nat (Z.log2 n)))) n.

Definition digitChar (d : Z) : ascii := ascii_of_nat (48 + Z.to_nat d).

(** The string of a list of decimal digits. *)
Definition digitString (l : list Z) : string :=
  string_of_list_ascii (map digitChar l).

(** [s.slice(-k)] and [s.padStart(k, c)] on the characters of a string. *)
Definition sliceLast {A} (k : nat) (l : list A) : list A :=
  drop (length l - k) l.

Definition padStart {A} (k : nat) (c : A) (l : list A) : list A :=
  replicate (k - length l) c ++ l.

(** The pre-save hook of the Order schema: [CR], the last six digits of
    [Date.now()] and [Math.floor(Math.random() * 1000)] padded to three
    digits.  [random] is that floor. *)
Definition generateOrderNumber (now : Date) (random : Z) : string :=
  "CR" +:+ string_of_list_ascii
             (map digitChar
                (sliceLast 6 (decimalDigits now)
                 ++ padStart 3 0%Z (decimalDigits random))).

(** The k low decimal digits of a number, most significant first. *)
Fixpoint fixedDigits (k : nat) (n : Z) : list Z :=
  match k with
  | O => []
  | S k' => fixedDigits k' (n / 10)%Z ++ [(n mod 10)%Z]
  end.

(* ===================================================================== *)
(** ** Sample data *)
(* ===================================================================== *)

Module Sample.

(** A clock reading one minute after the sample order was created. *)
Definition later : Date := 1700000060000%Z.

Definition alice : User.t :=
  {| User._id := 1; User.name := "Alice"; User.role := Role.customer;
     User.vehicle := None; User.isAvailable := false;
     User.currentLocation := None;
     User.rating := {| Rating.average := 0%float; Rating.count := 0%float |} |}.

Definition bob : User.t :=
  {| User._id := 2; User.name := "Bob"; User.role := Role.courier;
     User.vehicle := Some Vehicle.bike; User.isAvailable := true;
     User.currentLocation :=
       Some {| CurrentLocation.lat := 40.75%float;
               CurrentLocation.lng := (-73.5)%float;
               CurrentLocation.lastUpdated := 1700000000000%Z |};
     User.rating := {| Rating.average := 5%float; Rating.count := 2%float |} |}.

Definition carol : User.t :=
  {| User._id := 3; User.name := "Carol"; User.role := Role.courier;
     User.vehicle := Some Vehicle.car; User.isAvailable := true;
     User.currentLocation := None;
     User.rating := {| Rating.average := 0%float; Rating.count := 0%float |} |}.

Definition dave : User.t :=
  {| User._id := 4; User.name := "Dave"; User.role := Role.courier;
     User.vehicle := Some Vehicle.van; User.isAvailable := false;
     User.currentLocation := None;
     User.rating := {| Rating.average := 0%float; Rating.count := 0%float |} |}.

Definition root : User.t :=
  {| User._id := 9; User.name := "Root"; User.role := Role.admin;
     User.vehicle := None; User.isAvailable := false;
     User.currentLocation := None;
     User.rating := {| Rating.average := 0%float; Rating.count := 0%float |} |}.

Definition place (la lo : Number) : LocationDetails.t :=
  {| LocationDetails.address := "1 Main St";
     LocationDetails.coordinates := {| lat := la; lng := lo |};
     LocationDetails.contactName := "Desk";
     LocationDetails.contactPhone := "5550100" |}.

Definition created : TrackingEvent.t :=
  {| TrackingEvent.status := Status.pending;
     TrackingEvent.timestamp := 1700000000000%Z;
     TrackingEvent.location := None;
     TrackingEvent.notes :=
       Some "Order created and waiting for courier assignment" |}.

(** An order of Alice's in status [s] with courier [c]. *)
Definition order (s : Status.t) (c : option UserId) : Order.t :=
  {| Order.orderNumber := "CR000000001"; Order.customer := 1;
     Order.courier := c;
     Order.pickupLocation := place 40.5%float (-74)%float;
     Order.deliveryLocation := place 40.75%float (-73.5)%float;
     Order.status := s; Order.priority := Priority.standard;
     Order.pricing := calculatePricing 8%float Priority.standard;
     Order.estimatedTime := {| Times.pickup := None; Times.delivery := None |};
     Order.actualTime := {| Times.pickup := None; Times.delivery := None |};
     Order.tracking := [created];
     Order.rating :=
       {| OrderRating.customerRating := None; OrderRating.courierRating := None;
          OrderRating.customerFeedback := None;
          OrderRating.courierFeedback := None |};
     Order.images := [] |}.

(** The store holding that order under key 7 and the five users. *)
Definition db (s : Status.t) (c : option UserId) : Db :=
  {| orders := {[ 7 := order s c ]};
     users := <[1 := alice]> (<[2 := bob]> (<[3 := carol]>
                (<[4 := dave]> {[ 9 := root ]}))) |}.

(** Bob claims the order, picks it up, reports a position, leaves a note
    and sends a proof, at successive clock readings. *)
Definition ops : list Op :=
  [ OpAssign 7 bob later;
    OpStatus 7 bob
      {| sb_status := Status.picked_up; sb_notes := Some "Collected";
         sb_location := None |}
      (later + 600000)%Z (later + 600001)%Z;
    OpLocation "CR000000001" bob 40.6%float (-73.8)%float
      (later + 900000)%Z (later + 900002)%Z;
    OpNote "CR000000001" bob "Stuck in traffic" None (later + 950000)%Z;
    OpProof "CR000000001" bob "https://img.example/1.jpg" true None ].

(** A library whose sine and arctangent vanish at 0 and whose cosine stays
    within [-1, 1]. *)
Definition flatMath : MathLib :=
  {| Math_sin := fun x => x; Math_cos := fun _ => 1%float;
     Math_atan2 := fun y _ => y |}.

(** The whole number a Number is, when it is one. *)
Definition wholeNumber (x : Number) : option Z :=
  match Prim2SF x with
  | S754_zero _ => Some 0%Z
  | S754_finite s m e =>
      let sign (z : Z) := if s then (- z)%Z else z in
      if (0 <=? e)%Z then Some (sign (Z.pos m * 2 ^ e)%Z)
      else if (Z.pos m mod 2 ^ (- e) =? 0)%Z then
        Some (sign (Z.pos m / 2 ^ (- e))%Z)
      else None
  | _ => None
  end.

(** A string library that prints a whole number by its decimal digits, as
    the engine does below 1e21, and reads a signed string of digits as the
    number it writes.  It knows no other number and no other string. *)
#[global] Instance wholeStrings : StringLib :=
  {| Number_toString := fun x =>
       match wholeNumber x with
       | Some z =>
           if (z <? 0)%Z then "-" +:+ digitString (decimalDigits (- z))
           else digitString (decimalDigits z)
       | None => "NaN"
       end;
     StringToNumber := fun s =>
       match integerOf s with
       | Some z => of_Z z
       | None => nan
       end |}.

End Sample.

Module SampleMore.

(** A pickup and delivery at the same desk. *)
Definition sameDesk : Order.t :=
    {| Order.orderNumber := "CR000000002"; Order.customer := 1;
       Order.courier := None;
       Order.pickupLocation := Sample.place 40.75%float (-73.5)%float;
       Order.deliveryLocation := Sample.place 40.75%float (-73.5)%float;
       Order.status := Status.pending; Order.priority := Priority.express;
       Order.pricing := calculatePricing 0%float Priority.express;
       Order.estimatedTime := {| Times.pickup := None; Times.delivery := None |};
       Order.actualTime := {| Times.pickup := None; Times.delivery := None |};
       Order.tracking := [Sample.created];
       Order.rating :=
         {| OrderRating.customerRating := None; OrderRating.courierRating := None;
            OrderRating.customerFeedback := None;
            OrderRating.courierFeedback := None |};
       Order.images := [] |}.

(** A delivered order of Alice's, carried by Bob and rated 5 by her, with
    one image on file. *)
Definition delivered : Order.t :=
    {| Order.orderNumber := "CR000000003"; Order.customer := 1;
       Order.courier := Some 2%nat;
       Order.pickupLocation := Sample.place 40.5%float (-74)%float;
       Order.deliveryLocation := Sample.place 40.75%float (-73.5)%float;
       Order.status := Status.delivered; Order.priority := Priority.standard;
       Order.pricing := calculatePricing 8%float Priority.standard;
       Order.estimatedTime := {| Times.pickup := None; Times.delivery := None |};
       Order.actualTime := {| Times.pickup := None; Times.delivery := None |};
       Order.tracking :=
         [ Sample.created;
           {| TrackingEvent.status := Status.delivered;
              TrackingEvent.timestamp := 1700000050000%Z;
              TrackingEvent.location := None;
              TrackingEvent.notes := None |} ];
       Order.rating :=
         {| OrderRating.customerRating := Some 5%Z;
            OrderRating.courierRating := None;
            OrderRating.customerFeedback := Some "On time"%string;
            OrderRating.courierFeedback := None |};
       Order.images := ["https://img.example/0.jpg"%string] |}.

(** The store holding that order under key 8 and the five users. *)
Definition dbDelivered : Db :=
  {| orders := {[ 8%nat := delivered ]};
     users := users (Sample.db Status.delivered (Some 2%nat)) |}.

End SampleMore.

(* ===================================================================== *)
(** * Properties *)
(* ===================================================================== *)

(** ** Pricing *)

Section PricingFacts.
Local Open Scope float_scope.

(** C4 (as the source computes it): for every distance and priority the
    stored base fare is 5.00, the distance fare is the distance times 1.50
    rounded to two decimals, the priority fare is 2.50 for express, 5.00 for
    urgent and 0 for standard, and the total is the unrounded sum
    5.00 + distance * 1.50 + priority fare rounded once to two decimals. *)
Theorem calculatePricing_rounds_the_sum (distance : Number) (priority : Priority.t) :
  let p := calculatePricing distance priority in
  Pricing.baseFare p = 5 /\
  Pricing.distanceFare p = toFixed2 (distance * 1.5) /\
  Pricing.priorityFare p =
    match priority with
    | Priority.express => 2.5
    | Priority.urgent => 5
    | Priority.standard => 0
    end /\
  Pricing.totalAmount p =
    toFixed2 (5 + distance * 1.5 +
              match priority with
              | Priority.express => 2.5
              | Priority.urgent => 5
              | Priority.standard => 0
              end).
Proof.
  destruct priority; cbn -[toFixed2 PrimFloat.add PrimFloat.mul];
    repeat split; try (vm_compute; reflexivity).
Qed.

(** C4, refuted as stated: at distance 0.01 km and priority urgent the
    stored components are 5, 0.01 and 5 while the stored total is 10.02, one
    cent above the sum of the rounded components. *)
Lemma total_is_not_sum_of_rounded_components :
  let p := calculatePricing 0.01 Priority.urgent in
  Pricing.baseFare p = 5 /\ Pricing.distanceFare p = 0.01 /\
  Pricing.priorityFare p = 5 /\ Pricing.totalAmount p = 10.02 /\
  componentsRoundedThenSummed 0.01 Priority.urgent = 10.01 /\
  Pricing.totalAmount p <> componentsRoundedThenSummed 0.01 Priority.urgent.
Proof.
  repeat split; try (vm_compute; reflexivity).
  intros E. apply (f_equal Prim2SF) in E. vm_compute in E. discriminate E.
Qed.

End PricingFacts.

(** ** Claiming an order *)

Section AssignFacts.
Context {strings : StringLib}.

(** C3: with an available courier, the claim of a stored order succeeds
    exactly when the order is pending with no courier; a successful claim
    stores the courier and the status assigned in the one save, and a
    refused claim answers 400 (already assigned or not available for
    assignment) and leaves the store as it was. *)
Theorem claim_succeeds_iff_pending_unassigned
    (db : Db) (id : OrderId) (order : Order.t) (user : User.t) (now : Date) :
  orders db !! id = Some order ->
  User.isAvailable user = true ->
  (isOk (fst (assignOrder db id user now)) = true <->
     Order.status order = Status.pending /\ Order.courier order = None) /\
  (isOk (fst (assignOrder db id user now)) = true ->
     exists m order',
       assignOrder db id user now = (Ok m order', saveOrder id order' db) /\
       Order.courier order' = Some (User._id user) /\
       Order.status order' = Status.assigned) /\
  (isOk (fst (assignOrder db id user now)) = false ->
     exists m,
       assignOrder db id user now = (Error 400 m, db) /\
       (m = "Order is not available for assignment"
        \/ m = "Order already assigned to another courier")).
Proof.
  intros Hfound Havail. unfold assignOrder, assignChecks.
  rewrite Hfound, Havail. cbn [negb].
  destruct (bool_decide_reflect (Order.status order <> Status.pending)) as [Hs|Hs].
  - cbn. split; [|split].
    + split; [discriminate|]. intros [E _]. contradiction.
    + discriminate.
    + intros _. eexists. split; [reflexivity|]. now left.
  - apply dec_stable in Hs.
    destruct (bool_decide_reflect (is_Some (Order.courier order))) as [Hc|Hc].
    + cbn. split; [|split].
      * split; [discriminate|]. intros [_ E]. rewrite E in Hc.
        destruct Hc as [? Hc]. discriminate Hc.
      * discriminate.
      * intros _. eexists. split; [reflexivity|]. now right.
    + cbn. split; [|split].
      * split; [|reflexivity]. intros _. split; [exact Hs|].
        destruct (Order.courier order); [|reflexivity].
        exfalso. apply Hc. eauto.
      * intros _. do 2 eexists. split; [reflexivity|]. split; reflexivity.
      * discriminate.
Qed.

(** C9: a claim by a courier whose [isAvailable] flag is false is answered
    400 and the store is left as it was, whatever the order's state; when
    the order is pending with no courier the message is the availability
    one. *)
Theorem unavailable_courier_cannot_claim
    (db : Db) (id : OrderId) (order : Order.t) (user : User.t) (now : Date) :
  orders db !! id = Some order ->
  User.isAvailable user = false ->
  exists m,
    assignOrder db id user now = (Error 400 m, db) /\
    (Order.status order = Status.pending -> Order.courier order = None ->
     m = "You must be available to accept orders").
Proof.
  intros Hfound Havail. unfold assignOrder, assignChecks.
  rewrite Hfound, Havail. cbn [negb].
  destruct (bool_decide_reflect (Order.status order <> Status.pending)) as [Hs|Hs].
  - eexists. split; [reflexivity|]. intros E. contradiction.
  - destruct (bool_decide_reflect (is_Some (Order.courier order))) as [Hc|Hc].
    + eexists. split; [reflexivity|]. intros _ E. rewrite E in Hc.
      destruct Hc as [? Hc]. discriminate Hc.
    + eexists. split; [reflexivity|]. reflexivity.
Qed.

End AssignFacts.

Lemma claim_succeeds_iff_pending_unassigned_witness :
  isOk (fst (assignOrder (Sample.db Status.pending None) 7 Sample.bob Sample.later))
    = true <->
  Order.status (Sample.order Status.pending None) = Status.pending /\
  Order.courier (Sample.order Status.pending None) = None.
Proof.
  apply (claim_succeeds_iff_pending_unassigned
           (Sample.db Status.pending None) 7 (Sample.order Status.pending None)
           Sample.bob Sample.later); reflexivity.
Defined.

Lemma unavailable_courier_cannot_claim_witness :
  exists m,
    assignOrder (Sample.db Status.pending None) 7 Sample.dave Sample.later
      = (Error 400 m, Sample.db Status.pending None) /\
    (Order.status (Sample.order Status.pending None) = Status.pending ->
     Order.courier (Sample.order Status.pending None) = None ->
     m = "You must be available to accept orders").
Proof.
  apply (unavailable_courier_cannot_claim
           (Sample.db Status.pending None) 7 (Sample.order Status.pending None)
           Sample.dave Sample.later); reflexivity.
Defined.

(** ** Status updates and cancellation *)

Section TransitionFacts.
Context {strings : StringLib}.

(** From a status with an entry in [validTransitions] (the four that are not
    terminal), an authorized request for a target outside the table is
    answered 400 and nothing is stored: with the validator's message when
    the target is pending or assigned, with the two statuses named
    otherwise. *)
Lemma updateStatus_rejects_outside_table
    (db : Db) (id : OrderId) (order : Order.t) (user : User.t)
    (body : StatusBody) (nowActual now : Date) :
  orders db !! id = Some order ->
  isAdmin user || isCourierOf order user
    || (bool_decide (sb_status body = Status.cancelled) && isCustomerOf order user)
    = true ->
  terminal (Order.status order) = false ->
  inTable (Order.status order) (sb_status body) = false ->
  updateStatus db id user body nowActual now =
    (Error 400
       (if bool_decide (sb_status body ∈ statusAccepted)
        then cannotChange (Order.status order) (sb_status body)
        else "Validation failed"), db).
Proof.
  intros Hfound Hauth Hterm Htab. unfold updateStatus.
  destruct (bool_decide (sb_status body ∈ statusAccepted)) eqn:Hacc; cbn [negb];
    [|reflexivity].
  rewrite Hfound, Hauth. cbn [negb].
  destruct (Order.status order), (sb_status body);
    try discriminate Hterm; try discriminate Htab; try discriminate Hacc;
    reflexivity.
Qed.

(** From a terminal status, which has no entry in [validTransitions], the
    table check is skipped: every target the validator accepts is stored. *)
Lemma updateStatus_unchecked_from_terminal
    (db : Db) (id : OrderId) (order : Order.t) (user : User.t)
    (body : StatusBody) (nowActual now : Date) :
  orders db !! id = Some order ->
  isAdmin user || isCourierOf order user
    || (bool_decide (sb_status body = Status.cancelled) && isCustomerOf order user)
    = true ->
  terminal (Order.status order) = true ->
  sb_status body ∈ statusAccepted ->
  exists order',
    updateStatus db id user body nowActual now =
      (Ok "Order status updated successfully" order', saveOrder id order' db) /\
    Order.status order' = sb_status body.
Proof.
  intros Hfound Hauth Hterm Hacc. unfold updateStatus.
  rewrite (bool_decide_eq_true_2 _ Hacc). cbn [negb].
  rewrite Hfound, Hauth. cbn [negb].
  destruct (Order.status order) eqn:Hs; try discriminate Hterm;
    cbn [validTransitions]; eexists; (split; [reflexivity|reflexivity]).
Qed.

(** C2, at the failing input: the pair (delivered, cancelled) is outside the
    transition table and delivered is terminal, yet the administrator's
    status update of a delivered order to cancelled is answered 200 and the
    order is stored as cancelled. *)
Theorem status_update_from_delivered_is_accepted :
  inTable Status.delivered Status.cancelled = false /\
  terminal Status.delivered = true /\
  exists order',
    updateStatus (Sample.db Status.delivered (Some 2)) 7 Sample.root
      {| sb_status := Status.cancelled; sb_notes := None; sb_location := None |}
      Sample.later Sample.later
    = (Ok "Order status updated successfully" order',
       saveOrder 7 order' (Sample.db Status.delivered (Some 2))) /\
    Order.status order' = Status.cancelled.
Proof.
  split; [reflexivity|]. split; [reflexivity|].
  eexists. split; reflexivity.
Qed.

(** C6 (as the source decides it): for a stored order and an authorized
    caller, the cancel request succeeds exactly when the order is pending or
    assigned, and then the order is stored as cancelled; from every other
    status, picked_up included, it is answered 400 and nothing is stored. *)
Theorem cancel_succeeds_iff_pending_or_assigned
    (db : Db) (id : OrderId) (order : Order.t) (user : User.t)
    (reason : option string) (now : Date) :
  orders db !! id = Some order ->
  isAdmin user || isCustomerOf order user || isCourierOf order user = true ->
  (isOk (fst (cancelOrder db id user reason now)) = true <->
     Order.status order = Status.pending \/ Order.status order = Status.assigned) /\
  (isOk (fst (cancelOrder db id user reason now)) = true ->
     exists order',
       cancelOrder db id user reason now =
         (Ok "Order cancelled successfully" order', saveOrder id order' db) /\
       Order.status order' = Status.cancelled) /\
  (isOk (fst (cancelOrder db id user reason now)) = false ->
     cancelOrder db id user reason now =
       (Error 400 "Order cannot be cancelled at this stage", db)).
Proof.
  intros Hfound Hauth. unfold cancelOrder. rewrite Hfound, Hauth. cbn [negb].
  destruct (Order.status order) eqn:Hs; cbn;
    (split; [split; [try discriminate; auto | intros [E|E]; try discriminate E; reflexivity]
            | split; [try discriminate; intros _; eexists; split; reflexivity
                     | try discriminate; reflexivity ]]).
Qed.

(** C6, refuted as stated: the table allows picked_up -> cancelled, but the
    customer's cancel request on a picked-up order is answered 400. *)
Lemma cancel_refused_from_picked_up :
  inTable Status.picked_up Status.cancelled = true /\
  cancelOrder (Sample.db Status.picked_up (Some 2)) 7 Sample.alice None Sample.later
  = (Error 400 "Order cannot be cancelled at this stage",
     Sample.db Status.picked_up (Some 2)).
Proof. split; reflexivity. Qed.

End TransitionFacts.

Lemma cancel_succeeds_iff_pending_or_assigned_witness :
  isOk (fst (cancelOrder (Sample.db Status.assigned (Some 2)) 7 Sample.alice None
               Sample.later)) = true <->
  Order.status (Sample.order Status.assigned (Some 2)) = Status.pending
  \/ Order.status (Sample.order Status.assigned (Some 2)) = Status.assigned.
Proof.
  apply (cancel_succeeds_iff_pending_or_assigned
           (Sample.db Status.assigned (Some 2)) 7
           (Sample.order Status.assigned (Some 2)) Sample.alice None Sample.later);
    reflexivity.
Defined.

(** ** Rating *)

Section RateFacts.
Context {strings : StringLib}.

Lemma users_saveOrder (id : OrderId) (o : Order.t) (db : Db) :
  users (saveOrder id o db) = users db.
Proof. reflexivity. Qed.

Lemma users_saveUser (u : User.t) (db : Db) :
  users (saveUser u db) !! User._id u = Some u.
Proof. unfold saveUser; cbn. apply lookup_insert_eq. Qed.

(** C5 (as the source stores it): after a successful rating whose score
    arrived as the JSON number r, the profile read for the rated party is
    saved with average = round2 ((average * count + r) / (count + 1)) and
    count = count + 1, from the prior stored (average, count). *)
Theorem rate_stores_rounded_rolling_average
    (db db' : Db) (id : OrderId) (order : Order.t) (user : User.t)
    (body : RateBody) (x : Number) (m : string) (r : OrderRating.t)
    (k : UserId) :
  orders db !! id = Some order ->
  rb_rating body = ScoreNumber x ->
  rateOrder db id user body = (Ok m r, db') ->
  ratedParty order user = Some k ->
  exists profile,
    users db !! k = Some profile /\
    users db' !! User._id profile =
      Some (User.set_rating
              {| Rating.average :=
                   toFixed2 (rollingAverage (User.rating profile) x);
                 Rating.count := (Rating.count (User.rating profile) + 1)%float |}
              profile).
Proof.
  intros Hfound Hnum Hrate Hparty. unfold rateOrder in Hrate.
  rewrite Hfound, Hnum in Hrate. unfold ratedParty in Hparty.
  destruct (scoreValue _); [|discriminate Hrate].
  destruct (bool_decide _); [discriminate Hrate|].
  assert (Hsaved : forall profile profile',
             rateProfile profile (ScoreNumber x) = Some profile' ->
             profile' =
               User.set_rating
                 {| Rating.average :=
                      toFixed2 (rollingAverage (User.rating profile) x);
                    Rating.count :=
                      (Rating.count (User.rating profile) + 1)%float |}
                 profile).
  { intros profile profile'. unfold rateProfile.
    destruct (_ || _); [discriminate|]. intros [= <-]. reflexivity. }
  destruct (isCustomerOf order user).
  - destruct (ratingSet _); [discriminate Hrate|].
    rewrite Hparty in Hrate.
    destruct (users db !! k) as [courier|] eqn:Hk; [|discriminate Hrate].
    cbn [mbind option_bind] in Hrate.
    destruct (rateProfile courier (ScoreNumber x)) as [courier'|] eqn:Hp;
      [|discriminate Hrate].
    injection Hrate as _ _ <-. exists courier. split; [reflexivity|].
    rewrite users_saveOrder. rewrite <- (Hsaved _ _ Hp).
    replace (User._id courier) with (User._id courier')
      by (rewrite (Hsaved _ _ Hp); reflexivity).
    apply users_saveUser.
  - injection Hparty as <-.
    destruct (isCourierOf order user); [|discriminate Hrate].
    destruct (ratingSet _); [discriminate Hrate|].
    destruct (users db !! Order.customer order) as [customer|] eqn:Hk;
      [|discriminate Hrate].
    cbn [mbind option_bind] in Hrate.
    destruct (rateProfile customer (ScoreNumber x)) as [customer'|] eqn:Hp;
      [|discriminate Hrate].
    injection Hrate as _ _ <-. exists customer. split; [reflexivity|].
    rewrite users_saveOrder. rewrite <- (Hsaved _ _ Hp).
    replace (User._id customer) with (User._id customer')
      by (rewrite (Hsaved _ _ Hp); reflexivity).
    apply users_saveUser.
Qed.

End RateFacts.

(** C5, refuted as stated: Alice rates 4 on a delivered order whose courier
    Bob had (average, count) = (5, 2); Bob's stored average becomes 4.67,
    not (5 * 2 + 4) / 3. *)
Lemma stored_average_is_rounded :
  let out :=
    rateOrder (Sample.db Status.delivered (Some 2)) 7 Sample.alice
      {| rb_rating := ScoreNumber 4%float; rb_feedback := None |} in
  isOk (fst out) = true /\
  User.rating <$> users (snd out) !! 2%nat
    = Some {| Rating.average := 4.67%float; Rating.count := 3%float |} /\
  rollingAverage (User.rating Sample.bob) 4%float = (14 / 3)%float /\
  (4.67 <> 14 / 3)%float.
Proof.
  repeat split; try (vm_compute; reflexivity).
  intros E. apply (f_equal Prim2SF) in E. vm_compute in E. discriminate E.
Qed.

Lemma rate_stores_rounded_rolling_average_witness :
  exists profile,
    users (Sample.db Status.delivered (Some 2)) !! 2%nat = Some profile /\
    users (snd (rateOrder (Sample.db Status.delivered (Some 2)) 7 Sample.alice
                  {| rb_rating := ScoreNumber 4%float; rb_feedback := None |}))
      !! User._id profile =
      Some (User.set_rating
              {| Rating.average :=
                   toFixed2 (rollingAverage (User.rating profile) 4%float);
                 Rating.count := (Rating.count (User.rating profile) + 1)%float |}
              profile).
Proof.
  eapply (rate_stores_rounded_rolling_average
            (Sample.db Status.delivered (Some 2)) _ 7
            (Sample.order Status.delivered (Some 2)) Sample.alice
            {| rb_rating := ScoreNumber 4%float; rb_feedback := None |} 4%float).
  - reflexivity.
  - reflexivity.
  - vm_compute. reflexivity.
  - reflexivity.
Defined.

(** ** The tracking router *)

Section TrackingFacts.
Context {strings : StringLib}.

(** The document [findOne] returns is the one stored under the key it
    returns, and carries the order number asked for. *)
Lemma findOne_Some (db : Db) (n : string) (id : OrderId) (order : Order.t) :
  findOne db n = Some (id, order) ->
  orders db !! id = Some order /\ Order.orderNumber order = n.
Proof.
  unfold findOne. intros Hf.
  apply fmap_Some in Hf as [[i [k o]] [Hfind Heq]].
  cbn in Heq. injection Heq as <- <-.
  apply list_find_Some in Hfind as (Hi & HP & _). cbn in HP.
  split; [|exact HP].
  apply elem_of_map_to_list. eapply list_elem_of_lookup_2. exact Hi.
Qed.

(** C10: a successful location report stores the reporting courier with
    only [currentLocation] replaced, and stores the order found with one
    event appended to [tracking], carrying the order's current status, the
    reported coordinate and the note; every other field of the order
    (status, courier, customer, pricing, both locations, estimated and
    actual times, rating, images, priority, order number) and every other
    order and user are as before. *)
Theorem location_report_frame
    (db db' : Db) (orderNumber : string) (user : User.t) (la lo : Number)
    (nowSaved now : Date) (m : string) (ack : LocationAck) :
  updateLocation db orderNumber user la lo nowSaved now = (Ok m ack, db') ->
  exists id order order' user',
    orders db !! id = Some order /\
    orders db' = <[id := order']> (orders db) /\
    users db' = <[User._id user := user']> (users db) /\
    (* the courier's presence *)
    User.currentLocation user' =
      Some {| CurrentLocation.lat := la; CurrentLocation.lng := lo;
              CurrentLocation.lastUpdated := nowSaved |} /\
    User._id user' = User._id user /\ User.name user' = User.name user /\
    User.role user' = User.role user /\ User.vehicle user' = User.vehicle user /\
    User.isAvailable user' = User.isAvailable user /\
    User.rating user' = User.rating user /\
    (* the appended event *)
    Order.tracking order' =
      Order.tracking order ++
      [ {| TrackingEvent.status := Order.status order;
           TrackingEvent.timestamp := now;
           TrackingEvent.location := Some {| lat := la; lng := lo |};
           TrackingEvent.notes := Some "Location updated" |} ] /\
    (* the frame *)
    Order.status order' = Order.status order /\
    Order.courier order' = Order.courier order /\
    Order.customer order' = Order.customer order /\
    Order.pricing order' = Order.pricing order /\
    Order.pickupLocation order' = Order.pickupLocation order /\
    Order.deliveryLocation order' = Order.deliveryLocation order /\
    Order.estimatedTime order' = Order.estimatedTime order /\
    Order.actualTime order' = Order.actualTime order /\
    Order.rating order' = Order.rating order /\
    Order.images order' = Order.images order /\
    Order.priority order' = Order.priority order /\
    Order.orderNumber order' = Order.orderNumber order.
Proof.
  unfold updateLocation. intros Hup.
  destruct (negb _); [discriminate Hup|].
  destruct (findOne db orderNumber) as [[id order]|] eqn:Hfind;
    [|discriminate Hup].
  destruct (negb _); [discriminate Hup|].
  injection Hup as _ _ <-.
  apply findOne_Some in Hfind as [Hstored _].
  exists id, order. do 2 eexists.
  split; [exact Hstored|]. repeat split.
Qed.

End TrackingFacts.

Lemma location_report_frame_witness :
  exists id order order' user',
    orders (Sample.db Status.in_transit (Some 2)) !! id = Some order /\
    orders (snd (updateLocation (Sample.db Status.in_transit (Some 2))
                   "CR000000001" Sample.bob 40.7%float (-73.9)%float
                   Sample.later Sample.later))
      = <[id := order']> (orders (Sample.db Status.in_transit (Some 2))) /\
    users (snd (updateLocation (Sample.db Status.in_transit (Some 2))
                  "CR000000001" Sample.bob 40.7%float (-73.9)%float
                  Sample.later Sample.later))
      = <[User._id Sample.bob := user']>
          (users (Sample.db Status.in_transit (Some 2))) /\
    Order.status order' = Order.status order.
Proof.
  destruct (location_report_frame
              (Sample.db Status.in_transit (Some 2))
              (snd (updateLocation (Sample.db Status.in_transit (Some 2))
                      "CR000000001" Sample.bob 40.7%float (-73.9)%float
                      Sample.later Sample.later))
              "CR000000001" Sample.bob 40.7%float (-73.9)%float
              Sample.later Sample.later "Location updated successfully"
              {| ack_location := {| lat := 40.7%float; lng := (-73.9)%float |};
                 ack_timestamp := Sample.later |})
    as (id & order & order' & user' & H1 & H2 & H3 & H).
  - vm_compute. reflexivity.
  - exists id, order, order', user'. repeat split; try assumption. apply H.
Defined.

(** ** The tracking sequence *)

Section TrackingSequenceFacts.
Context {strings : StringLib}.

Lemma appendsOnly_refl (db : Db) (clk : option Date) : appendsOnly db db clk.
Proof.
  intros id order Hid. exists order, []. rewrite app_nil_r.
  repeat split; [exact Hid|apply sublist_nil_l].
Qed.

Lemma appendsOnly_users (db db1 db' : Db) (clk : option Date) :
  orders db1 = orders db -> appendsOnly db1 db' clk -> appendsOnly db db' clk.
Proof. intros E Hg id order Hid. apply Hg. rewrite E. exact Hid. Qed.

(** Saving a document read from the store with events added at the end of
    its tracking sequence extends that order and touches no other. *)
Lemma appendsOnly_saveOrder (db : Db) (id0 : OrderId) (order0 o' : Order.t)
    (events : list TrackingEvent.t) (clk : option Date) :
  orders db !! id0 = Some order0 ->
  Order.tracking o' = Order.tracking order0 ++ events ->
  map TrackingEvent.timestamp events `sublist_of` option_list clk ->
  appendsOnly db (saveOrder id0 o' db) clk.
Proof.
  intros H0 Htr Hsub id order Hid. unfold saveOrder; cbn.
  destruct (decide (id0 = id)) as [->|Hne].
  - rewrite lookup_insert_eq. rewrite H0 in Hid. injection Hid as <-.
    exists o', events. auto.
  - rewrite lookup_insert_ne by exact Hne.
    exists order, []. rewrite app_nil_r.
    repeat split; [exact Hid|apply sublist_nil_l].
Qed.

Lemma tracking_addTrackingUpdate (s : Status.t) (l : option Coordinates)
    (n : option string) (now : Date) (o : Order.t) :
  Order.tracking (Order.addTrackingUpdate s l n now o) =
    Order.tracking o ++
    [ {| TrackingEvent.status := s; TrackingEvent.timestamp := now;
         TrackingEvent.location := l; TrackingEvent.notes := n |} ].
Proof. reflexivity. Qed.

Local Ltac one_event :=
  eapply appendsOnly_saveOrder;
  [ eassumption
  | first [ apply tracking_addTrackingUpdate | reflexivity ]
  | cbn; reflexivity ].

Local Ltac no_event :=
  eapply appendsOnly_saveOrder;
  [ eassumption | symmetry; apply app_nil_r | apply sublist_nil_l ].

Lemma assignOrder_appendsOnly db id user now :
  appendsOnly db (snd (assignOrder db id user now)) (Some now).
Proof.
  unfold assignOrder, assignChecks.
  destruct (orders db !! id) as [order|] eqn:Hid; [|apply appendsOnly_refl].
  repeat (destruct (bool_decide _) || destruct (negb _));
    cbn [snd]; try apply appendsOnly_refl.
  one_event.
Qed.

Lemma updateStatus_appendsOnly db id user body nowActual now :
  appendsOnly db (snd (updateStatus db id user body nowActual now)) (Some now).
Proof.
  unfold updateStatus.
  destruct (negb (bool_decide (sb_status body ∈ statusAccepted)));
    [apply appendsOnly_refl|].
  destruct (orders db !! id) as [order|] eqn:Hid; [|apply appendsOnly_refl].
  destruct (negb _); [apply appendsOnly_refl|].
  destruct (match validTransitions _ with Some _ => _ | None => _ end);
    [apply appendsOnly_refl|].
  cbn [snd]. eapply appendsOnly_saveOrder; [eassumption| |].
  - rewrite tracking_addTrackingUpdate.
    match goal with
    | |- Order.tracking ?timed ++ _ = _ =>
        replace (Order.tracking timed) with (Order.tracking order)
          by (destruct (sb_status body); reflexivity)
    end.
    reflexivity.
  - cbn. reflexivity.
Qed.

Lemma cancelOrder_appendsOnly db id user reason now :
  appendsOnly db (snd (cancelOrder db id user reason now)) (Some now).
Proof.
  unfold cancelOrder.
  destruct (orders db !! id) as [order|] eqn:Hid; [|apply appendsOnly_refl].
  repeat (destruct (negb _); [apply appendsOnly_refl|]).
  cbn [snd]. one_event.
Qed.

Lemma rateOrder_appendsOnly db id user body :
  appendsOnly db (snd (rateOrder db id user body)) None.
Proof.
  unfold rateOrder.
  destruct (scoreValue _); [|apply appendsOnly_refl].
  destruct (orders db !! id) as [order|] eqn:Hid; [|apply appendsOnly_refl].
  destruct (bool_decide _); [apply appendsOnly_refl|].
  destruct (isCustomerOf order user).
  - destruct (ratingSet _); [apply appendsOnly_refl|].
    destruct (Order.courier order) as [c|].
    + destruct (_ ≫= _); [|apply appendsOnly_refl].
      cbn [snd]. eapply appendsOnly_users; [|no_event]. reflexivity.
    + cbn [snd]. no_event.
  - destruct (isCourierOf order user); [|apply appendsOnly_refl].
    destruct (ratingSet _); [apply appendsOnly_refl|].
    destruct (_ ≫= _); [|apply appendsOnly_refl].
    cbn [snd]. eapply appendsOnly_users; [|no_event]. reflexivity.
Qed.

Lemma updateLocation_appendsOnly db n user la lo nowSaved now :
  appendsOnly db (snd (updateLocation db n user la lo nowSaved now)) (Some now).
Proof.
  unfold updateLocation.
  destruct (negb _); [apply appendsOnly_refl|].
  destruct (findOne db n) as [[id order]|] eqn:Hf; [|apply appendsOnly_refl].
  apply findOne_Some in Hf as [Hid _].
  destruct (negb _); [apply appendsOnly_refl|].
  cbn [snd]. eapply appendsOnly_users; [|one_event]. reflexivity.
Qed.

Lemma addCustomUpdate_appendsOnly db n user notes location now :
  appendsOnly db (snd (addCustomUpdate db n user notes location now)) (Some now).
Proof.
  unfold addCustomUpdate.
  destruct (_ || _); [apply appendsOnly_refl|].
  destruct (findOne db n) as [[id order]|] eqn:Hf; [|apply appendsOnly_refl].
  apply findOne_Some in Hf as [Hid _].
  destruct (negb _); [apply appendsOnly_refl|].
  cbn [snd]. one_event.
Qed.

(** The proof upload stores nothing, whoever asks. *)
Lemma uploadProof_stores_nothing db n user imageUrl isURL description :
  snd (uploadProof db n user imageUrl isURL description) = db.
Proof.
  unfold uploadProof.
  destruct (negb isURL); [reflexivity|].
  destruct (findOne db n) as [[id order]|]; [|reflexivity].
  destruct (negb _); reflexivity.
Qed.

Lemma uploadProof_appendsOnly db n user imageUrl isURL description :
  appendsOnly db (snd (uploadProof db n user imageUrl isURL description)) None.
Proof. rewrite uploadProof_stores_nothing. apply appendsOnly_refl. Qed.

Lemma exec_appendsOnly (op : Op) (db : Db) :
  appendsOnly db (exec op db) (eventClock op).
Proof.
  destruct op; cbn [exec eventClock];
    auto using assignOrder_appendsOnly, updateStatus_appendsOnly,
      cancelOrder_appendsOnly, rateOrder_appendsOnly,
      updateLocation_appendsOnly, addCustomUpdate_appendsOnly,
      uploadProof_appendsOnly.
Qed.

Lemma execAll_appends (ops : list Op) :
  forall (db : Db) (id : OrderId) (order : Order.t),
    orders db !! id = Some order ->
    exists order' events,
      orders (execAll ops db) !! id = Some order' /\
      Order.tracking order' = Order.tracking order ++ events /\
      map TrackingEvent.timestamp events `sublist_of` omap eventClock ops.
Proof.
  induction ops as [|op ops IH]; intros db id order Hid.
  - exists order, []. rewrite app_nil_r. repeat split; [exact Hid|constructor].
  - destruct (exec_appendsOnly op db id order Hid)
      as (order1 & ev1 & Hid1 & Htr1 & Hsub1).
    destruct (IH (exec op db) id order1 Hid1)
      as (order' & ev2 & Hid' & Htr' & Hsub2).
    exists order', (ev1 ++ ev2). split; [exact Hid'|]. split.
    + rewrite Htr', Htr1. symmetry. apply app_assoc.
    + rewrite map_app.
      replace (omap eventClock (op :: ops))
        with (option_list (eventClock op) ++ omap eventClock ops)
        by (cbn; destruct (eventClock op); reflexivity).
      apply sublist_app; assumption.
Qed.

Lemma StronglySorted_sublist {A} (R : relation A) (l1 l2 : list A) :
  l1 `sublist_of` l2 -> StronglySorted R l2 -> StronglySorted R l1.
Proof.
  induction 1 as [|x l1 l2 Hsub IH|x l1 l2 Hsub IH]; intros Hs.
  - constructor.
  - apply StronglySorted_inv in Hs as [Hs Hall]. constructor; [auto|].
    rewrite Forall_forall in Hall |- *. intros y Hy.
    apply Hall. eapply elem_of_sublist; eassumption.
  - apply StronglySorted_inv in Hs as [Hs _]. auto.
Qed.

Lemma nonDecreasing_sublist (l1 l2 : list Date) :
  l1 `sublist_of` l2 -> nonDecreasing l2 -> nonDecreasing l1.
Proof.
  unfold nonDecreasing. intros Hsub Hs.
  apply StronglySorted_Sorted. eapply StronglySorted_sublist; [exact Hsub|].
  apply Sorted_StronglySorted; [|exact Hs].
  intros x y z. apply Z.le_trans.
Qed.

(** C8 (as the source provides it): along every sequence of operations
    (claims, status updates, cancellations, ratings, location reports,
    courier notes, proof uploads) a stored order stays stored and its
    tracking sequence is the one it had with events added at the end:
    nothing in it is changed, removed or moved.  The timestamps are the clock
    readings of the handlers: when these readings continue the order's
    timestamps without decreasing, the timestamps of the resulting sequence
    are non-decreasing. *)
Theorem tracking_only_grows
    (ops : list Op) (db : Db) (id : OrderId) (order : Order.t) :
  orders db !! id = Some order ->
  exists order' appended,
    orders (execAll ops db) !! id = Some order' /\
    Order.tracking order' = Order.tracking order ++ appended /\
    (nonDecreasing (timestamps order ++ omap eventClock ops) ->
     nonDecreasing (timestamps order')).
Proof.
  intros Hid.
  destruct (execAll_appends ops db id order Hid)
    as (order' & events & Hid' & Htr & Hsub).
  exists order', events. split; [exact Hid'|]. split; [exact Htr|].
  apply nonDecreasing_sublist. unfold timestamps. rewrite Htr, map_app.
  apply sublist_app; [reflexivity|exact Hsub].
Qed.

End TrackingSequenceFacts.

(** C8, refuted as stated: Bob claims the pending sample order at one clock
    reading and reports a position at a reading one second earlier (the
    clock was set back in between); the stored timestamps decrease. *)
Lemma clock_set_back_breaks_timestamp_order :
  let ops :=
    [ OpAssign 7 Sample.bob 1700000060000%Z;
      OpLocation "CR000000001" Sample.bob 40.6%float (-73.8)%float
        1700000059000%Z 1700000059000%Z ] in
  (timestamps <$> orders (execAll ops (Sample.db Status.pending None)) !! 7%nat)
    = Some [1700000000000; 1700000060000; 1700000059000]%Z /\
  ~ nonDecreasing [1700000000000; 1700000060000; 1700000059000]%Z.
Proof.
  cbv zeta. split; [vm_compute; reflexivity|].
  unfold nonDecreasing. intros Hs.
  apply Sorted_inv in Hs as [Hs _]. apply Sorted_inv in Hs as [_ Hh].
  apply HdRel_inv in Hh. lia.
Qed.

Lemma tracking_only_grows_witness :
  exists order' appended,
    orders (execAll Sample.ops (Sample.db Status.pending None)) !! 7%nat
      = Some order' /\
    Order.tracking order' =
      Order.tracking (Sample.order Status.pending None) ++ appended /\
    nonDecreasing (timestamps order').
Proof.
  destruct (tracking_only_grows Sample.ops (Sample.db Status.pending None) 7
              (Sample.order Status.pending None) eq_refl)
    as (order' & appended & Hid & Htr & Hsorted).
  exists order', appended. split; [exact Hid|]. split; [exact Htr|].
  apply Hsorted. unfold nonDecreasing. vm_compute.
  repeat constructor; discriminate.
Defined.

(** ** Claim requests in flight *)

Section ClaimRaceFacts.

(** On the document a claim was checked against, the write of the modified
    paths stores the document as modified in memory. *)
Lemma saveClaim_unchanged (order order' : Order.t) (user : User.t) (now : Date)
    (m : string) :
  assignChecks order user now = Ok m order' ->
  saveClaim user now order = order'.
Proof.
  unfold assignChecks.
  repeat (destruct (bool_decide _) || destruct (negb _)); try discriminate.
  intros [= _ <-]. reflexivity.
Qed.

(** Two consecutive steps of a request that has not started are one run of
    the handler. *)
Lemma two_steps_are_assignOrder (id : OrderId) (rqs : list ClaimRequest)
    (i : nat) (rq : ClaimRequest) (sts : list InFlight) (db : Db) :
  rqs !! i = Some rq ->
  sts !! i = Some NotStarted ->
  runStep id rqs i (runStep id rqs i (sts, db)) =
    (<[i := Answered (fst (assignOrder db id (claimant rq) (clock rq)))]> sts,
     snd (assignOrder db id (claimant rq) (clock rq))).
Proof.
  intros Hrq Hst. pose proof (lookup_lt_Some _ _ _ Hst) as Hlt.
  unfold runStep at 2. cbn [fst snd]. rewrite Hrq, Hst.
  unfold claimStep at 1, assignOrder.
  destruct (orders db !! id) as [order|] eqn:Hid;
    [destruct (assignChecks order (claimant rq) (clock rq)) as [m o'|c m] eqn:Hc|];
    unfold runStep; cbn [fst snd]; rewrite Hrq;
    rewrite list_lookup_insert_eq by exact Hlt; cbn [claimStep];
    rewrite ?Hid, ?(saveClaim_unchanged _ _ _ _ _ Hc);
    rewrite list_insert_insert_eq; reflexivity.
Qed.

Lemma serial_run_is_serveAll (id : OrderId) (rest : list ClaimRequest) :
  forall (pre : list ClaimRequest) (done : list (Response Order.t)) (db : Db),
    length done = length pre ->
    foldl (fun cfg i => runStep id (pre ++ rest) i cfg)
      (map Answered done ++ replicate (length rest) NotStarted, db)
      (flat_map (fun i => [i; i]) (seq (length pre) (length rest)))
    = (map Answered (done ++ fst (serveAll id rest db)),
       snd (serveAll id rest db)).
Proof.
  induction rest as [|rq rest IH]; intros pre done db Hlen.
  - cbn. rewrite !app_nil_r. reflexivity.
  - cbn [length seq flat_map app foldl].
    rewrite (two_steps_are_assignOrder id (pre ++ rq :: rest) (length pre) rq).
    + cbn [serveAll].
      destruct (assignOrder db id (claimant rq) (clock rq)) as [r db1] eqn:Hr.
      destruct (serveAll id rest db1) as [rs db2] eqn:Hrs. cbn [fst snd].
      replace (<[length pre := Answered r]>
                 (map Answered done ++ replicate (S (length rest)) NotStarted))
        with (map Answered (done ++ [r]) ++ replicate (length rest) NotStarted).
      2:{ rewrite map_app, <- app_assoc. cbn.
          replace (length pre) with (length (map Answered done) + 0)%nat
            by (rewrite length_map; lia).
          rewrite insert_app_r. reflexivity. }
      specialize (IH (pre ++ [rq]) (done ++ [r]) db1).
      rewrite !length_app, <- app_assoc in IH. cbn in IH.
      replace (length pre + 1)%nat with (S (length pre)) in IH by lia.
      rewrite IH by lia. rewrite Hrs. cbn [fst snd].
      rewrite <- app_assoc. reflexivity.
    + rewrite lookup_app_r by lia. rewrite Nat.sub_diag. reflexivity.
    + rewrite lookup_app_r by (rewrite length_map; lia).
      rewrite length_map, Hlen, Nat.sub_diag. reflexivity.
Qed.

(** Once the stored order is no longer pending, every later claim is
    refused and the store stays as it is. *)
Lemma serveAll_not_pending (id : OrderId) (rqs : list ClaimRequest) (db : Db)
    (order : Order.t) :
  orders db !! id = Some order ->
  Order.status order <> Status.pending ->
  serveAll id rqs db =
    (map (fun _ => Error 400 "Order is not available for assignment") rqs, db).
Proof.
  intros Hid Hs. induction rqs as [|rq rqs IH]; [reflexivity|].
  cbn [serveAll]. unfold assignOrder, assignChecks. rewrite Hid.
  rewrite (bool_decide_eq_true_2 _ Hs). rewrite IH. reflexivity.
Qed.

Lemma lookup_map_const {A B} (c : B) (l : list A) (j : nat) (x : B) :
  map (fun _ => c) l !! j = Some x -> x = c.
Proof.
  revert j. induction l as [|a l IH]; intros [|j] Hj; try discriminate Hj.
  - injection Hj as <-. reflexivity.
  - exact (IH j Hj).
Qed.

(** C1 (as the source provides it): for one pending order with no courier,
    when the claim attempts of N available couriers run one after another
    (each reads, checks and saves before the next one reads), exactly one
    attempt succeeds, the first, storing that courier and the status
    assigned, and every other attempt is answered 400, the order not being
    available for assignment. *)
Theorem serial_claims_have_one_winner
    (db : Db) (id : OrderId) (order : Order.t) (rq : ClaimRequest)
    (rqs : list ClaimRequest) :
  orders db !! id = Some order ->
  Order.status order = Status.pending ->
  Order.courier order = None ->
  Forall (fun r => User.isAvailable (claimant r) = true) (rq :: rqs) ->
  exactlyOneClaim
    (fst (runSchedule id (rq :: rqs) (serialSchedule (length (rq :: rqs))) db)) /\
  exists m order',
    fst (runSchedule id (rq :: rqs) (serialSchedule (length (rq :: rqs))) db) =
      Answered (Ok m order') ::
      map (fun _ => Answered (Error 400 "Order is not available for assignment"))
          rqs /\
    orders (snd (runSchedule id (rq :: rqs)
                   (serialSchedule (length (rq :: rqs))) db)) !! id
      = Some order' /\
    Order.courier order' = Some (User._id (claimant rq)) /\
    Order.status order' = Status.assigned.
Proof.
  intros Hid Hs Hc Hav. apply Forall_cons in Hav as [Hav _].
  unfold runSchedule, serialSchedule.
  pose proof (serial_run_is_serveAll id (rq :: rqs) [] [] db eq_refl) as Hrun.
  cbn [app length map] in Hrun. cbn [length]. rewrite Hrun. clear Hrun.
  cbn [serveAll]. unfold assignOrder, assignChecks.
  rewrite Hid, Hs, Hc, Hav. cbn [negb].
  rewrite bool_decide_eq_false_2 by (intros E; now apply E).
  rewrite bool_decide_eq_false_2 by (intros [? E]; discriminate E).
  match goal with
  | |- context [saveOrder id ?o db] => set (order' := o)
  end.
  rewrite (serveAll_not_pending id rqs (saveOrder id order' db) order');
    [|apply lookup_insert_eq|discriminate].
  cbn [fst snd app map]. rewrite map_map.
  split.
  - exists 0%nat. eexists. split; [reflexivity|]. split; [reflexivity|].
    intros [|j] st' Hj Hst'; [contradiction|]. cbn in Hst'.
    apply lookup_map_const in Hst' as ->. reflexivity.
  - do 2 eexists. split; [reflexivity|]. split; [apply lookup_insert_eq|].
    split; reflexivity.
Qed.

(** C1, refuted as stated: Bob and Carol, both available, claim the same
    pending order; both read it before either saves, and both attempts are
    answered 200.  The store ends with the courier of the later save. *)
Lemma interleaved_claims_both_succeed :
  let rqs :=
    [ {| claimant := Sample.bob; clock := Sample.later |};
      {| claimant := Sample.carol; clock := Sample.later |} ] in
  let out := runSchedule 7 rqs [0; 1; 0; 1]%nat (Sample.db Status.pending None) in
  Order.status (Sample.order Status.pending None) = Status.pending /\
  Order.courier (Sample.order Status.pending None) = None /\
  map succeeded (fst out) = [true; true] /\
  (Order.courier <$> orders (snd out) !! 7%nat) = Some (Some 3%nat) /\
  ~ exactlyOneClaim (fst out).
Proof.
  cbv zeta. repeat split; try (vm_compute; reflexivity).
  intros (i & st & Hi & Hsucc & Hothers).
  destruct i as [|[|i]].
  - specialize (Hothers 1%nat _ ltac:(discriminate) eq_refl).
    vm_compute in Hothers. discriminate Hothers.
  - specialize (Hothers 0%nat _ ltac:(discriminate) eq_refl).
    vm_compute in Hothers. discriminate Hothers.
  - vm_compute in Hi. discriminate Hi.
Qed.

End ClaimRaceFacts.

(** ** Number arithmetic *)

Section NumberFacts.
Local Open Scope Z_scope.

Lemma sub_self (x : Number) : finite x = true -> (x - x)%float = 0%float.
Proof.
  intros Hf. apply Prim2SF_inj. rewrite sub_spec. unfold finite in Hf.
  destruct (Prim2SF x) as [s|s| |s m e]; try discriminate Hf.
  - destruct s; reflexivity.
  - unfold SF64sub, SFsub. rewrite Z.sub_diag. reflexivity.
Qed.

Lemma digits2_pos_size (p : positive) : digits2_pos p = Pos.size p.
Proof. induction p; cbn; congruence. Qed.

Lemma size_le_of_lt (p : positive) (a : Z) :
  0 <= a -> Z.pos p < 2 ^ a -> Z.pos (Pos.size p) <= a.
Proof.
  intros Ha Hp.
  pose proof (Pos.size_le p) as Hle.
  assert (H2 : 2 ^ Z.pos (Pos.size p) <= 2 * Z.pos p).
  { rewrite <- Pos2Z.inj_pow. change 2 with (Z.pos 2) at 1.
    rewrite <- Pos2Z.inj_mul. apply Pos2Z.pos_le_pos. exact Hle. }
  destruct (Z_le_gt_dec (Z.pos (Pos.size p)) a) as [|Hgt]; [assumption|].
  exfalso.
  assert (2 ^ (a + 1) <= 2 ^ Z.pos (Pos.size p)) by (apply Z.pow_le_mono_r; lia).
  rewrite Z.pow_add_r in H by lia. lia.
Qed.

Lemma lt_pow_size (p : positive) : Z.pos p < 2 ^ Z.pos (Pos.size p).
Proof.
  rewrite <- Pos2Z.inj_pow. apply Pos2Z.pos_lt_pos. apply Pos.size_gt.
Qed.

(* shifting right keeps a mantissa within [0, M] *)
Lemma shr_1_bound (M : Z) (mrs : shr_record) :
  0 <= shr_m mrs <= M -> 0 <= shr_m (shr_1 mrs) <= M.
Proof.
  destruct mrs as [m r s]. cbn [shr_m]. intros Hm.
  destruct m as [|[p|p|]|p]; cbn; lia.
Qed.

Lemma iter_shr_1_bound (M : Z) (n : positive) :
  forall mrs, 0 <= shr_m mrs <= M -> 0 <= shr_m (SpecFloat.iter_pos shr_1 n mrs) <= M.
Proof.
  induction n as [n IH|n IH|]; intros mrs Hm; cbn.
  - apply IH, IH, shr_1_bound, Hm.
  - apply IH, IH, Hm.
  - apply shr_1_bound, Hm.
Qed.

Lemma shr_fexp_bound (m e : Z) (l : location) (M : Z) :
  0 <= m <= M ->
  0 <= shr_m (fst (shr_fexp prec emax m e l)) <= M /\
  snd (shr_fexp prec emax m e l) = Z.max e (fexp prec emax (Zdigits2 m + e)).
Proof.
  intros Hm. unfold shr_fexp, shr.
  assert (Hrec : 0 <= shr_m (shr_record_of_loc m l) <= M)
    by (destruct l as [|[]]; cbn; exact Hm).
  destruct (fexp prec emax (Zdigits2 m + e) - e) as [|p|p] eqn:Hd; cbn [fst snd].
  - split; [exact Hrec|lia].
  - split; [apply iter_shr_1_bound, Hrec|lia].
  - split; [exact Hrec|lia].
Qed.

Lemma Zdigits2_le (m a : Z) : 0 <= a -> 0 <= m < 2 ^ a -> Zdigits2 m <= a.
Proof.
  intros Ha Hm. destruct m as [|p|p]; cbn; [lia| |lia].
  rewrite digits2_pos_size. apply size_le_of_lt; lia.
Qed.

(** The product of two binary64 values of magnitude at most 1 does not
    overflow. *)
Lemma SFmul_small (s1 s2 : bool) (m1 m2 : positive) (e1 e2 : Z) :
  Z.pos (digits2_pos m1) <= 53 -> Z.pos (digits2_pos m2) <= 53 ->
  e1 <= -52 -> e2 <= -52 ->
  SF64mul (S754_finite s1 m1 e1) (S754_finite s2 m2 e2) = S754_zero (xorb s1 s2)
  \/ exists m e,
       SF64mul (S754_finite s1 m1 e1) (S754_finite s2 m2 e2) =
         S754_finite (xorb s1 s2) m e.
Proof.
  intros Hd1 Hd2 He1 He2. unfold SF64mul, SFmul, binary_round_aux.
  rewrite !digits2_pos_size in *.
  assert (Hm : 0 <= Z.pos (m1 * m2) <= 2 ^ 106 - 1).
  { pose proof (lt_pow_size m1). pose proof (lt_pow_size m2).
    assert (Z.pos m1 < 2 ^ 53) by
      (eapply Z.lt_le_trans; [eassumption|apply Z.pow_le_mono_r; lia]).
    assert (Z.pos m2 < 2 ^ 53) by
      (eapply Z.lt_le_trans; [eassumption|apply Z.pow_le_mono_r; lia]).
    rewrite Pos2Z.inj_mul.
    change (2 ^ 106) with (2 ^ 53 * 2 ^ 53). nia. }
  destruct (shr_fexp_bound (Z.pos (m1 * m2)) (e1 + e2) loc_Exact _ Hm)
    as [Hb1 He'].
  destruct (shr_fexp prec emax (Z.pos (m1 * m2)) (e1 + e2) loc_Exact)
    as [mrs' e'] eqn:Hs1. cbn [fst snd] in Hb1, He'.
  set (mr := round_nearest_even (shr_m mrs') (loc_of_shr_record mrs')).
  assert (Hmr : 0 <= mr <= 2 ^ 106).
  { unfold mr, round_nearest_even.
    destruct (loc_of_shr_record mrs') as [|[]]; try lia.
    destruct (Z.even (shr_m mrs')); lia. }
  destruct (shr_fexp_bound mr e' loc_Exact _ Hmr) as [Hb2 He''].
  destruct (shr_fexp prec emax mr e' loc_Exact) as [mrs'' e''] eqn:Hs2.
  cbn [fst snd] in Hb2, He''.
  assert (Hd : Zdigits2 (Z.pos (m1 * m2)) <= 106)
    by (apply Zdigits2_le; lia).
  assert (Hdr : Zdigits2 mr <= 107).
  { apply Zdigits2_le; [lia|]. change (2 ^ 107) with (2 * 2 ^ 106). lia. }
  assert (He : e'' <= emax - prec).
  { subst e'' e'. unfold fexp, emin, prec, emax in *. lia. }
  destruct (shr_m mrs'') as [|p|p] eqn:Hm''.
  - left. reflexivity.
  - right. apply Z.leb_le in He. rewrite He. eauto.
  - lia.
Qed.

Lemma small_shape (c : Number) :
  (abs c <=? 1)%float = true ->
  (exists s, Prim2SF c = S754_zero s) \/
  (exists s m e,
     Prim2SF c = S754_finite s m e /\ Z.pos (digits2_pos m) <= 53 /\ e <= -52).
Proof.
  rewrite leb_spec, abs_spec. intros Hle.
  pose proof (Prim2SF_valid c) as Hv.
  destruct (Prim2SF c) as [s|s| |s m e].
  - left. eauto.
  - destruct s; discriminate Hle.
  - discriminate Hle.
  - right. exists s, m, e. split; [reflexivity|].
    cbn [valid_binary] in Hv. unfold bounded, canonical_mantissa in Hv.
    apply andb_prop in Hv as [Hc _]. apply Z.eqb_eq in Hc.
    unfold fexp, emin, prec, emax in Hc. split; [lia|].
    change (Prim2SF 1) with (S754_finite false 4503599627370496 (-52)) in Hle.
    unfold SFleb, SFabs, SFcompare in Hle.
    destruct (Z.compare_spec e (-52)); [lia|lia|discriminate Hle].
Qed.

Lemma zero_absorbs (sf : spec_float) :
  match sf with S754_zero _ | S754_finite _ _ _ => True | _ => False end ->
  SF64add (S754_zero false)
    (SF64mul (SF64mul sf (S754_zero false)) (S754_zero false))
  = S754_zero false.
Proof. destruct sf as [[]|[]| |[] m e]; intros []; reflexivity. Qed.

(** With both factors of magnitude at most 1, the second summand of the
    haversine term vanishes when the longitudes agree. *)
Lemma small_product_times_zero (c1 c2 : Number) :
  (abs c1 <=? 1)%float = true ->
  (abs c2 <=? 1)%float = true ->
  (0 + c1 * c2 * 0 * 0)%float = 0%float.
Proof.
  intros H1 H2. apply Prim2SF_inj.
  rewrite add_spec, mul_spec, mul_spec, mul_spec.
  change (Prim2SF 0) with (S754_zero false).
  apply zero_absorbs.
  destruct (small_shape c1 H1) as [[s1 ->]|(s1 & m1 & e1 & -> & Hd1 & He1)];
    destruct (small_shape c2 H2) as [[s2 ->]|(s2 & m2 & e2 & -> & Hd2 & He2)];
    try exact I.
  destruct (SFmul_small s1 s2 m1 m2 e1 e2 Hd1 Hd2 He1 He2) as [->|(m & e & ->)];
    exact I.
Qed.

Lemma le_pow_size (p : positive) : 2 ^ Z.pos (Pos.size p) <= 2 * Z.pos p.
Proof.
  rewrite <- Pos2Z.inj_pow. change (2 * Z.pos p) with (Z.pos (2 * p)).
  apply Pos2Z.pos_le_pos. apply Pos.size_le.
Qed.

(* the number of binary digits is the k with 2^(k-1) <= p < 2^k *)
Lemma digits_unique (p : positive) (k : Z) :
  2 ^ (k - 1) <= Z.pos p < 2 ^ k -> Z.pos (digits2_pos p) = k.
Proof.
  intros [Hlo Hhi]. rewrite digits2_pos_size.
  pose proof (lt_pow_size p) as Hs. pose proof (le_pow_size p) as Hl.
  assert (Hk : 0 < k).
  { destruct (Z_lt_le_dec 0 k); [assumption|].
    rewrite (Z.pow_neg_r 2 (k - 1)) in Hlo by lia.
    assert (2 ^ k <= 1).
    { destruct (Z.eq_dec k 0) as [->|]; [cbn; lia|].
      rewrite Z.pow_neg_r by lia. lia. }
    lia. }
  set (d := Z.pos (Pos.size p)) in *.
  assert (Hd : 0 < d) by (unfold d; lia).
  destruct (Z.lt_trichotomy d k) as [Hlt|[E|Hgt]]; [|exact E|].
  - exfalso. assert (2 ^ d <= 2 ^ (k - 1)) by (apply Z.pow_le_mono_r; lia). lia.
  - exfalso. assert (2 ^ (k + 1) <= 2 ^ d) by (apply Z.pow_le_mono_r; lia).
    rewrite Z.pow_add_r in H by lia. lia.
Qed.

Lemma digits_bounds (p : positive) :
  2 ^ (Z.pos (digits2_pos p) - 1) <= Z.pos p < 2 ^ Z.pos (digits2_pos p).
Proof.
  rewrite digits2_pos_size. split; [|apply lt_pow_size].
  pose proof (le_pow_size p) as Hl.
  replace (Z.pos (Pos.size p)) with (Z.pos (Pos.size p) - 1 + 1) in Hl by lia.
  rewrite Z.pow_add_r in Hl by lia. lia.
Qed.

Lemma digits_mul_pow (m m' : positive) (n : Z) :
  0 <= n -> Z.pos m' = Z.pos m * 2 ^ n ->
  Z.pos (digits2_pos m') = Z.pos (digits2_pos m) + n.
Proof.
  intros Hn E. apply digits_unique. rewrite E.
  pose proof (digits_bounds m) as [Hlo Hhi].
  replace (Z.pos (digits2_pos m) + n - 1) with (Z.pos (digits2_pos m) - 1 + n) by lia.
  rewrite !Z.pow_add_r by lia.
  assert (0 < 2 ^ n) by (apply Z.pow_pos_nonneg; lia).
  nia.
Qed.

Lemma iter_xO (d m : positive) :
  Z.pos (Pos.iter xO m d) = Z.pos m * 2 ^ Z.pos d.
Proof.
  induction d as [|d IH] using Pos.peano_ind.
  - cbn. lia.
  - rewrite Pos.iter_succ, Pos2Z.inj_succ, Z.pow_succ_r by lia.
    rewrite Pos2Z.inj_xO, IH. lia.
Qed.

Lemma iter_pos_iter {A} (f : A -> A) (n : positive) (x : A) :
  SpecFloat.iter_pos f n x = Pos.iter f x n.
Proof.
  revert x. induction n as [n IH|n IH|]; intros x; cbn.
  - rewrite !IH. rewrite <- !Pos.iter_swap. reflexivity.
  - rewrite !IH. reflexivity.
  - reflexivity.
Qed.

Lemma shr_exact (d m : positive) :
  SpecFloat.iter_pos shr_1 d
    {| shr_m := Z.pos (Pos.iter xO m d); shr_r := false; shr_s := false |}
  = {| shr_m := Z.pos m; shr_r := false; shr_s := false |}.
Proof.
  rewrite iter_pos_iter.
  induction d as [|d IH] using Pos.peano_ind.
  - reflexivity.
  - rewrite Pos.iter_succ_r.
    rewrite (Pos.iter_succ d _ xO). cbn [shr_1 orb]. exact IH.
Qed.

(** Rounding a mantissa that carries a representable value with digits to
    spare gives back the canonical representation. *)
Lemma binary_round_aux_exact (s : bool) (m m0 : positive) (e e0 : Z) :
  bounded prec emax m0 e0 = true ->
  e <= e0 ->
  Z.pos m = Z.pos m0 * 2 ^ (e0 - e) ->
  binary_round_aux prec emax s (Z.pos m) e loc_Exact = S754_finite s m0 e0.
Proof.
  intros Hb He Hm. unfold bounded, canonical_mantissa in Hb.
  apply andb_prop in Hb as [Hc Hmax]. apply Z.eqb_eq in Hc.
  pose proof (digits_mul_pow m0 m (e0 - e) ltac:(lia) Hm) as Hd.
  unfold binary_round_aux, shr_fexp. cbn [Zdigits2 shr_record_of_loc].
  replace (Z.pos (digits2_pos m) + e) with (Z.pos (digits2_pos m0) + e0) by lia.
  rewrite Hc.
  assert (Hshr : shr {| shr_m := Z.pos m; shr_r := false; shr_s := false |} e (e0 - e)
                 = ({| shr_m := Z.pos m0; shr_r := false; shr_s := false |}, e0)).
  { unfold shr. destruct (e0 - e) as [|d|d] eqn:Ed; [| |lia].
    - rewrite Z.pow_0_r, Z.mul_1_r in Hm. injection Hm as ->.
      f_equal. lia.
    - rewrite <- iter_xO in Hm. injection Hm as ->.
      rewrite shr_exact. f_equal. lia. }
  rewrite Hshr. cbn [shr_m loc_of_shr_record round_nearest_even Zdigits2].
  rewrite Hc, Z.sub_diag. cbn [shr shr_m]. rewrite Hmax. reflexivity.
Qed.

Lemma binary_round_exact (s : bool) (m m0 : positive) (e e0 : Z) :
  bounded prec emax m0 e0 = true ->
  (e <= e0 /\ Z.pos m = Z.pos m0 * 2 ^ (e0 - e)) \/
  (e0 <= e /\ Z.pos m0 = Z.pos m * 2 ^ (e - e0)) ->
  binary_round prec emax s m e = S754_finite s m0 e0.
Proof.
  intros Hb Hv. pose proof Hb as Hb'.
  unfold bounded, canonical_mantissa in Hb'.
  apply andb_prop in Hb' as [Hc _]. apply Z.eqb_eq in Hc.
  unfold binary_round, shl_align.
  destruct Hv as [[He Hm]|[He Hm]].
  - pose proof (digits_mul_pow m0 m (e0 - e) ltac:(lia) Hm) as Hd.
    replace (Z.pos (digits2_pos m) + e) with (Z.pos (digits2_pos m0) + e0) by lia.
    rewrite Hc. destruct (e0 - e) as [|d|d] eqn:Ed; [| |lia].
    + apply binary_round_aux_exact; [exact Hb|lia|]. rewrite Ed. exact Hm.
    + apply binary_round_aux_exact; [exact Hb|lia|]. rewrite Ed. exact Hm.
  - pose proof (digits_mul_pow m m0 (e - e0) ltac:(lia) Hm) as Hd.
    replace (Z.pos (digits2_pos m) + e) with (Z.pos (digits2_pos m0) + e0) by lia.
    rewrite Hc. destruct (e0 - e) as [|d|d] eqn:Ed.
    + assert (e = e0) by lia. subst e. rewrite Z.sub_diag, Z.pow_0_r, Z.mul_1_r in Hm.
      injection Hm as ->.
      apply binary_round_aux_exact; [exact Hb|lia|]. rewrite Z.sub_diag. cbn. lia.
    + lia.
    + assert (Ee : e - e0 = Z.pos d) by lia. rewrite Ee, <- iter_xO in Hm.
      injection Hm as ->.
      apply binary_round_aux_exact; [exact Hb|lia|]. rewrite Z.sub_diag. cbn. lia.
Qed.

Lemma digits_le_53 (p : positive) : Z.pos p < 2 ^ 53 -> Z.pos (digits2_pos p) <= 53.
Proof.
  intros Hp. pose proof (digits_bounds p) as [Hlo _].
  destruct (Z_le_gt_dec (Z.pos (digits2_pos p)) 53) as [|Hgt]; [assumption|].
  exfalso.
  assert (2 ^ 53 <= 2 ^ (Z.pos (digits2_pos p) - 1)) by (apply Z.pow_le_mono_r; lia).
  lia.
Qed.

(** What [bounded] says of a mantissa and its exponent. *)
Lemma bounded_inv (m : positive) (e : Z) :
  bounded prec emax m e = true ->
  -1074 <= e <= 971 /\ Z.pos (digits2_pos m) <= 53 /\
  (e = -1074 \/ Z.pos (digits2_pos m) = 53).
Proof.
  unfold bounded, canonical_mantissa, fexp, emin, prec, emax.
  intros Hb. apply andb_prop in Hb as [Hc Hmax].
  apply Z.eqb_eq in Hc. apply Z.leb_le in Hmax. lia.
Qed.

Lemma bounded_intro (m : positive) (e : Z) :
  -1074 <= e <= 971 -> Z.pos (digits2_pos m) = 53 ->
  bounded prec emax m e = true.
Proof.
  unfold bounded, canonical_mantissa, fexp, emin, prec, emax.
  intros He Hd. apply andb_true_intro. split.
  - apply Z.eqb_eq. lia.
  - apply Z.leb_le. lia.
Qed.

(** The Number of a whole number below 2^53 is that number. *)
Lemma of_Z_pos (p : positive) :
  Z.pos p < 2 ^ 53 ->
  exists m0 e0,
    Prim2SF (of_Z (Z.pos p)) = S754_finite false m0 e0 /\
    bounded prec emax m0 e0 = true /\
    -52 <= e0 <= 0 /\
    Z.pos m0 = Z.pos p * 2 ^ (- e0).
Proof.
  intros Hp. pose proof (digits_le_53 p Hp) as Hd.
  set (k := 53 - Z.pos (digits2_pos p)).
  assert (Hk : 0 <= k <= 52) by (unfold k; lia).
  assert (Hpos : 0 < Z.pos p * 2 ^ k).
  { apply Z.mul_pos_pos; [lia|]. apply Z.pow_pos_nonneg; lia. }
  destruct (Z.pos p * 2 ^ k) as [|m0|] eqn:Em0; try lia.
  assert (Hd0 : Z.pos (digits2_pos m0) = 53).
  { rewrite (digits_mul_pow p m0 k); [unfold k; lia|lia|]. rewrite Em0. reflexivity. }
  assert (Hb : bounded prec emax m0 (- k) = true) by (apply bounded_intro; lia).
  exists m0, (- k). split; [|split; [exact Hb|split; [lia|]]].
  - unfold of_Z. rewrite Prim2SF_SF2Prim.
    + cbn [binary_normalize]. apply binary_round_exact; [exact Hb|].
      right. split; [lia|]. replace (0 - - k) with k by lia. congruence.
    + cbn [binary_normalize].
      rewrite (binary_round_exact false p m0 0 (- k) Hb).
      * exact Hb.
      * right. split; [lia|]. replace (0 - - k) with k by lia. congruence.
  - replace (- - k) with k by lia. congruence.
Qed.

Lemma pow_split (a b : Z) : 0 <= a -> 0 <= b -> 2 ^ (a + b) = 2 ^ a * 2 ^ b.
Proof. intros. apply Z.pow_add_r; assumption. Qed.

Lemma isWhole_of_Z_pos (p : positive) :
  Z.pos p < 2 ^ 53 -> isWhole (of_Z (Z.pos p)) (Z.pos p).
Proof.
  intros Hp. destruct (of_Z_pos p Hp) as (m0 & e0 & E & Hb & He & Hm).
  unfold isWhole, finite, units. rewrite E. split; [reflexivity|].
  rewrite Hm. rewrite <- Z.mul_assoc, <- pow_split by lia.
  f_equal. f_equal. lia.
Qed.

Lemma isWhole_of_Z_0 : isWhole (of_Z 0) 0.
Proof. split; reflexivity. Qed.

Lemma isWhole_of_Z (z : Z) : 0 <= z < 2 ^ 53 -> isWhole (of_Z z) z.
Proof.
  intros Hz. destruct z as [|p|p]; [apply isWhole_of_Z_0| |lia].
  apply isWhole_of_Z_pos. lia.
Qed.

(** A Number that is a positive whole number is normal and positive. *)
Lemma isWhole_shape (x : Number) (a : Z) :
  isWhole x a -> 0 < a ->
  exists m e,
    Prim2SF x = S754_finite false m e /\
    bounded prec emax m e = true /\
    Z.pos (digits2_pos m) = 53 /\
    Z.pos m * 2 ^ (e + 1074) = a * 2 ^ 1074.
Proof.
  intros [Hf Hu] Ha. unfold finite, units in *.
  pose proof (Prim2SF_valid x) as Hv.
  assert (H0 : 0 < a * 2 ^ 1074) by (apply Z.mul_pos_pos; [lia|reflexivity]).
  destruct (Prim2SF x) as [s|s| |s m e]; try discriminate Hf; [lia|].
  cbn [valid_binary] in Hv.
  destruct (bounded_inv m e Hv) as (He & Hd & Hn).
  assert (Hp : 0 < Z.pos m * 2 ^ (e + 1074)).
  { apply Z.mul_pos_pos; [lia|]. apply Z.pow_pos_nonneg; lia. }
  destruct s; [lia|].
  exists m, e. repeat split; try assumption.
  destruct Hn as [->|]; [|assumption]. exfalso.
  change (-1074 + 1074) with 0 in Hu. rewrite Z.pow_0_r, Z.mul_1_r in Hu.
  pose proof (digits_bounds m) as [_ Hhi].
  assert (2 ^ Z.pos (digits2_pos m) <= 2 ^ 53) by (apply Z.pow_le_mono_r; lia).
  assert (2 ^ 53 <= 2 ^ 1074) by (apply Z.pow_le_mono_r; lia).
  nia.
Qed.

Lemma isWhole_zero_shape (x : Number) :
  isWhole x 0 -> exists s, Prim2SF x = S754_zero s.
Proof.
  intros [Hf Hu]. unfold finite, units in *.
  destruct (Prim2SF x) as [s|s| |s m e] eqn:E; try discriminate Hf; [eauto|].
  exfalso. pose proof (Prim2SF_valid x) as Hv. rewrite E in Hv.
  destruct (bounded_inv m e Hv) as (He & _).
  assert (Hp : 0 < Z.pos m * 2 ^ (e + 1074)).
  { apply Z.mul_pos_pos; [lia|]. apply Z.pow_pos_nonneg; lia. }
  destruct s; lia.
Qed.

Lemma isWhole_zero (x : Number) (s : bool) :
  Prim2SF x = S754_zero s -> isWhole x 0.
Proof. intros E. unfold isWhole, finite, units. rewrite E. split; reflexivity. Qed.

Lemma isWhole_same (x : Number) (z : Z) :
  0 < z < 2 ^ 53 -> Prim2SF x = Prim2SF (of_Z z) -> isWhole x z.
Proof.
  intros Hz E. apply Prim2SF_inj in E. subst x. apply isWhole_of_Z. lia.
Qed.

(** The product of two whole numbers is exact below 2^53. *)
Lemma isWhole_mul (x y : Number) (a b : Z) :
  isWhole x a -> isWhole y b -> 0 <= a -> 0 <= b -> a * b < 2 ^ 53 ->
  isWhole (x * y)%float (a * b).
Proof.
  intros Hx Hy Ha Hb Hab.
  destruct (Z.eq_dec a 0) as [->|Hane].
  { destruct (isWhole_zero_shape x Hx) as [s Ex].
    destruct Hy as [Hfy _]. unfold finite in Hfy.
    destruct (Prim2SF y) as [sy|sy| |sy my ey] eqn:Ey; try discriminate Hfy.
    - apply (isWhole_zero _ (xorb s sy)). rewrite mul_spec, Ex, Ey. reflexivity.
    - apply (isWhole_zero _ (xorb s sy)). rewrite mul_spec, Ex, Ey. reflexivity. }
  destruct (Z.eq_dec b 0) as [->|Hbne].
  { destruct (isWhole_zero_shape y Hy) as [s Ey].
    destruct Hx as [Hfx _]. unfold finite in Hfx. rewrite Z.mul_0_r.
    destruct (Prim2SF x) as [sx|sx| |sx mx ex] eqn:Ex; try discriminate Hfx.
    - apply (isWhole_zero _ (xorb sx s)). rewrite mul_spec, Ex, Ey. reflexivity.
    - apply (isWhole_zero _ (xorb sx s)). rewrite mul_spec, Ex, Ey. reflexivity. }
  destruct (isWhole_shape x a Hx ltac:(lia)) as (m1 & e1 & E1 & B1 & D1 & V1).
  destruct (isWhole_shape y b Hy ltac:(lia)) as (m2 & e2 & E2 & B2 & D2 & V2).
  assert (Hpos : 0 < a * b) by nia.
  destruct (a * b) as [|p|] eqn:Ep; try lia.
  destruct (of_Z_pos p Hab) as (m0 & e0 & E0 & B0 & He0 & V0).
  apply isWhole_same; [lia|]. rewrite E0, mul_spec, E1, E2.
  unfold SF64mul, SFmul. cbn [xorb].
  destruct (bounded_inv m1 e1 B1) as (He1 & _).
  destruct (bounded_inv m2 e2 B2) as (He2 & _).
  pose proof (digits_bounds m1) as [L1 _]. rewrite D1 in L1.
  pose proof (digits_bounds m2) as [L2 _]. rewrite D2 in L2.
  pose proof (digits_bounds m0) as [_ U0].
  destruct (bounded_inv m0 e0 B0) as (_ & D0 & _).
  assert (U0' : Z.pos m0 < 2 ^ 53).
  { eapply Z.lt_le_trans; [exact U0|]. apply Z.pow_le_mono_r; lia. }
  (* the two sides in units of 2^-2148 *)
  assert (Hval : Z.pos m1 * Z.pos m2 * 2 ^ (e1 + e2 + 2148)
                 = Z.pos m0 * 2 ^ (e0 + 2148)).
  { replace (e1 + e2 + 2148) with ((e1 + 1074) + (e2 + 1074)) by lia.
    rewrite pow_split by lia.
    replace (Z.pos m1 * Z.pos m2 * (2 ^ (e1 + 1074) * 2 ^ (e2 + 1074)))
      with ((Z.pos m1 * 2 ^ (e1 + 1074)) * (Z.pos m2 * 2 ^ (e2 + 1074))) by ring.
    rewrite V1, V2, V0.
    assert (Hp2 : 2 ^ (- e0) * 2 ^ (e0 + 2148) = 2 ^ 1074 * 2 ^ 1074).
    { rewrite <- !pow_split by lia. f_equal. lia. }
    replace (Z.pos p * 2 ^ (- e0) * 2 ^ (e0 + 2148))
      with (Z.pos p * (2 ^ (- e0) * 2 ^ (e0 + 2148))) by ring.
    rewrite Hp2, <- Ep. ring. }
  assert (Hle : e1 + e2 <= e0).
  { destruct (Z_le_gt_dec (e1 + e2) e0) as [|Hgt]; [assumption|]. exfalso.
    replace (e1 + e2 + 2148) with ((e1 + e2 - e0) + (e0 + 2148)) in Hval by lia.
    rewrite (pow_split (e1 + e2 - e0) (e0 + 2148)) in Hval by lia.
    assert (Hc : Z.pos m1 * Z.pos m2 * 2 ^ (e1 + e2 - e0) = Z.pos m0).
    { apply (Z.mul_reg_r _ _ (2 ^ (e0 + 2148))).
      - apply Z.pow_nonzero; lia.
      - rewrite <- Hval. ring. }
    assert (0 < 2 ^ (e1 + e2 - e0)) by (apply Z.pow_pos_nonneg; lia).
    change (2 ^ (53 - 1)) with (2 ^ 52) in L1, L2.
    assert (2 ^ 52 * 2 ^ 52 <= Z.pos m1 * Z.pos m2) by nia.
    assert (2 ^ 53 < 2 ^ 52 * 2 ^ 52) by reflexivity.
    pose proof (Pos2Z.is_pos (m1 * m2)) as Hpp. rewrite Pos2Z.inj_mul in Hpp.
    assert (Z.pos m1 * Z.pos m2 * 1 <= Z.pos m1 * Z.pos m2 * 2 ^ (e1 + e2 - e0))
      by (apply Z.mul_le_mono_nonneg_l; lia).
    lia. }
  apply binary_round_aux_exact; [exact B0|exact Hle|].
  rewrite Pos2Z.inj_mul.
  replace (e0 + 2148) with ((e0 - (e1 + e2)) + (e1 + e2 + 2148)) in Hval by lia.
  rewrite (pow_split (e0 - (e1 + e2)) (e1 + e2 + 2148)) in Hval by lia.
  apply (Z.mul_reg_r _ _ (2 ^ (e1 + e2 + 2148))).
  - apply Z.pow_nonzero; lia.
  - rewrite Hval. ring.
Qed.

Lemma shl_align_fst (m : positive) (e ez : Z) :
  ez <= e -> Z.pos (fst (shl_align m e ez)) = Z.pos m * 2 ^ (e - ez).
Proof.
  intros Hle. unfold shl_align.
  destruct (ez - e) as [|d|d] eqn:Ed; cbn [fst]; [|lia|].
  - replace (e - ez) with 0 by lia. lia.
  - rewrite iter_xO. f_equal. f_equal. lia.
Qed.

(** Two mantissas of one value: one is the other shifted. *)
Lemma same_value_shift (M m0 : positive) (ez e0 : Z) :
  -1074 <= ez -> -1074 <= e0 ->
  Z.pos M * 2 ^ (ez + 1074) = Z.pos m0 * 2 ^ (e0 + 1074) ->
  (ez <= e0 /\ Z.pos M = Z.pos m0 * 2 ^ (e0 - ez)) \/
  (e0 <= ez /\ Z.pos m0 = Z.pos M * 2 ^ (ez - e0)).
Proof.
  intros Hez He0 Hv.
  destruct (Z_le_gt_dec ez e0) as [Hle|Hgt]; [left|right]; (split; [lia|]).
  - replace (e0 + 1074) with ((e0 - ez) + (ez + 1074)) in Hv by lia.
    rewrite (pow_split (e0 - ez) (ez + 1074)) in Hv by lia.
    apply (Z.mul_reg_r _ _ (2 ^ (ez + 1074))).
    + apply Z.pow_nonzero; lia.
    + rewrite Hv. ring.
  - replace (ez + 1074) with ((ez - e0) + (e0 + 1074)) in Hv by lia.
    rewrite (pow_split (ez - e0) (e0 + 1074)) in Hv by lia.
    apply (Z.mul_reg_r _ _ (2 ^ (e0 + 1074))).
    + apply Z.pow_nonzero; lia.
    + rewrite <- Hv. ring.
Qed.

Lemma of_Z_pos_units (p m0 : positive) (e0 : Z) :
  -52 <= e0 <= 0 -> Z.pos m0 = Z.pos p * 2 ^ (- e0) ->
  Z.pos m0 * 2 ^ (e0 + 1074) = Z.pos p * 2 ^ 1074.
Proof.
  intros He ->. rewrite <- Z.mul_assoc, <- pow_split by lia.
  f_equal. f_equal. lia.
Qed.

(** The sum of two whole numbers is exact below 2^53. *)
Lemma isWhole_add (x y : Number) (a b : Z) :
  isWhole x a -> isWhole y b -> 0 <= a -> 0 <= b -> a + b < 2 ^ 53 ->
  isWhole (x + y)%float (a + b).
Proof.
  intros Hx Hy Ha Hb Hab.
  destruct (Z.eq_dec a 0) as [->|Hane].
  { destruct (isWhole_zero_shape x Hx) as [s Ex]. rewrite Z.add_0_l.
    destruct (Z.eq_dec b 0) as [->|Hbne].
    - destruct (isWhole_zero_shape y Hy) as [sy Ey].
      destruct s, sy;
        match goal with
        | |- isWhole _ _ =>
            first [ apply (isWhole_zero _ true); rewrite add_spec, Ex, Ey; reflexivity
                  | apply (isWhole_zero _ false); rewrite add_spec, Ex, Ey; reflexivity ]
        end.
    - destruct (isWhole_shape y b Hy ltac:(lia)) as (m2 & e2 & E2 & _).
      replace (x + y)%float with y; [exact Hy|].
      apply Prim2SF_inj. rewrite add_spec, Ex, E2. reflexivity. }
  destruct (isWhole_shape x a Hx ltac:(lia)) as (m1 & e1 & E1 & B1 & D1 & V1).
  destruct (Z.eq_dec b 0) as [->|Hbne].
  { destruct (isWhole_zero_shape y Hy) as [sy Ey]. rewrite Z.add_0_r.
    replace (x + y)%float with x; [exact Hx|].
    apply Prim2SF_inj. rewrite add_spec, E1, Ey. reflexivity. }
  destruct (isWhole_shape y b Hy ltac:(lia)) as (m2 & e2 & E2 & B2 & D2 & V2).
  destruct (a + b) as [|p|] eqn:Ep; try lia.
  destruct (of_Z_pos p Hab) as (m0 & e0 & E0 & B0 & He0 & V0).
  apply isWhole_same; [lia|]. rewrite E0, add_spec, E1, E2.
  unfold SF64add, SFadd. cbn [cond_Zopp].
  destruct (bounded_inv m1 e1 B1) as (He1 & _).
  destruct (bounded_inv m2 e2 B2) as (He2 & _).
  set (ez := Z.min e1 e2).
  pose proof (shl_align_fst m1 e1 ez ltac:(unfold ez; lia)) as S1.
  pose proof (shl_align_fst m2 e2 ez ltac:(unfold ez; lia)) as S2.
  change (Z.pos (fst (shl_align m1 e1 ez)) + Z.pos (fst (shl_align m2 e2 ez)))
    with (Z.pos (fst (shl_align m1 e1 ez) + fst (shl_align m2 e2 ez))).
  cbn [binary_normalize].
  apply binary_round_exact; [exact B0|].
  apply same_value_shift; [unfold ez; lia|lia|].
  rewrite (of_Z_pos_units p m0 e0 He0 V0), <- Ep, Z.mul_add_distr_r, <- V1, <- V2.
  rewrite Pos2Z.inj_add, S1, S2, Z.mul_add_distr_r.
  rewrite <- !Z.mul_assoc, <- !pow_split by (unfold ez; lia).
  f_equal; f_equal; f_equal; lia.
Qed.

Lemma bounded_lt_53 (m : positive) (e : Z) :
  bounded prec emax m e = true -> Z.pos m < 2 ^ 53.
Proof.
  intros Hb. destruct (bounded_inv m e Hb) as (_ & Hd & _).
  pose proof (digits_bounds m) as [_ Hhi].
  eapply Z.lt_le_trans; [exact Hhi|]. apply Z.pow_le_mono_r; lia.
Qed.

(** On positive Numbers the order is the order of the values. *)
Lemma SFleb_pos (m1 m2 : positive) (e1 e2 : Z) :
  bounded prec emax m1 e1 = true -> bounded prec emax m2 e2 = true ->
  SFleb (S754_finite false m1 e1) (S754_finite false m2 e2) =
    (Z.pos m1 * 2 ^ (e1 + 1074) <=? Z.pos m2 * 2 ^ (e2 + 1074)).
Proof.
  intros B1 B2.
  destruct (bounded_inv m1 e1 B1) as (He1 & D1 & N1).
  destruct (bounded_inv m2 e2 B2) as (He2 & D2 & N2).
  pose proof (bounded_lt_53 m1 e1 B1) as U1.
  pose proof (bounded_lt_53 m2 e2 B2) as U2.
  pose proof (digits_bounds m1) as [L1 _].
  pose proof (digits_bounds m2) as [L2 _].
  unfold SFleb, SFcompare.
  destruct (Z.compare_spec e1 e2) as [->|Hlt|Hgt].
  - assert (Hp : 0 < 2 ^ (e2 + 1074)) by (apply Z.pow_pos_nonneg; lia).
    change (Pos.compare_cont Eq m1 m2) with (Pos.compare m1 m2).
    destruct (Pos.compare_spec m1 m2) as [->|Hm|Hm]; symmetry.
    + apply Z.leb_le. lia.
    + apply Z.leb_le. apply Z.mul_le_mono_nonneg_r; lia.
    + apply Z.leb_gt. apply Z.mul_lt_mono_pos_r; lia.
  - symmetry. apply Z.leb_le.
    destruct N2 as [->|N2]; [lia|]. rewrite N2 in L2.
    change (2 ^ (53 - 1)) with (2 ^ 52) in L2.
    assert (Hp1 : 0 < 2 ^ (e1 + 1074)) by (apply Z.pow_pos_nonneg; lia).
    assert (Hs : 2 * 2 ^ (e1 + 1074) <= 2 ^ (e2 + 1074)).
    { rewrite <- Z.pow_succ_r by lia. apply Z.pow_le_mono_r; lia. }
    change (2 ^ 53) with (2 * 2 ^ 52) in U1. nia.
  - symmetry. apply Z.leb_gt.
    destruct N1 as [->|N1]; [lia|]. rewrite N1 in L1.
    change (2 ^ (53 - 1)) with (2 ^ 52) in L1.
    assert (Hp2 : 0 < 2 ^ (e2 + 1074)) by (apply Z.pow_pos_nonneg; lia).
    assert (Hs : 2 * 2 ^ (e2 + 1074) <= 2 ^ (e1 + 1074)).
    { rewrite <- Z.pow_succ_r by lia. apply Z.pow_le_mono_r; lia. }
    change (2 ^ 53) with (2 * 2 ^ 52) in U2. nia.
Qed.

(** A time value within the range of Dates is read back as it is. *)
Lemma newDate_isWhole (t : Number) (w : Z) :
  isWhole t w -> 0 <= w <= 8640000000000000 -> newDate t = Some w.
Proof.
  intros Ht Hw. unfold newDate.
  destruct (Z.eq_dec w 0) as [->|Hne].
  { destruct (isWhole_zero_shape t Ht) as [s ->]. reflexivity. }
  destruct (isWhole_shape t w Ht ltac:(lia)) as (m & e & E & B & D & V).
  rewrite E, leb_spec, abs_spec, E. cbn [SFabs].
  change (Prim2SF 8.64e15) with (S754_finite false 8640000000000000 0).
  rewrite SFleb_pos by (exact B || reflexivity).
  destruct (bounded_inv m e B) as (He & _).
  rewrite V. change (0 + 1074) with 1074.
  rewrite (proj2 (Z.leb_le _ _))
    by (apply Z.mul_le_mono_nonneg_r; [apply Z.pow_nonneg|]; lia).
  pose proof (digits_bounds m) as [L _]. rewrite D in L.
  change (2 ^ (53 - 1)) with (2 ^ 52) in L.
  assert (He0 : e <= 0).
  { destruct (Z_le_gt_dec e 0) as [|Hgt]; [assumption|]. exfalso.
    replace (e + 1074) with (e + 1074) in V by lia.
    assert (2 * 2 ^ 1074 <= 2 ^ (e + 1074)).
    { rewrite <- Z.pow_succ_r by lia. apply Z.pow_le_mono_r; lia. }
    assert (0 < 2 ^ 1074) by reflexivity.
    assert (w < 2 ^ 53) by (change (2 ^ 53) with 9007199254740992; lia).
    change (2 ^ 53) with (2 * 2 ^ 52) in *. nia. }
  assert (Hm : Z.pos m = w * 2 ^ (- e)).
  { replace 1074 with (- e + (e + 1074)) in V at 2 by lia.
    rewrite (pow_split (- e) (e + 1074)) in V by lia.
    apply (Z.mul_reg_r _ _ (2 ^ (e + 1074))).
    - apply Z.pow_nonzero; lia.
    - rewrite V. ring. }
  f_equal. destruct (Z.leb_spec 0 e).
  - replace e with 0 in * by lia. cbn in Hm. lia.
  - rewrite Z.shiftr_div_pow2 by lia. rewrite Hm.
    apply Z.div_mul. apply Z.pow_nonzero; lia.
Qed.

Lemma isWhole_opp (x : Number) (z : Z) : isWhole x z -> isWhole (- x)%float (- z).
Proof.
  intros [Hf Hu]. unfold isWhole, finite, units in *. rewrite opp_spec.
  destruct (Prim2SF x) as [s|s| |s m e]; try discriminate Hf; cbn [SFopp].
  - split; [reflexivity|]. lia.
  - split; [reflexivity|]. destruct s; cbn [negb]; lia.
Qed.

(** [Math.ceil] of a finite Number is the least whole number that is not
    below it. *)
Lemma Math_ceil_spec (x : Number) :
  finite x = true ->
  exists z,
    isWhole (Math_ceil x) z /\
    (z - 1) * 2 ^ 1074 < units x <= z * 2 ^ 1074.
Proof.
  intros Hf. pose proof (Prim2SF_valid x) as Hv.
  assert (H1074 : 0 < 2 ^ 1074) by reflexivity.
  unfold Math_ceil, finite in *.
  destruct (Prim2SF x) as [s|s| |s m e] eqn:E; try discriminate Hf.
  - exists 0. split; [apply (isWhole_zero _ s), E|].
    unfold units. rewrite E. lia.
  - cbn [valid_binary] in Hv.
    destruct (bounded_inv m e Hv) as (He & _).
    pose proof (bounded_lt_53 m e Hv) as Um.
    destruct (Z.leb_spec 0 e) as [Hpos|Hneg].
    + exists (if s then - (Z.pos m * 2 ^ e) else Z.pos m * 2 ^ e).
      assert (Hu : units x
                   = (if s then - (Z.pos m * 2 ^ e) else Z.pos m * 2 ^ e) * 2 ^ 1074).
      { unfold units. rewrite E. rewrite (pow_split e 1074) by lia.
        destruct s; ring. }
      split; [split; [unfold finite; rewrite E; reflexivity|exact Hu]|].
      rewrite Hu. lia.
    + set (P := 2 ^ (- e)). set (U := 2 ^ (e + 1074)).
      assert (HP : 0 < P) by (apply Z.pow_pos_nonneg; lia).
      assert (HP2 : 2 <= P).
      { unfold P. change 2 with (2 ^ 1) at 1. apply Z.pow_le_mono_r; lia. }
      assert (HU : 0 < U) by (apply Z.pow_pos_nonneg; lia).
      assert (HPU : 2 ^ 1074 = P * U).
      { unfold P, U. rewrite <- pow_split by lia. f_equal. lia. }
      rewrite Z.shiftr_div_pow2 by lia. fold P.
      set (q := Z.pos m / P).
      pose proof (Z.div_mod (Z.pos m) P ltac:(lia)) as Hdm. fold q in Hdm.
      pose proof (Z.mod_pos_bound (Z.pos m) P HP) as Hr.
      assert (Hq0 : 0 <= q) by (apply Z.div_pos; lia).
      assert (Hq : q + 1 < 2 ^ 53).
      { change (2 ^ 53) with 9007199254740992 in *. nia. }
      assert (Hux : units x = if s then - (Z.pos m * U) else Z.pos m * U).
      { unfold units. rewrite E. reflexivity. }
      rewrite Hux, HPU.
      destruct s.
      * exists (- q). split; [apply isWhole_opp, isWhole_of_Z; lia|]. nia.
      * rewrite Z.shiftl_mul_pow2 by lia. fold P.
        destruct (Z.eqb_spec (q * P) (Z.pos m)) as [Heq|Hne].
        -- exists q. split; [apply isWhole_of_Z; lia|]. nia.
        -- exists (q + 1). split; [apply isWhole_of_Z; lia|]. nia.
Qed.

(** Rounding a mantissa below 2^D at an exponent well under the largest one
    does not overflow. *)
Lemma binary_round_aux_finite (s : bool) (m e : Z) (l : location) (D : Z) :
  0 <= D -> 0 <= m < 2 ^ D -> e <= 900 -> D + e <= 1000 ->
  binary_round_aux prec emax s m e l = S754_zero s \/
  exists m' e',
    binary_round_aux prec emax s m e l = S754_finite s m' e' /\
    e' <= Z.max (Z.max e (D + e - 52)) (-1074).
Proof.
  intros HD Hm He HDe. unfold binary_round_aux.
  assert (Hm' : 0 <= m <= 2 ^ D - 1) by lia.
  destruct (shr_fexp_bound m e l _ Hm') as [Hb1 He'].
  destruct (shr_fexp prec emax m e l) as [mrs' e'] eqn:Hs1.
  cbn [fst snd] in Hb1, He'.
  set (mr := round_nearest_even (shr_m mrs') (loc_of_shr_record mrs')).
  assert (Hmr : 0 <= mr <= 2 ^ D).
  { unfold mr, round_nearest_even.
    destruct (loc_of_shr_record mrs') as [|[]]; try lia.
    destruct (Z.even (shr_m mrs')); lia. }
  destruct (shr_fexp_bound mr e' loc_Exact _ Hmr) as [Hb2 He''].
  destruct (shr_fexp prec emax mr e' loc_Exact) as [mrs'' e''] eqn:Hs2.
  cbn [fst snd] in Hb2, He''.
  assert (Hd : Zdigits2 m <= D) by (apply Zdigits2_le; lia).
  assert (Hd0 : 0 <= Zdigits2 m) by (destruct m; cbn; lia).
  assert (Hdr0 : 0 <= Zdigits2 mr) by (destruct mr; cbn; lia).
  assert (Hmr1 : Zdigits2 mr <= Zdigits2 (shr_m mrs') + 1).
  { unfold mr, round_nearest_even.
    assert (Hstep : forall k, 0 <= k -> Zdigits2 (k + 1) <= Zdigits2 k + 1).
    { intros k Hk. destruct k as [|p|p]; [vm_compute; discriminate| |lia].
      change (Z.pos p + 1) with (Z.pos (p + 1)). cbn [Zdigits2].
      rewrite !digits2_pos_size.
      pose proof (lt_pow_size p). apply size_le_of_lt; [lia|].
      rewrite Pos2Z.inj_add, Z.pow_add_r by lia. change (2 ^ 1) with 2.
      rewrite ?digits2_pos_size. lia. }
    destruct (loc_of_shr_record mrs') as [|[]]; try lia.
    - destruct (Z.even (shr_m mrs')); [lia|]. apply Hstep. lia.
    - apply Hstep. lia. }
  (* the digits of the shifted mantissa *)
  assert (Hds : Zdigits2 (shr_m mrs') + e' <= Z.max (Zdigits2 m + e) (e' )).
  { revert Hs1. unfold shr_fexp, shr.
    destruct (fexp prec emax (Zdigits2 m + e) - e) as [|p|p] eqn:Hdd.
    - intros [= <- <-]. destruct l as [|[]]; cbn [shr_record_of_loc shr_m]; lia.
    - intros [= <- <-].
      (* after the shift at most 53 digits remain *)
      assert (Hsh : forall n mrs k, 0 <= k -> 0 <= shr_m mrs < 2 ^ (k + Z.pos n) ->
                 0 <= shr_m (Pos.iter shr_1 mrs n) < 2 ^ k).
      { intros n. induction n as [|n IHn] using Pos.peano_ind; intros mrs k Hk Hmrs.
        - cbn. destruct mrs as [mm r0 s0]. cbn [shr_m] in *.
          rewrite Z.pow_add_r in Hmrs by lia. change (2 ^ 1) with 2 in Hmrs.
          destruct mm as [|[q|q|]|q]; cbn; try lia.
        - rewrite Pos.iter_succ.
          specialize (IHn mrs (k + 1) ltac:(lia)).
          rewrite Pos2Z.inj_succ in Hmrs.
          replace (k + 1 + Z.pos n) with (k + Z.succ (Z.pos n)) in IHn by lia.
          specialize (IHn Hmrs).
          destruct (Pos.iter shr_1 mrs n) as [mm r0 s0]. cbn [shr_m] in *.
          rewrite Z.pow_add_r in IHn by lia. change (2 ^ 1) with 2 in IHn.
          destruct mm as [|[q|q|]|q]; cbn; try lia. }
      rewrite iter_pos_iter.
      set (k := Z.max 0 (Zdigits2 m - Z.pos p)).
      assert (Hk : 0 <= shr_m (Pos.iter shr_1 (shr_record_of_loc m l) p) < 2 ^ k).
      { apply Hsh; [unfold k; lia|].
        assert (Hmm : shr_m (shr_record_of_loc m l) = m)
          by (destruct l as [|[]]; reflexivity).
        rewrite Hmm. split; [lia|].
        destruct m as [|q|q]; [apply Z.pow_pos_nonneg; unfold k; lia| |lia].
        cbn [Zdigits2] in *. pose proof (digits_bounds q) as [_ Hq].
        eapply Z.lt_le_trans; [exact Hq|]. apply Z.pow_le_mono_r; unfold k; lia. }
      pose proof (Zdigits2_le _ k ltac:(unfold k; lia) Hk). unfold k in *. lia.
    - intros [= <- <-]. destruct l as [|[]]; cbn [shr_record_of_loc shr_m]; lia. }
  assert (Hbound : e'' <= Z.max (Z.max e (D + e - 52)) (-1074)).
  { subst e'' e'. unfold fexp, emin, prec, emax in *. lia. }
  destruct (shr_m mrs'') as [|p|p] eqn:Hm''.
  - left. reflexivity.
  - right. assert (Hle : e'' <= emax - prec) by (unfold emax, prec; lia).
    apply Z.leb_le in Hle. rewrite Hle. eauto.
  - lia.
Qed.

(** A Number between -90 and 90 is a zero or has a small exponent. *)
Lemma latitude_shape (la : Number) :
  floatBetween (-90)%float 90%float la = true ->
  (exists s, Prim2SF la = S754_zero s) \/
  (exists s m e,
     Prim2SF la = S754_finite s m e /\ bounded prec emax m e = true /\ e <= -46).
Proof.
  unfold floatBetween. rewrite !leb_spec. intros Hb.
  apply andb_prop in Hb as [Hlo Hhi].
  pose proof (Prim2SF_valid la) as Hv.
  change (Prim2SF 90) with (S754_finite false 6333186975989760 (-46)) in Hhi.
  change (Prim2SF (-90)) with (S754_finite true 6333186975989760 (-46)) in Hlo.
  destruct (Prim2SF la) as [s|s| |s m e].
  - left. eauto.
  - destruct s; [discriminate Hlo|discriminate Hhi].
  - discriminate Hlo.
  - right. exists s, m, e. split; [reflexivity|]. split; [exact Hv|].
    unfold SFleb, SFcompare in Hlo, Hhi. destruct s.
    + destruct (Z.compare_spec (-46) e); [lia|discriminate Hlo|lia].
    + destruct (Z.compare_spec e (-46)); [lia|lia|discriminate Hhi].
Qed.

(** The radian measure of a latitude is finite. *)
Lemma radians_finite (la : Number) :
  floatBetween (-90)%float 90%float la = true ->
  finite (la * Math_PI / 180)%float = true.
Proof.
  intros Hla. unfold finite. rewrite div_spec.
  change (Prim2SF 180) with (S754_finite false 6333186975989760 (-45)).
  pose proof (Prim2SF_valid (la * Math_PI)%float) as Hv.
  assert (Hshape :
            (exists s, Prim2SF (la * Math_PI)%float = S754_zero s) \/
            (exists s m e, Prim2SF (la * Math_PI)%float = S754_finite s m e /\
                           e <= -43)).
  { rewrite mul_spec.
    change (Prim2SF Math_PI) with (S754_finite false 7074237752028440 (-51)).
    destruct (latitude_shape la Hla) as [[s ->]|(s & m & e & -> & B & He)].
    - left. eexists. reflexivity.
    - unfold SF64mul, SFmul.
      pose proof (bounded_lt_53 m e B) as Um.
      assert (Hprod : 0 <= Z.pos (m * 7074237752028440) < 2 ^ 106).
      { rewrite Pos2Z.inj_mul. change (2 ^ 106) with (2 ^ 53 * 2 ^ 53).
        assert (7074237752028440 < 2 ^ 53) by reflexivity. nia. }
      destruct (binary_round_aux_finite (xorb s false)
                  (Z.pos (m * 7074237752028440)) (e + -51) loc_Exact 106
                  ltac:(lia) Hprod ltac:(lia) ltac:(lia))
        as [->|(m' & e' & -> & He')].
      + left. eauto.
      + right. exists (xorb s false), m', e'. split; [reflexivity|lia]. }
  destruct Hshape as [[s E]|(s & m & e & E & He)]; rewrite E in *.
  - reflexivity.
  - cbn [valid_binary] in Hv. pose proof (bounded_lt_53 m e Hv) as Um.
    destruct (bounded_inv m e Hv) as (Hemin & _).
    unfold SF64div, SFdiv, SFdiv_core_binary.
    set (e2 := Z.min (fexp prec emax
                        (Zdigits2 (Z.pos m) + e
                         - (Zdigits2 6333186975989760 + -45))) (e - -45)).
    set (sh := e - -45 - e2).
    set (m2 := match sh with
               | 0 => Z.pos m
               | Z.pos _ => Z.shiftl (Z.pos m) sh
               | Z.neg _ => 0
               end).
    assert (Hsh : 0 <= sh) by (unfold sh, e2; lia).
    assert (Hm2 : 0 <= m2 < 2 ^ (53 + sh)).
    { unfold m2. destruct sh as [|p|p] eqn:Esh; [change (53 + 0) with 53; lia| |lia].
      rewrite Z.shiftl_mul_pow2 by lia. rewrite pow_split by lia.
      assert (0 < 2 ^ Z.pos p) by (apply Z.pow_pos_nonneg; lia). nia. }
    pose proof (Z.div_eucl_eq m2 6333186975989760 ltac:(lia)) as Hdiv.
    pose proof (Z.mod_pos_bound m2 6333186975989760 ltac:(lia)) as Hmod.
    unfold Z.modulo in Hmod.
    destruct (Z.div_eucl m2 6333186975989760) as [q r].
    assert (Hq : 0 <= q < 2 ^ (53 + sh)) by nia.
    destruct (binary_round_aux_finite (xorb s false) q e2
                (new_location 6333186975989760 r) (53 + sh)
                ltac:(lia) Hq ltac:(unfold e2; lia) ltac:(unfold sh; lia))
      as [->|(m' & e' & -> & _)]; reflexivity.
Qed.

(** A Number between two finite Numbers is finite. *)
Lemma floatBetween_finite (lo hi x : Number) :
  finite lo = true -> finite hi = true ->
  floatBetween lo hi x = true -> finite x = true.
Proof.
  unfold floatBetween, finite. rewrite !leb_spec.
  intros Hlo Hhi Hb. apply andb_prop in Hb as [H1 H2].
  destruct (Prim2SF x) as [s|s| |s m e]; try reflexivity.
  - destruct s.
    + destruct (Prim2SF lo) as [?|?| |[] ? ?]; discriminate.
    + destruct (Prim2SF hi) as [?|?| |[] ? ?]; discriminate.
  - destruct (Prim2SF lo) as [?|?| |? ? ?]; discriminate.
Qed.

End NumberFacts.

(** ** The ETA estimate *)

Section EtaFacts.
Context `{MathLib}.
Local Open Scope float_scope.

(** With a library whose sine and arctangent vanish at 0 and whose cosine
    of a finite angle has magnitude at most 1, a point whose coordinates are
    within the validators' ranges is at distance 0 from itself. *)
Lemma haversine_same_point (la lo : Number) :
  Math_sin 0 = 0 ->
  Math_atan2 0 1 = 0 ->
  (forall x, finite x = true -> (abs (Math_cos x) <=? 1) = true) ->
  floatBetween (-90) 90 la = true ->
  floatBetween (-180) 180 lo = true ->
  haversine la lo la lo = 0.
Proof.
  intros Hsin Hatan Hcos Hla Hlo. unfold haversine.
  pose proof (floatBetween_finite (-90) 90 la eq_refl eq_refl Hla) as Hfla.
  pose proof (floatBetween_finite (-180) 180 lo eq_refl eq_refl Hlo) as Hflo.
  rewrite (sub_self la Hfla), (sub_self lo Hflo).
  change (0 * Math_PI / 180 / 2) with 0. rewrite Hsin.
  change (0 * 0) with 0.
  rewrite (small_product_times_zero _ _
             (Hcos _ (radians_finite la Hla)) (Hcos _ (radians_finite la Hla))).
  change (sqrt 0) with 0. change (sqrt (1 - 0)) with 1. rewrite Hatan.
  vm_compute. reflexivity.
Qed.

(** C7: for a stored order whose courier is stored with a known position,
    the endpoint answers the distance
    6371 * 2 * atan2 (sqrt a, sqrt (1 - a)), with a the haversine term of
    the courier position and the delivery coordinate, rounded to two
    decimals, and estimatedMinutes and eta such that:
    estimatedMinutes is the least whole number not below
    distance / speed * 60, with speed 15 for a bike, 25 for a motorcycle,
    30 for a car, 25 for a van and 25 when the courier has no vehicle type
    (a quotient that is not finite is returned as it is);
    eta is the date now + estimatedMinutes * 60000 milliseconds;
    and when the courier is at the delivery coordinate, estimatedMinutes is
    0 for every vehicle type. *)
Theorem eta_estimate
    (db : Db) (orderNumber : string) (now : Date) (id : OrderId)
    (order : Order.t) (c : UserId) (courier : User.t) (l : CurrentLocation.t) :
  findOne db orderNumber = Some (id, order) ->
  Order.courier order = Some c ->
  users db !! c = Some courier ->
  User.currentLocation courier = Some l ->
  let lat1 := CurrentLocation.lat l in
  let lng1 := CurrentLocation.lng l in
  let lat2 := lat (LocationDetails.coordinates (Order.deliveryLocation order)) in
  let lng2 := lng (LocationDetails.coordinates (Order.deliveryLocation order)) in
  let dLat := (lat2 - lat1) * Math_PI / 180 in
  let dLon := (lng2 - lng1) * Math_PI / 180 in
  let a :=
    Math_sin (dLat / 2) * Math_sin (dLat / 2) +
    Math_cos (lat1 * Math_PI / 180) * Math_cos (lat2 * Math_PI / 180) *
    Math_sin (dLon / 2) * Math_sin (dLon / 2) in
  let distance := 6371 * (2 * Math_atan2 (sqrt a) (sqrt (1 - a))) in
  let speed :=
    match User.vehicle courier with
    | Some Vehicle.bike => 15
    | Some Vehicle.motorcycle => 25
    | Some Vehicle.car => 30
    | Some Vehicle.van => 25
    | None => 25
    end in
  let quotient := distance / speed * 60 in
  exists (minutes : Number) (eta : option Date),
    getEta db orderNumber now =
      Ok "" (EtaEstimate eta minutes (toFixed2 distance) (Order.status order)
               (Some l)) /\
    (finite quotient = true ->
     exists z : Z,
       isWhole minutes z /\
       ((z - 1) * 2 ^ 1074 < units quotient <= z * 2 ^ 1074)%Z) /\
    (finite quotient = false -> minutes = quotient) /\
    (forall z : Z,
       isWhole minutes z ->
       (0 <= z)%Z -> (0 <= now)%Z ->
       (now + z * 60000 <= 8640000000000000)%Z ->
       eta = Some (now + z * 60000)%Z) /\
    (Math_sin 0 = 0 ->
     Math_atan2 0 1 = 0 ->
     (forall x, finite x = true -> (abs (Math_cos x) <=? 1) = true) ->
     floatBetween (-90) 90 lat2 = true ->
     floatBetween (-180) 180 lng2 = true ->
     lat1 = lat2 -> lng1 = lng2 ->
     minutes = 0).
Proof.
  intros Hfind Hc Hu Hl. cbv zeta.
  match goal with
  | |- context [finite ?q = true -> _] => set (quotient := q)
  end.
  exists (Math_ceil quotient),
         (newDate (of_Z now + Math_ceil quotient * 60000)).
  split; [|split; [|split; [|split]]].
  - unfold getEta. rewrite Hfind, Hc. cbn [mbind option_bind].
    rewrite Hu, Hl. reflexivity.
  - apply Math_ceil_spec.
  - unfold Math_ceil, finite.
    destruct (Prim2SF quotient); try discriminate; reflexivity.
  - intros z Hz Hz0 Hnow Hmax.
    assert (H53 : (2 ^ 53 = 9007199254740992)%Z) by reflexivity.
    apply newDate_isWhole; [|lia].
    change 60000 with (of_Z 60000).
    apply isWhole_add; [|apply isWhole_mul| | |]; try lia.
    + apply isWhole_of_Z. lia.
    + exact Hz.
    + apply isWhole_of_Z. lia.
  - intros Hsin Hatan Hcos Hla Hlo Elat Elng.
    pose proof (haversine_same_point _ _ Hsin Hatan Hcos Hla Hlo) as Hzero.
    unfold haversine in Hzero. cbv zeta in Hzero.
    unfold quotient. rewrite Elat, Elng, Hzero.
    destruct (User.vehicle courier) as [[]|]; vm_compute; reflexivity.
Qed.

End EtaFacts.

Lemma eta_estimate_witness :
  exists distance,
    getEta (H := Sample.flatMath) (Sample.db Status.in_transit (Some 2))
      "CR000000001" Sample.later
    = Ok "" (EtaEstimate (Some Sample.later) 0%float distance Status.in_transit
               (Some {| CurrentLocation.lat := 40.75%float;
                        CurrentLocation.lng := (-73.5)%float;
                        CurrentLocation.lastUpdated := 1700000000000%Z |})).
Proof.
  destruct (eta_estimate (H := Sample.flatMath)
              (Sample.db Status.in_transit (Some 2)) "CR000000001" Sample.later
              7 (Sample.order Status.in_transit (Some 2)) 2 Sample.bob
              {| CurrentLocation.lat := 40.75%float;
                 CurrentLocation.lng := (-73.5)%float;
                 CurrentLocation.lastUpdated := 1700000000000%Z |})
    as (minutes & eta & Heq & _ & _ & Heta & Hzero).
  - vm_compute. reflexivity.
  - reflexivity.
  - reflexivity.
  - reflexivity.
  - assert (Hm : minutes = 0%float).
    { apply Hzero; reflexivity. }
    subst minutes.
    rewrite (Heta 0%Z) in Heq.
    + eexists. exact Heq.
    + split; reflexivity.
    + lia.
    + unfold Sample.later. lia.
    + unfold Sample.later. lia.
Defined.

Lemma serial_claims_have_one_winner_witness :
  exactlyOneClaim
    (fst (runSchedule 7
            [ {| claimant := Sample.bob; clock := Sample.later |};
              {| claimant := Sample.carol; clock := Sample.later |} ]
            (serialSchedule 2) (Sample.db Status.pending None))).
Proof.
  apply (serial_claims_have_one_winner (Sample.db Status.pending None) 7
           (Sample.order Status.pending None)
           {| claimant := Sample.bob; clock := Sample.later |}
           [ {| claimant := Sample.carol; clock := Sample.later |} ]).
  - reflexivity.
  - reflexivity.
  - reflexivity.
  - repeat constructor.
Defined.

(** ** What the handlers keep of a stored order *)

Section LifecycleFacts.
Context {strings : StringLib}.

Lemma Evolves_refl (o : Order.t) : Evolves o o.
Proof. constructor; auto. Qed.

Lemma Rewrites_refl (db : Db) : Rewrites db db.
Proof. split; left; reflexivity. Qed.

Lemma Rewrites_saveOrder (db db1 : Db) (id : OrderId) (o o' : Order.t) :
  orders db !! id = Some o ->
  Evolves o o' ->
  orders db1 = orders db ->
  (users db1 = users db \/ exists u, users db1 = <[User._id u := u]> (users db)) ->
  Rewrites db (saveOrder id o' db1).
Proof.
  intros Hid Hev Ho Hu. split; cbn.
  - right. exists id, o, o'. rewrite Ho. auto.
  - exact Hu.
Qed.

Local Ltac saved :=
  eapply Rewrites_saveOrder;
  [ eassumption | | reflexivity | first [ left; reflexivity | right; eexists; reflexivity ] ].

Local Ltac evolves :=
  constructor; cbn;
  try reflexivity; try (left; reflexivity); try (left; split; reflexivity).

Lemma assignOrder_rewrites db id user now :
  Rewrites db (snd (assignOrder db id user now)).
Proof.
  unfold assignOrder, assignChecks.
  destruct (orders db !! id) as [order|] eqn:Hid; [|apply Rewrites_refl].
  destruct (bool_decide_reflect (Order.status order <> Status.pending)) as [|Hs];
    [apply Rewrites_refl|].
  destruct (bool_decide_reflect (is_Some (Order.courier order))) as [|Hc];
    [apply Rewrites_refl|].
  destruct (negb _); [apply Rewrites_refl|].
  cbn [snd]. saved. apply dec_stable in Hs.
  evolves.
  - right. repeat split; eauto.
    destruct (Order.courier order); [|reflexivity]. exfalso. apply Hc. eauto.
  - right. discriminate.
  - right. eexists. split; reflexivity.
Qed.

Lemma updateStatus_rewrites db id user body nowActual now :
  Rewrites db (snd (updateStatus db id user body nowActual now)).
Proof.
  unfold updateStatus.
  destruct (bool_decide_reflect (sb_status body ∈ statusAccepted)) as [Hacc|];
    cbn [negb]; [|apply Rewrites_refl].
  destruct (orders db !! id) as [order|] eqn:Hid; [|apply Rewrites_refl].
  destruct (negb _); [apply Rewrites_refl|].
  destruct (match validTransitions _ with Some _ => _ | None => _ end);
    [apply Rewrites_refl|].
  cbn [snd]. saved.
  assert (Hne : sb_status body <> Status.pending).
  { intros E. rewrite E in Hacc. vm_compute in Hacc.
    repeat (apply elem_of_cons in Hacc as [Hacc|Hacc]; [discriminate Hacc|]).
    apply elem_of_nil in Hacc. exact Hacc. }
  destruct (sb_status body) eqn:E; [contradiction| | | | | | ]; evolves;
    try (right; discriminate); try (right; reflexivity);
    try (right; eexists; split; reflexivity).
Qed.

Lemma cancelOrder_rewrites db id user reason now :
  Rewrites db (snd (cancelOrder db id user reason now)).
Proof.
  unfold cancelOrder.
  destruct (orders db !! id) as [order|] eqn:Hid; [|apply Rewrites_refl].
  repeat (destruct (negb _); [apply Rewrites_refl|]).
  cbn [snd]. saved. evolves.
  - right. discriminate.
  - right. eexists. split; reflexivity.
Qed.

(** An accepted score is stored as one of 1, .., 5. *)
Lemma scoreValue_range (r : Score) (n : Z) :
  scoreValue r = Some n -> (1 <= n <= 5)%Z.
Proof.
  destruct r as [x|s]; cbn [scoreValue].
  - intros Hf. apply List.find_some in Hf as [Hin _].
    cbn in Hin. intuition lia.
  - destruct (integerOf s) as [z|]; [|discriminate].
    destruct (Z.leb 1 z && Z.leb z 5) eqn:Hv; [|discriminate].
    intros [= <-]. apply andb_prop in Hv as [H1 H5].
    apply Z.leb_le in H1, H5. lia.
Qed.

Lemma ratingSet_valid (r : Score) (n : Z) :
  scoreValue r = Some n -> ratingSet (Some n) = true.
Proof.
  intros Hv. apply scoreValue_range in Hv.
  cbn. apply negb_true_iff, Z.eqb_neq. lia.
Qed.

Lemma rateOrder_rewrites db id user body :
  Rewrites db (snd (rateOrder db id user body)).
Proof.
  unfold rateOrder.
  destruct (scoreValue _) as [value|] eqn:Hv; [|apply Rewrites_refl].
  apply ratingSet_valid in Hv.
  destruct (orders db !! id) as [order|] eqn:Hid; [|apply Rewrites_refl].
  destruct (bool_decide _); [apply Rewrites_refl|].
  destruct (isCustomerOf order user).
  - destruct (ratingSet (OrderRating.customerRating _)) eqn:Hset;
      [apply Rewrites_refl|].
    destruct (Order.courier order) as [c|].
    + destruct (_ ≫= _); [|apply Rewrites_refl].
      cbn [snd]. saved. evolves. right. split; [exact Hset|exact Hv].
    + cbn [snd]. saved. evolves. right. split; [exact Hset|exact Hv].
  - destruct (isCourierOf order user); [|apply Rewrites_refl].
    destruct (ratingSet (OrderRating.courierRating _)) eqn:Hset;
      [apply Rewrites_refl|].
    destruct (_ ≫= _); [|apply Rewrites_refl].
    cbn [snd]. saved. evolves. right. split; [exact Hset|exact Hv].
Qed.

Lemma updateLocation_rewrites db n user la lo nowSaved now :
  Rewrites db (snd (updateLocation db n user la lo nowSaved now)).
Proof.
  unfold updateLocation.
  destruct (negb _); [apply Rewrites_refl|].
  destruct (findOne db n) as [[id order]|] eqn:Hf; [|apply Rewrites_refl].
  apply findOne_Some in Hf as [Hid _].
  destruct (negb _); [apply Rewrites_refl|].
  cbn [snd]. saved. evolves. right. eexists. split; reflexivity.
Qed.

Lemma addCustomUpdate_rewrites db n user notes location now :
  Rewrites db (snd (addCustomUpdate db n user notes location now)).
Proof.
  unfold addCustomUpdate.
  destruct (_ || _); [apply Rewrites_refl|].
  destruct (findOne db n) as [[id order]|] eqn:Hf; [|apply Rewrites_refl].
  apply findOne_Some in Hf as [Hid _].
  destruct (negb _); [apply Rewrites_refl|].
  cbn [snd]. saved. evolves. right. eexists. split; reflexivity.
Qed.

Lemma uploadProof_rewrites db n user imageUrl isURL description :
  Rewrites db (snd (uploadProof db n user imageUrl isURL description)).
Proof. rewrite uploadProof_stores_nothing. apply Rewrites_refl. Qed.

Lemma exec_rewrites (op : Op) (db : Db) : Rewrites db (exec op db).
Proof.
  destruct op; cbn [exec];
    auto using assignOrder_rewrites, updateStatus_rewrites,
      cancelOrder_rewrites, rateOrder_rewrites, updateLocation_rewrites,
      addCustomUpdate_rewrites, uploadProof_rewrites.
Qed.

End LifecycleFacts.

(** ** Invariants along sequences of operations *)

Section SequenceFacts.
Context {strings : StringLib}.

Lemma Rewrites_forward (db db' : Db) (id : OrderId) (o : Order.t) :
  Rewrites db db' ->
  orders db !! id = Some o ->
  exists o', orders db' !! id = Some o' /\ Evolves o o'.
Proof.
  intros [[E|(id0 & o0 & o0' & H0 & Hev & E)] _] Hid; rewrite E.
  - exists o. split; [exact Hid|apply Evolves_refl].
  - destruct (decide (id0 = id)) as [->|Hne].
    + rewrite lookup_insert_eq. rewrite H0 in Hid. injection Hid as <-. eauto.
    + rewrite lookup_insert_ne by exact Hne.
      exists o. split; [exact Hid|apply Evolves_refl].
Qed.

Lemma Rewrites_backward (db db' : Db) (id : OrderId) (o' : Order.t) :
  Rewrites db db' ->
  orders db' !! id = Some o' ->
  exists o, orders db !! id = Some o /\ Evolves o o'.
Proof.
  intros [[E|(id0 & o0 & o0' & H0 & Hev & E)] _] Hid; rewrite E in Hid.
  - exists o'. split; [exact Hid|apply Evolves_refl].
  - destruct (decide (id0 = id)) as [->|Hne].
    + rewrite lookup_insert_eq in Hid. injection Hid as <-. eauto.
    + rewrite lookup_insert_ne in Hid by exact Hne.
      exists o'. split; [exact Hid|apply Evolves_refl].
Qed.

Lemma Rewrites_users (db db' : Db) (k : UserId) :
  Rewrites db db' -> is_Some (users db !! k) -> is_Some (users db' !! k).
Proof.
  intros [_ [E|(u & E)]] Hk; rewrite E; [exact Hk|].
  destruct (decide (User._id u = k)) as [->|Hne].
  - rewrite lookup_insert_eq. eauto.
  - rewrite lookup_insert_ne by exact Hne. exact Hk.
Qed.

(** Whatever relation contains [Evolves] and is reflexive and transitive
    relates a stored order to what is stored under its key after any
    sequence of operations. *)
Lemma execAll_related (R : relation Order.t) :
  (forall o, R o o) ->
  (forall x y z, R x y -> R y z -> R x z) ->
  (forall o o', Evolves o o' -> R o o') ->
  forall (ops : list Op) (db : Db) (id : OrderId) (o : Order.t),
    orders db !! id = Some o ->
    exists o', orders (execAll ops db) !! id = Some o' /\ R o o'.
Proof.
  intros Hrefl Htrans HR ops.
  induction ops as [|op ops IH]; intros db id o Hid.
  - exists o. split; [exact Hid|apply Hrefl].
  - destruct (Rewrites_forward _ _ _ _ (exec_rewrites op db) Hid)
      as (o1 & Hid1 & Hev).
    destruct (IH (exec op db) id o1 Hid1) as (o' & Hid' & Hr).
    exists o'. split; [exact Hid'|].
    apply (Htrans o o1 o'); [apply HR; exact Hev|exact Hr].
Qed.

Lemma execAll_no_new_order (ops : list Op) :
  forall (db : Db) (id : OrderId),
    is_Some (orders (execAll ops db) !! id) -> is_Some (orders db !! id).
Proof.
  induction ops as [|op ops IH]; intros db id Hid; [exact Hid|].
  apply IH in Hid as [o1 Hid1].
  destruct (Rewrites_backward _ _ _ _ (exec_rewrites op db) Hid1) as (o & Ho & _).
  eauto.
Qed.

(** X1: no sequence of operations changes an order's number, customer,
    pickup and delivery locations, priority, pricing or estimated times. *)
Theorem created_fields_never_change
    (ops : list Op) (db : Db) (id : OrderId) (o : Order.t) :
  orders db !! id = Some o ->
  exists o',
    orders (execAll ops db) !! id = Some o' /\
    Order.orderNumber o' = Order.orderNumber o /\
    Order.customer o' = Order.customer o /\
    Order.pickupLocation o' = Order.pickupLocation o /\
    Order.deliveryLocation o' = Order.deliveryLocation o /\
    Order.priority o' = Order.priority o /\
    Order.pricing o' = Order.pricing o /\
    Order.estimatedTime o' = Order.estimatedTime o.
Proof.
  apply (execAll_related
           (fun o o' =>
              Order.orderNumber o' = Order.orderNumber o /\
              Order.customer o' = Order.customer o /\
              Order.pickupLocation o' = Order.pickupLocation o /\
              Order.deliveryLocation o' = Order.deliveryLocation o /\
              Order.priority o' = Order.priority o /\
              Order.pricing o' = Order.pricing o /\
              Order.estimatedTime o' = Order.estimatedTime o)).
  - intros x. repeat split.
  - intros x y z (?&?&?&?&?&?&?) (?&?&?&?&?&?&?). repeat split; congruence.
  - intros x y []. repeat split; assumption.
Qed.

(** X2: once an order has a courier, no sequence of operations replaces or
    removes that courier. *)
Theorem courier_is_never_replaced
    (ops : list Op) (db : Db) (id : OrderId) (o : Order.t) (c : UserId) :
  orders db !! id = Some o ->
  Order.courier o = Some c ->
  exists o',
    orders (execAll ops db) !! id = Some o' /\ Order.courier o' = Some c.
Proof.
  intros Hid Hc.
  destruct (execAll_related
              (fun o o' => forall c, Order.courier o = Some c ->
                                     Order.courier o' = Some c))
    with (ops := ops) (db := db) (id := id) (o := o) as (o' & Hid' & Hr).
  - intros x c' Hx. exact Hx.
  - intros x y z Hxy Hyz c' Hx. auto.
  - intros x y [] c' Hx.
    destruct ev_courier0 as [E|[E _]]; congruence.
  - exact Hid.
  - eauto.
Qed.

(** X3: an order that has left pending never becomes pending again. *)
Theorem status_never_returns_to_pending
    (ops : list Op) (db : Db) (id : OrderId) (o : Order.t) :
  orders db !! id = Some o ->
  Order.status o <> Status.pending ->
  exists o',
    orders (execAll ops db) !! id = Some o' /\
    Order.status o' <> Status.pending.
Proof.
  intros Hid Hs.
  destruct (execAll_related
              (fun o o' => Order.status o <> Status.pending ->
                           Order.status o' <> Status.pending))
    with (ops := ops) (db := db) (id := id) (o := o) as (o' & Hid' & Hr).
  - intros x Hx. exact Hx.
  - intros x y z Hxy Hyz Hx. auto.
  - intros x y [] Hx. destruct ev_status0 as [E|E]; congruence.
  - exact Hid.
  - eauto.
Qed.

(** X4: if a pending order has no courier to begin with, then after any
    sequence of operations it is still the case that the order, when
    pending, has no courier. *)
Theorem pending_orders_have_no_courier
    (ops : list Op) (db : Db) (id : OrderId) (o : Order.t) :
  orders db !! id = Some o ->
  (Order.status o = Status.pending -> Order.courier o = None) ->
  exists o',
    orders (execAll ops db) !! id = Some o' /\
    (Order.status o' = Status.pending -> Order.courier o' = None).
Proof.
  intros Hid Hinv.
  destruct (execAll_related
              (fun o o' =>
                 (Order.status o = Status.pending -> Order.courier o = None) ->
                 (Order.status o' = Status.pending -> Order.courier o' = None)))
    with (ops := ops) (db := db) (id := id) (o := o) as (o' & Hid' & Hr).
  - intros x Hx. exact Hx.
  - intros x y z Hxy Hyz Hx. auto.
  - intros x y [] Hx Hy.
    destruct ev_status0 as [Es|Es]; [|contradiction].
    destruct ev_courier0 as [Ec|(_ & _ & Ea & _)]; [|congruence].
    rewrite Ec. apply Hx. congruence.
  - exact Hid.
  - eauto.
Qed.

(** X5: if the last tracking event carries the order's status to begin
    with, it does so after any sequence of operations. *)
Theorem status_is_last_event
    (ops : list Op) (db : Db) (id : OrderId) (o : Order.t) :
  orders db !! id = Some o ->
  statusIsLastEvent o ->
  exists o',
    orders (execAll ops db) !! id = Some o' /\ statusIsLastEvent o'.
Proof.
  intros Hid Hinv.
  destruct (execAll_related
              (fun o o' => statusIsLastEvent o -> statusIsLastEvent o'))
    with (ops := ops) (db := db) (id := id) (o := o) as (o' & Hid' & Hr).
  - intros x Hx. exact Hx.
  - intros x y z Hxy Hyz Hx. auto.
  - intros x y [] Hx. unfold statusIsLastEvent in *.
    destruct ev_tracking0 as [[Et Es]|(ev & Et & Es)]; rewrite Et.
    + rewrite Es. exact Hx.
    + rewrite map_app. cbn [map]. rewrite last_snoc. congruence.
  - exact Hid.
  - eauto.
Qed.

(** X6: a rating that is set is never overwritten: the customer's rating and
    feedback, once set, and the courier's, once set, are the same after any
    sequence of operations. *)
Theorem ratings_are_set_once
    (ops : list Op) (db : Db) (id : OrderId) (o : Order.t) :
  orders db !! id = Some o ->
  exists o',
    orders (execAll ops db) !! id = Some o' /\
    (ratingSet (OrderRating.customerRating (Order.rating o)) = true ->
     OrderRating.customerRating (Order.rating o')
       = OrderRating.customerRating (Order.rating o) /\
     OrderRating.customerFeedback (Order.rating o')
       = OrderRating.customerFeedback (Order.rating o)) /\
    (ratingSet (OrderRating.courierRating (Order.rating o)) = true ->
     OrderRating.courierRating (Order.rating o')
       = OrderRating.courierRating (Order.rating o) /\
     OrderRating.courierFeedback (Order.rating o')
       = OrderRating.courierFeedback (Order.rating o)).
Proof.
  apply (execAll_related
           (fun o o' =>
              (ratingSet (OrderRating.customerRating (Order.rating o)) = true ->
               OrderRating.customerRating (Order.rating o')
                 = OrderRating.customerRating (Order.rating o) /\
               OrderRating.customerFeedback (Order.rating o')
                 = OrderRating.customerFeedback (Order.rating o)) /\
              (ratingSet (OrderRating.courierRating (Order.rating o)) = true ->
               OrderRating.courierRating (Order.rating o')
                 = OrderRating.courierRating (Order.rating o) /\
               OrderRating.courierFeedback (Order.rating o')
                 = OrderRating.courierFeedback (Order.rating o)))).
  - intros x. split; intros _; split; reflexivity.
  - intros x y z [H1 H2] [H3 H4]. split; intros Hx.
    + destruct (H1 Hx) as [E1 E2]. rewrite <- E1 in Hx.
      destruct (H3 Hx) as [E3 E4]. split; congruence.
    + destruct (H2 Hx) as [E1 E2]. rewrite <- E1 in Hx.
      destruct (H4 Hx) as [E3 E4]. split; congruence.
  - intros x y []. split; intros Hx.
    + destruct ev_customerRating0 as [E|[E _]]; [exact E|congruence].
    + destruct ev_courierRating0 as [E|[E _]]; [exact E|congruence].
Qed.

(** X7: operations neither create nor delete orders: a key holds an order
    after a sequence of operations exactly when it held one before. *)
Theorem operations_keep_the_set_of_orders
    (ops : list Op) (db : Db) (id : OrderId) :
  is_Some (orders (execAll ops db) !! id) <-> is_Some (orders db !! id).
Proof.
  split; [apply execAll_no_new_order|].
  intros [o Hid].
  destruct (execAll_related (fun _ _ => True)) with (ops := ops) (db := db)
    (id := id) (o := o) as (o' & Hid' & _); eauto.
Qed.

End SequenceFacts.

Lemma created_fields_never_change_witness :
  exists o',
    orders (execAll Sample.ops (Sample.db Status.pending None)) !! 7%nat
      = Some o' /\
    Order.pricing o' = Order.pricing (Sample.order Status.pending None).
Proof.
  destruct (created_fields_never_change Sample.ops
              (Sample.db Status.pending None) 7
              (Sample.order Status.pending None) eq_refl)
    as (o' & Hid & _ & _ & _ & _ & _ & Hp & _).
  exists o'. split; assumption.
Defined.

Lemma courier_is_never_replaced_witness :
  exists o',
    orders (execAll Sample.ops (Sample.db Status.assigned (Some 3))) !! 7%nat
      = Some o' /\
    Order.courier o' = Some 3%nat.
Proof.
  apply (courier_is_never_replaced Sample.ops
           (Sample.db Status.assigned (Some 3)) 7
           (Sample.order Status.assigned (Some 3)) 3); reflexivity.
Defined.

Lemma status_never_returns_to_pending_witness :
  exists o',
    orders (execAll Sample.ops (Sample.db Status.assigned (Some 2))) !! 7%nat
      = Some o' /\
    Order.status o' <> Status.pending.
Proof.
  apply (status_never_returns_to_pending Sample.ops
           (Sample.db Status.assigned (Some 2)) 7
           (Sample.order Status.assigned (Some 2))); [reflexivity|discriminate].
Defined.

Lemma pending_orders_have_no_courier_witness :
  exists o',
    orders (execAll Sample.ops (Sample.db Status.pending None)) !! 7%nat
      = Some o' /\
    (Order.status o' = Status.pending -> Order.courier o' = None).
Proof.
  apply (pending_orders_have_no_courier Sample.ops
           (Sample.db Status.pending None) 7
           (Sample.order Status.pending None)); [reflexivity|].
  intros _. reflexivity.
Defined.

Lemma status_is_last_event_witness :
  exists o',
    orders (execAll Sample.ops (Sample.db Status.pending None)) !! 7%nat
      = Some o' /\
    statusIsLastEvent o'.
Proof.
  apply (status_is_last_event Sample.ops (Sample.db Status.pending None) 7
           (Sample.order Status.pending None)); reflexivity.
Defined.

Lemma ratings_are_set_once_witness :
  exists o',
    orders (execAll
              [ OpRate 8 Sample.alice
                  {| rb_rating := ScoreNumber 3%float;
                     rb_feedback := Some "Late"%string |};
                OpRate 8 Sample.bob
                  {| rb_rating := ScoreNumber 4%float; rb_feedback := None |} ]
              SampleMore.dbDelivered) !! 8%nat = Some o' /\
    OrderRating.customerRating (Order.rating o') = Some 5%Z /\
    OrderRating.customerFeedback (Order.rating o') = Some "On time"%string.
Proof.
  destruct (ratings_are_set_once
              [ OpRate 8 Sample.alice
                  {| rb_rating := ScoreNumber 3%float;
                     rb_feedback := Some "Late"%string |};
                OpRate 8 Sample.bob
                  {| rb_rating := ScoreNumber 4%float; rb_feedback := None |} ]
              SampleMore.dbDelivered 8 SampleMore.delivered eq_refl)
    as (o' & Hid & Hcustomer & _).
  destruct (Hcustomer eq_refl) as [Hrating Hfeedback].
  exists o'. split; [exact Hid|]. split; assumption.
Defined.

(** ** Who may write, and rating twice *)

Section AccessFacts.
Context {strings : StringLib}.

(** X8: a user who is neither an administrator, nor the order's customer,
    nor its courier cannot change anything through the status, cancel, rate,
    location, note and proof requests on that order: each is answered with
    an error and the store is left as it was. *)
Theorem strangers_cannot_write
    (db : Db) (id : OrderId) (o : Order.t) (u : User.t) :
  orders db !! id = Some o ->
  stranger o u = true ->
  (forall body nowActual now,
     exists c m, updateStatus db id u body nowActual now = (Error c m, db)) /\
  (forall reason now,
     cancelOrder db id u reason now
       = (Error 403 "Not authorized to cancel this order", db)) /\
  (forall body, exists c m, rateOrder db id u body = (Error c m, db)) /\
  (findOne db (Order.orderNumber o) = Some (id, o) ->
   (forall la lo nowSaved now,
      exists c m,
        updateLocation db (Order.orderNumber o) u la lo nowSaved now
          = (Error c m, db)) /\
   (forall notes location now,
      exists c m,
        addCustomUpdate db (Order.orderNumber o) u notes location now
          = (Error c m, db)) /\
   (forall imageUrl isURL description,
      exists c m,
        uploadProof db (Order.orderNumber o) u imageUrl isURL description
          = (Error c m, db))).
Proof.
  intros Hid Hs. unfold stranger in Hs.
  apply andb_prop in Hs as [Hs Hco]. apply andb_prop in Hs as [Had Hcu].
  apply negb_true_iff in Had, Hcu, Hco.
  repeat split.
  - intros body t0 now. unfold updateStatus.
    destruct (negb (bool_decide _)); [eauto|].
    rewrite Hid, Had, Hco, Hcu, andb_false_r. cbn. eauto.
  - intros reason now. unfold cancelOrder.
    rewrite Hid, Had, Hco, Hcu. reflexivity.
  - intros body. unfold rateOrder.
    destruct (scoreValue _); [|eauto]. rewrite Hid, Hcu, Hco.
    destruct (bool_decide _); eauto.
  - intros la lo t0 now. unfold updateLocation.
    destruct (negb (_ && _)); [eauto|]. rewrite H, Hco. cbn. eauto.
  - intros notes location now. unfold addCustomUpdate.
    destruct (_ || _); [eauto|]. rewrite H, Hco. cbn. eauto.
  - intros imageUrl isURL description. unfold uploadProof.
    destruct (negb isURL); [eauto|]. rewrite H, Hco. cbn. eauto.
Qed.

(** X9: after a successful rating, a second rating of the same order by the
    same user is answered 400, as already rated (or as invalid when the
    validator does not accept the score), and stores nothing. *)
Theorem second_rating_is_refused
    (db db' : Db) (id : OrderId) (u : User.t) (body body2 : RateBody)
    (m : string) (r : OrderRating.t) :
  rateOrder db id u body = (Ok m r, db') ->
  rateOrder db' id u body2 =
    (Error 400
       (match scoreValue (rb_rating body2) with
        | Some _ => "You have already rated this order"
        | None => "Validation failed"
        end),
     db').
Proof.
  intros Hrate. unfold rateOrder in Hrate.
  destruct (scoreValue (rb_rating body)) as [value|] eqn:Hv;
    [|discriminate Hrate].
  apply ratingSet_valid in Hv.
  destruct (orders db !! id) as [order|] eqn:Hid; [|discriminate Hrate].
  destruct (bool_decide_reflect (Order.status order <> Status.delivered))
    as [|Hdel]; [discriminate Hrate|].
  unfold rateOrder.
  destruct (scoreValue (rb_rating body2)); [|reflexivity].
  destruct (isCustomerOf order u) eqn:Hcu.
  - destruct (ratingSet (OrderRating.customerRating (Order.rating order)));
      [discriminate Hrate|].
    assert (Hdb' : exists db1,
              db' = saveOrder id
                      (Order.set_rating
                         {| OrderRating.customerRating := Some value;
                            OrderRating.courierRating :=
                              OrderRating.courierRating (Order.rating order);
                            OrderRating.customerFeedback := rb_feedback body;
                            OrderRating.courierFeedback :=
                              OrderRating.courierFeedback (Order.rating order) |}
                         order) db1).
    { destruct (Order.courier order) as [c|].
      - destruct (_ ≫= _); [|discriminate Hrate].
        injection Hrate as _ _ <-. eauto.
      - injection Hrate as _ _ <-. eauto. }
    destruct Hdb' as [db1 ->]. cbn [orders saveOrder].
    rewrite lookup_insert_eq. cbn.
    rewrite (bool_decide_eq_false_2 _ Hdel).
    change (isCustomerOf _ u) with (isCustomerOf order u). rewrite Hcu.
    cbn in Hv. rewrite Hv. reflexivity.
  - destruct (isCourierOf order u) eqn:Hco; [|discriminate Hrate].
    destruct (ratingSet (OrderRating.courierRating (Order.rating order)));
      [discriminate Hrate|].
    destruct (_ ≫= _); [|discriminate Hrate].
    injection Hrate as _ _ <-. cbn [orders saveOrder].
    rewrite lookup_insert_eq. cbn.
    rewrite (bool_decide_eq_false_2 _ Hdel).
    change (isCustomerOf _ u) with (isCustomerOf order u). rewrite Hcu.
    change (isCourierOf _ u) with (isCourierOf order u). rewrite Hco.
    cbn in Hv. rewrite Hv. reflexivity.
Qed.

(** X10: on a store where a pending order has no courier, which every
    operation keeps, a claim is never answered that the order is already
    assigned to another courier. *)
Theorem already_assigned_answer_is_unreachable
    (db : Db) (id : OrderId) (o : Order.t) (u : User.t) (now : Date) :
  orders db !! id = Some o ->
  (Order.status o = Status.pending -> Order.courier o = None) ->
  fst (assignOrder db id u now)
    <> Error 400 "Order already assigned to another courier".
Proof.
  intros Hid Hinv. unfold assignOrder, assignChecks. rewrite Hid.
  destruct (bool_decide_reflect (Order.status o <> Status.pending)) as [|Hs];
    [discriminate|].
  apply dec_stable in Hs. rewrite (Hinv Hs).
  rewrite bool_decide_eq_false_2 by (intros [? E]; discriminate E).
  destruct (negb _); discriminate.
Qed.

End AccessFacts.

Lemma strangers_cannot_write_witness :
  cancelOrder (Sample.db Status.assigned (Some 2)) 7 Sample.carol None
    Sample.later
  = (Error 403 "Not authorized to cancel this order",
     Sample.db Status.assigned (Some 2)).
Proof.
  apply (strangers_cannot_write (Sample.db Status.assigned (Some 2)) 7
           (Sample.order Status.assigned (Some 2)) Sample.carol);
    reflexivity.
Defined.

Lemma second_rating_is_refused_witness :
  rateOrder
    (snd (rateOrder (Sample.db Status.delivered (Some 2)) 7 Sample.alice
            {| rb_rating := ScoreNumber 4%float; rb_feedback := None |}))
    7 Sample.alice {| rb_rating := ScoreString "5"; rb_feedback := None |}
  = (Error 400 "You have already rated this order",
     snd (rateOrder (Sample.db Status.delivered (Some 2)) 7 Sample.alice
            {| rb_rating := ScoreNumber 4%float; rb_feedback := None |})).
Proof.
  eapply (second_rating_is_refused (Sample.db Status.delivered (Some 2)) _ 7
            Sample.alice {| rb_rating := ScoreNumber 4%float; rb_feedback := None |}
            {| rb_rating := ScoreString "5"; rb_feedback := None |}).
  vm_compute. reflexivity.
Defined.

Lemma already_assigned_answer_is_unreachable_witness :
  fst (assignOrder (Sample.db Status.pending None) 7 Sample.bob Sample.later)
    <> Error 400 "Order already assigned to another courier".
Proof.
  apply (already_assigned_answer_is_unreachable
           (Sample.db Status.pending None) 7
           (Sample.order Status.pending None)); [reflexivity|].
  intros _. reflexivity.
Defined.

(** ** Reading the store *)

Section ReadingFacts.
Context {strings : StringLib}.

(** With unique order numbers, [findOne] on a stored order's number returns
    that order and its key. *)
Lemma findOne_unique (db : Db) (id : OrderId) (o : Order.t) :
  uniqueNumbers db ->
  orders db !! id = Some o ->
  findOne db (Order.orderNumber o) = Some (id, o).
Proof.
  intros Huniq Hid. unfold findOne.
  assert (Hin : (id, o) ∈ map_to_list (orders db))
    by (apply elem_of_map_to_list; exact Hid).
  destruct (list_find_elem_of
              (fun p : OrderId * Order.t =>
                 Order.orderNumber (snd p) = Order.orderNumber o)
              _ _ Hin eq_refl) as [[i [id' o']] Hfind].
  rewrite Hfind. cbn.
  apply list_find_Some in Hfind as (Hi & HP & _). cbn in HP.
  apply list_elem_of_lookup_2, elem_of_map_to_list in Hi.
  assert (id' = id) by (eapply Huniq; eassumption). subst id'.
  congruence.
Qed.

Lemma uniqueNumbers_Rewrites (db db' : Db) :
  Rewrites db db' -> uniqueNumbers db -> uniqueNumbers db'.
Proof.
  intros Hrw Huniq i j oi oj Hi Hj E.
  destruct (Rewrites_backward _ _ _ _ Hrw Hi) as (oi0 & Hi0 & [Ei _]).
  destruct (Rewrites_backward _ _ _ _ Hrw Hj) as (oj0 & Hj0 & [Ej _]).
  eapply Huniq; [exact Hi0|exact Hj0|congruence].
Qed.

Lemma uniqueNumbers_execAll (ops : list Op) :
  forall db, uniqueNumbers db -> uniqueNumbers (execAll ops db).
Proof.
  induction ops as [|op ops IH]; intros db Huniq; [exact Huniq|].
  apply IH. eapply uniqueNumbers_Rewrites; [apply exec_rewrites|exact Huniq].
Qed.

Lemma users_execAll (ops : list Op) :
  forall (db : Db) (k : UserId),
    is_Some (users db !! k) -> is_Some (users (execAll ops db) !! k).
Proof.
  induction ops as [|op ops IH]; intros db k Hk; [exact Hk|].
  apply IH. eapply Rewrites_users; [apply exec_rewrites|exact Hk].
Qed.

(** X11: the public tracking read never shrinks: when a read of an order
    number succeeds, a read of the same number after any sequence of
    operations succeeds too, and the tracking sequence of the first read is
    a prefix of that of the second. *)
Theorem tracking_reads_never_shrink
    (ops : list Op) (db : Db) (n m : string) (info : TrackingInfo) :
  uniqueNumbers db ->
  getTracking db n = Ok m info ->
  exists info',
    getTracking (execAll ops db) n = Ok "" info' /\
    ti_orderNumber info' = ti_orderNumber info /\
    ti_tracking info `prefix_of` ti_tracking info'.
Proof.
  intros Huniq Hread. unfold getTracking in Hread.
  destruct (findOne db n) as [[id o]|] eqn:Hfind; [|discriminate Hread].
  apply findOne_Some in Hfind as [Hid Hn].
  cbn [populate mbind option_bind] in Hread.
  destruct (users db !! Order.customer o) as [cu|] eqn:Hcu; [|discriminate Hread].
  injection Hread as _ <-. cbn [ti_orderNumber ti_tracking].
  destruct (execAll_related
              (fun o o' =>
                 Order.orderNumber o' = Order.orderNumber o /\
                 Order.customer o' = Order.customer o /\
                 Order.tracking o `prefix_of` Order.tracking o'))
    with (ops := ops) (db := db) (id := id) (o := o)
    as (o' & Hid' & En & Ec & Hpre).
  - intros x. repeat split. reflexivity.
  - intros x y z (?&?&?) (?&?&?). repeat split; try congruence.
    etransitivity; eassumption.
  - intros x y []. repeat split; try assumption.
    destruct ev_tracking0 as [[-> _]|(ev & -> & _)];
      [reflexivity|apply prefix_app_r; reflexivity].
  - exact Hid.
  - pose proof (findOne_unique _ _ _ (uniqueNumbers_execAll ops db Huniq) Hid')
      as Hfind'.
    rewrite En, Hn in Hfind'.
    destruct (users_execAll ops db (Order.customer o)) as [cu' Hcu'];
      [rewrite Hcu; eauto|].
    unfold getTracking. rewrite Hfind'. cbn [populate mbind option_bind].
    rewrite Ec, Hcu'. eexists. split; [reflexivity|].
    cbn. split; [exact En|exact Hpre].
Qed.

(** X12: the courier whose claim succeeded is accepted as the order's
    courier: a location report of theirs with a valid coordinate on that
    order number succeeds. *)
Theorem claimant_can_report
    (db db' : Db) (id : OrderId) (u : User.t) (now nowSaved now' : Date)
    (m : string) (o' : Order.t) (la lo : Number) :
  uniqueNumbers db ->
  assignOrder db id u now = (Ok m o', db') ->
  floatBetween (-90)%float 90%float la = true ->
  floatBetween (-180)%float 180%float lo = true ->
  isOk (fst (updateLocation db' (Order.orderNumber o') u la lo nowSaved now'))
    = true.
Proof.
  intros Huniq Hassign Hla Hlo.
  assert (Huniq' : uniqueNumbers db').
  { replace db' with (snd (assignOrder db id u now)) by (rewrite Hassign; reflexivity).
    eapply uniqueNumbers_Rewrites; [apply assignOrder_rewrites|exact Huniq]. }
  unfold assignOrder, assignChecks in Hassign.
  destruct (orders db !! id) as [o|]; [|discriminate Hassign].
  destruct (bool_decide _); [discriminate Hassign|].
  destruct (bool_decide _); [discriminate Hassign|].
  destruct (negb _); [discriminate Hassign|].
  injection Hassign as _ <- <-.
  unfold updateLocation. rewrite Hla, Hlo. cbn [andb negb].
  rewrite (findOne_unique _ id _ Huniq') by apply lookup_insert_eq.
  unfold isCourierOf. cbn. rewrite bool_decide_eq_true_2 by reflexivity.
  reflexivity.
Qed.

(** X13: order details and delivery proofs are read only by an
    administrator, the order's customer or its courier.  With every user
    stored under its own id and the order's customer and courier documents
    present, [GET /orders/:id] succeeds exactly for those callers, and so
    does [GET /tracking/:orderNumber/proof] on the order it finds. *)
Theorem details_are_read_by_parties_only
    (db : Db) (id : OrderId) (o : Order.t) (u : User.t) :
  keyedById db ->
  orders db !! id = Some o ->
  is_Some (users db !! Order.customer o) ->
  (forall c, Order.courier o = Some c -> is_Some (users db !! c)) ->
  (isOk (getOrder db id u) = true <-> stranger o u = false) /\
  (findOne db (Order.orderNumber o) = Some (id, o) ->
   (isOk (getProof db (Order.orderNumber o) u) = true <-> stranger o u = false)).
Proof.
  intros Hkey Hid [cu Hcu] Hco. unfold stranger. split.
  - unfold getOrder. rewrite Hid.
    destruct (isAdmin u); [cbn; tauto|].
    cbn [populate mbind option_bind negb andb]. rewrite Hcu.
    rewrite (Hkey _ _ Hcu). unfold isCustomerOf, isCourierOf.
    destruct (bool_decide (Order.customer o = User._id u)); [cbn; tauto|].
    destruct (Order.courier o) as [c|] eqn:Hc; cbn.
    + destruct (Hco c eq_refl) as [co Hcou]. rewrite Hcou.
      rewrite (Hkey _ _ Hcou).
      destruct (bool_decide (c = User._id u)); cbn; split; congruence.
    + split; congruence.
  - intros Hfind. unfold getProof. rewrite Hfind.
    destruct (isAdmin u), (isCustomerOf o u), (isCourierOf o u); cbn;
      split; congruence.
Qed.

End ReadingFacts.

Lemma sample_uniqueNumbers (s : Status.t) (c : option UserId) :
  uniqueNumbers (Sample.db s c).
Proof.
  intros i j oi oj Hi Hj _. cbn in Hi, Hj.
  apply lookup_singleton_Some in Hi as [<- _].
  apply lookup_singleton_Some in Hj as [<- _]. reflexivity.
Qed.

Lemma sample_keyedById (s : Status.t) (c : option UserId) :
  keyedById (Sample.db s c).
Proof.
  intros k u. cbn.
  rewrite !lookup_insert_Some, lookup_singleton_Some.
  intros [[<- <-]|[_ [[<- <-]|[_ [[<- <-]|[_ [[<- <-]|[_ [<- <-]]]]]]]]];
    reflexivity.
Qed.

Lemma tracking_reads_never_shrink_witness :
  exists info info',
    getTracking (Sample.db Status.pending None) "CR000000001" = Ok "" info /\
    getTracking (execAll Sample.ops (Sample.db Status.pending None))
      "CR000000001" = Ok "" info' /\
    ti_tracking info `prefix_of` ti_tracking info'.
Proof.
  eexists.
  edestruct (tracking_reads_never_shrink Sample.ops
               (Sample.db Status.pending None) "CR000000001" "")
    as (info' & Hread & _ & Hpre).
  - apply sample_uniqueNumbers.
  - vm_compute. reflexivity.
  - exists info'. split; [reflexivity|]. split; [exact Hread|exact Hpre].
Defined.

Lemma claimant_can_report_witness :
  isOk (fst (updateLocation
               (snd (assignOrder (Sample.db Status.pending None) 7 Sample.carol
                       Sample.later))
               "CR000000001" Sample.carol 40.6%float (-73.8)%float
               Sample.later Sample.later)) = true.
Proof.
  eapply (claimant_can_report (Sample.db Status.pending None) _ 7 Sample.carol
            Sample.later Sample.later Sample.later
            "Order assigned successfully"
            (Order.addTrackingUpdate Status.assigned None
               (Some "Order assigned to courier Carol") Sample.later
               (Order.set_status Status.assigned
                  (Order.set_courier (Some 3%nat)
                     (Sample.order Status.pending None))))
            40.6%float (-73.8)%float).
  - apply sample_uniqueNumbers.
  - vm_compute. reflexivity.
  - reflexivity.
  - reflexivity.
Defined.

Lemma details_are_read_by_parties_only_witness :
  isOk (getOrder (Sample.db Status.assigned (Some 2)) 7 Sample.carol) = true
  <-> stranger (Sample.order Status.assigned (Some 2)) Sample.carol = false.
Proof.
  destruct (details_are_read_by_parties_only
              (Sample.db Status.assigned (Some 2)) 7
              (Sample.order Status.assigned (Some 2)) Sample.carol)
    as [Hiff _].
  - apply sample_keyedById.
  - reflexivity.
  - eexists. reflexivity.
  - intros c Hc. injection Hc as <-. eexists. reflexivity.
  - exact Hiff.
Defined.

(** ** The listing of available orders *)

Section ListingFacts.
Context {strings : StringLib}.
Context (createdAt : OrderId -> Date).

#[local] Instance newerFirst_total : Total (newerFirst createdAt).
Proof. intros a b. unfold newerFirst. lia. Qed.

Lemma elem_of_availableOrders (p : OrderId * Order.t) (db : Db) :
  p ∈ availableOrders createdAt db ->
  orders db !! fst p = Some (snd p) /\ isAvailableOrder p.
Proof.
  unfold availableOrders. intros Hin.
  eapply elem_of_sublist in Hin; [|apply sublist_take].
  rewrite merge_sort_Permutation in Hin.
  apply list_elem_of_filter in Hin as [Hav Hin].
  destruct p as [id o]. apply elem_of_map_to_list in Hin. auto.
Qed.

(** X14: the listing of available orders holds at most twenty entries, no
    key twice, newest first, and each entry is a stored order that is
    pending and has no courier. *)
Theorem available_orders_listing (db : Db) :
  length (availableOrders createdAt db) <= 20 /\
  NoDup (availableOrders createdAt db).*1 /\
  Sorted (newerFirst createdAt) (availableOrders createdAt db) /\
  forall id o,
    (id, o) ∈ availableOrders createdAt db ->
    orders db !! id = Some o /\
    Order.status o = Status.pending /\ Order.courier o = None.
Proof.
  repeat split.
  - unfold availableOrders. rewrite length_take. lia.
  - unfold availableOrders.
    refine (sublist_NoDup _ _ _ (fmap_sublist fst _ _ (sublist_take _ 20))).
    rewrite merge_sort_Permutation.
    refine (sublist_NoDup _ _ _
              (fmap_sublist fst _ _ (sublist_filter isAvailableOrder _))).
    apply NoDup_fst_map_to_list.
  - unfold availableOrders. apply StronglySorted_Sorted.
    eapply StronglySorted_sublist; [apply sublist_take|].
    apply Sorted_StronglySorted; [|apply Sorted_merge_sort; apply _].
    intros x y z. unfold newerFirst. lia.
  - apply (elem_of_availableOrders (id, o) db H).
  - apply (elem_of_availableOrders (id, o) db H).
  - apply (elem_of_availableOrders (id, o) db H).
Qed.

(** X15: when at most twenty stored orders are pending without courier, the
    listing holds every one of them. *)
Theorem available_orders_listing_complete
    (db : Db) (id : OrderId) (o : Order.t) :
  length (filter isAvailableOrder (map_to_list (orders db))) <= 20 ->
  orders db !! id = Some o ->
  Order.status o = Status.pending ->
  Order.courier o = None ->
  (id, o) ∈ availableOrders createdAt db.
Proof.
  intros Hlen Hid Hs Hc. unfold availableOrders.
  rewrite take_ge by (rewrite merge_sort_Permutation; exact Hlen).
  rewrite merge_sort_Permutation. apply list_elem_of_filter.
  split; [split; assumption|]. apply elem_of_map_to_list. exact Hid.
Qed.

(** X16: every listed order can be claimed: the claim of a listed order by
    an available courier succeeds. *)
Theorem listed_orders_can_be_claimed
    (db : Db) (id : OrderId) (o : Order.t) (u : User.t) (now : Date) :
  (id, o) ∈ availableOrders createdAt db ->
  User.isAvailable u = true ->
  isOk (fst (assignOrder db id u now)) = true.
Proof.
  intros Hin Hav.
  apply elem_of_availableOrders in Hin as [Hid [Hs Hc]]. cbn in Hid, Hs, Hc.
  unfold assignOrder, assignChecks. rewrite Hid, Hs, Hc, Hav.
  rewrite bool_decide_eq_false_2 by (intros E; now apply E).
  rewrite bool_decide_eq_false_2 by (intros [? E]; discriminate E).
  reflexivity.
Qed.

(** X17: an order whose claim succeeded is no longer listed as available. *)
Theorem claimed_orders_are_delisted
    (db db' : Db) (id : OrderId) (u : User.t) (now : Date) (m : string)
    (o' o : Order.t) :
  assignOrder db id u now = (Ok m o', db') ->
  (id, o) ∉ availableOrders createdAt db'.
Proof.
  intros Hassign Hin.
  apply elem_of_availableOrders in Hin as [Hid [_ Hc]]. cbn in Hid, Hc.
  unfold assignOrder, assignChecks in Hassign.
  destruct (orders db !! id) as [o0|]; [|discriminate Hassign].
  destruct (bool_decide _); [discriminate Hassign|].
  destruct (bool_decide _); [discriminate Hassign|].
  destruct (negb _); [discriminate Hassign|].
  injection Hassign as _ _ <-. cbn in Hid.
  rewrite lookup_insert_eq in Hid. injection Hid as <-. discriminate Hc.
Qed.

End ListingFacts.

Lemma available_orders_listing_complete_witness :
  (7%nat, Sample.order Status.pending None)
    ∈ availableOrders (fun _ => Sample.later) (Sample.db Status.pending None).
Proof.
  apply (available_orders_listing_complete (fun _ => Sample.later)
           (Sample.db Status.pending None) 7 (Sample.order Status.pending None)).
  - vm_compute. lia.
  - reflexivity.
  - reflexivity.
  - reflexivity.
Defined.

Lemma listed_orders_can_be_claimed_witness :
  isOk (fst (assignOrder (Sample.db Status.pending None) 7 Sample.bob
               Sample.later)) = true.
Proof.
  apply (listed_orders_can_be_claimed (fun _ => Sample.later)
           (Sample.db Status.pending None) 7 (Sample.order Status.pending None)
           Sample.bob Sample.later).
  - vm_compute. apply list_elem_of_here.
  - reflexivity.
Defined.

Lemma claimed_orders_are_delisted_witness :
  (7%nat, Sample.order Status.pending None)
    ∉ availableOrders (fun _ => Sample.later)
        (snd (assignOrder (Sample.db Status.pending None) 7 Sample.bob
                Sample.later)).
Proof.
  eapply (claimed_orders_are_delisted (fun _ => Sample.later)
            (Sample.db Status.pending None) _ 7 Sample.bob Sample.later).
  vm_compute. reflexivity.
Defined.

(** ** Transitions of the table, and the first reader of a race *)

Section MoreTransitionFacts.
Context {strings : StringLib}.

(** X18: every transition of the table other than pending -> assigned
    (which is the claim request's) succeeds through the status request of
    the order's courier or an administrator: the requested status is
    stored, exactly one tracking event carrying it, the given location and
    the notes is appended, and the pickup or delivery time is stamped on
    entering picked_up or delivered. *)
Theorem table_transitions_succeed
    (db : Db) (id : OrderId) (o : Order.t) (u : User.t) (body : StatusBody)
    (nowActual now : Date) :
  orders db !! id = Some o ->
  isAdmin u || isCourierOf o u = true ->
  inTable (Order.status o) (sb_status body) = true ->
  sb_status body <> Status.assigned ->
  exists o',
    updateStatus db id u body nowActual now =
      (Ok "Order status updated successfully" o', saveOrder id o' db) /\
    Order.status o' = sb_status body /\
    Order.tracking o' =
      Order.tracking o ++
      [ {| TrackingEvent.status := sb_status body;
           TrackingEvent.timestamp := now;
           TrackingEvent.location := sb_location body;
           TrackingEvent.notes := sb_notes body |} ] /\
    Times.pickup (Order.actualTime o') =
      (if bool_decide (sb_status body = Status.picked_up) then Some nowActual
       else Times.pickup (Order.actualTime o)) /\
    Times.delivery (Order.actualTime o') =
      (if bool_decide (sb_status body = Status.delivered) then Some nowActual
       else Times.delivery (Order.actualTime o)).
Proof.
  intros Hid Hauth Htab Hna. unfold updateStatus. rewrite Hid, Hauth.
  destruct (Order.status o) eqn:Hs, (sb_status body) eqn:Ht;
    try discriminate Htab; try contradiction;
    cbn; eexists; (split; [reflexivity|]); repeat split.
Qed.

Lemma runStep_length id rqs i cfg :
  length (fst (runStep id rqs i cfg)) = length (fst cfg).
Proof.
  unfold runStep. destruct (rqs !! i), (fst cfg !! i); try reflexivity.
  destruct (claimStep _ _ _ _). cbn. apply length_insert.
Qed.

Lemma runStep_answered id rqs i j cfg r :
  fst cfg !! j = Some (Answered r) ->
  fst (runStep id rqs i cfg) !! j = Some (Answered r).
Proof.
  intros Hj. unfold runStep.
  destruct (rqs !! i) as [rq|]; [|exact Hj].
  destruct (fst cfg !! i) as [st|] eqn:Hi; [|exact Hj].
  destruct (claimStep id rq st (snd cfg)) as [st' db'] eqn:Hstep. cbn.
  destruct (decide (i = j)) as [->|Hne].
  - rewrite Hj in Hi. injection Hi as <-. cbn in Hstep.
    injection Hstep as <- _.
    rewrite list_lookup_insert_eq by (eapply lookup_lt_Some; exact Hj).
    reflexivity.
  - rewrite list_lookup_insert_ne by exact Hne. exact Hj.
Qed.

Lemma foldl_answered id rqs schedule :
  forall cfg j r,
    fst cfg !! j = Some (Answered r) ->
    fst (foldl (fun cfg i => runStep id rqs i cfg) cfg schedule) !! j
      = Some (Answered r).
Proof.
  induction schedule as [|i schedule IH]; intros cfg j r Hj; [exact Hj|].
  cbn. apply IH, runStep_answered, Hj.
Qed.

(** No step removes the order. *)
Lemma runStep_keeps_order id rqs i cfg :
  is_Some (orders (snd cfg) !! id) ->
  is_Some (orders (snd (runStep id rqs i cfg)) !! id).
Proof.
  intros Hid. unfold runStep.
  destruct (rqs !! i) as [rq|]; [|exact Hid].
  destruct (fst cfg !! i) as [st|]; [|exact Hid].
  destruct (claimStep id rq st (snd cfg)) as [st' db'] eqn:Hstep. cbn [snd].
  destruct st as [|m o'|r]; cbn [claimStep] in Hstep.
  - destruct (orders (snd cfg) !! id) as [order|] eqn:Ho;
      [|destruct Hid; discriminate].
    destruct (assignChecks _ _ _); injection Hstep as _ <-; rewrite Ho; eauto.
  - destruct (orders (snd cfg) !! id) as [stored|];
      [|destruct Hid; discriminate].
    injection Hstep as _ <-. cbn. rewrite lookup_insert_eq. eauto.
  - injection Hstep as _ <-. exact Hid.
Qed.

Lemma foldl_loaded id rqs schedule :
  forall cfg j m o',
    is_Some (rqs !! j) ->
    is_Some (orders (snd cfg) !! id) ->
    fst cfg !! j = Some (Loaded m o') ->
    j ∈ schedule ->
    fst (foldl (fun cfg i => runStep id rqs i cfg) cfg schedule) !! j
      = Some (Answered (Ok m o')).
Proof.
  induction schedule as [|i schedule IH];
    intros cfg j m o' [rq Hrq] [stored Hid] Hj Hin.
  - apply elem_of_nil in Hin. contradiction.
  - cbn. destruct (decide (i = j)) as [->|Hne].
    + apply foldl_answered. unfold runStep. rewrite Hrq, Hj. cbn.
      rewrite Hid. cbn.
      apply list_lookup_insert_eq. eapply lookup_lt_Some; exact Hj.
    + apply elem_of_cons in Hin as [->|Hin]; [contradiction|].
      apply (IH _ j m o'); [eauto|apply runStep_keeps_order; eauto| |exact Hin].
      unfold runStep.
      destruct (rqs !! i) as [rqi|]; [|exact Hj].
      destruct (fst cfg !! i) as [st|]; [|exact Hj].
      destruct (claimStep id rqi st (snd cfg)). cbn.
      rewrite list_lookup_insert_ne by exact Hne. exact Hj.
Qed.

(** X19: in a race of claims on a pending order without courier, the
    request that takes the first step of the schedule wins whenever it is
    scheduled again and its courier is available, whatever the other
    requests do in between. *)
Theorem first_reader_wins
    (db : Db) (id : OrderId) (o : Order.t) (rqs : list ClaimRequest)
    (i : nat) (rq : ClaimRequest) (schedule : list nat) :
  orders db !! id = Some o ->
  Order.status o = Status.pending ->
  Order.courier o = None ->
  rqs !! i = Some rq ->
  User.isAvailable (claimant rq) = true ->
  i ∈ schedule ->
  exists st,
    fst (runSchedule id rqs (i :: schedule) db) !! i = Some st /\
    succeeded st = true.
Proof.
  intros Hid Hs Hc Hrq Hav Hin. unfold runSchedule. cbn [foldl].
  assert (Hlt : i < length rqs) by (eapply lookup_lt_Some; exact Hrq).
  eexists. split.
  - eapply foldl_loaded; [eauto| | |exact Hin].
    { apply runStep_keeps_order. cbn. eauto. }
    unfold runStep. cbn [fst snd]. rewrite Hrq.
    rewrite lookup_replicate_2 by exact Hlt.
    cbn [claimStep]. rewrite Hid. unfold assignChecks.
    rewrite Hs, Hc, Hav. cbn [negb].
    rewrite bool_decide_eq_false_2 by (intros E; now apply E).
    rewrite bool_decide_eq_false_2 by (intros [? E]; discriminate E).
    cbn [fst]. apply list_lookup_insert_eq. rewrite length_replicate. exact Hlt.
  - reflexivity.
Qed.

End MoreTransitionFacts.

Lemma table_transitions_succeed_witness :
  exists o',
    updateStatus (Sample.db Status.in_transit (Some 2)) 7 Sample.bob
      {| sb_status := Status.delivered; sb_notes := None; sb_location := None |}
      Sample.later Sample.later
    = (Ok "Order status updated successfully" o',
       saveOrder 7 o' (Sample.db Status.in_transit (Some 2))) /\
    Order.status o' = Status.delivered.
Proof.
  destruct (table_transitions_succeed (Sample.db Status.in_transit (Some 2)) 7
              (Sample.order Status.in_transit (Some 2)) Sample.bob
              {| sb_status := Status.delivered; sb_notes := None;
                 sb_location := None |}
              Sample.later Sample.later)
    as (o' & Heq & Hs & _).
  - reflexivity.
  - reflexivity.
  - reflexivity.
  - discriminate.
  - exists o'. split; assumption.
Defined.

Lemma first_reader_wins_witness :
  exists st,
    fst (runSchedule 7
           [ {| claimant := Sample.bob; clock := Sample.later |};
             {| claimant := Sample.carol; clock := Sample.later |} ]
           [1; 0; 0; 1]%nat (Sample.db Status.pending None)) !! 1%nat = Some st /\
    succeeded st = true.
Proof.
  apply (first_reader_wins (Sample.db Status.pending None) 7
           (Sample.order Status.pending None) _ 1
           {| claimant := Sample.carol; clock := Sample.later |} [0; 0; 1]%nat).
  - reflexivity.
  - reflexivity.
  - reflexivity.
  - reflexivity.
  - reflexivity.
  - apply elem_of_cons. right. apply elem_of_cons. right. apply list_elem_of_here.
Defined.

(** ** Symmetry of the distance *)

Section SymmetryFacts.
Local Open Scope Z_scope.

Lemma binary_round_aux_opp (s : bool) (m e : Z) (l : location) :
  binary_round_aux prec emax (negb s) m e l =
    SFopp (binary_round_aux prec emax s m e l).
Proof.
  unfold binary_round_aux.
  destruct (shr_fexp prec emax m e l) as [mrs' e'].
  destruct (shr_fexp prec emax _ e' loc_Exact) as [mrs'' e''].
  destruct (shr_m mrs''); [reflexivity| |reflexivity].
  destruct (Z.leb e'' (emax - prec)); reflexivity.
Qed.

Lemma SFmul_opp_l (x y : spec_float) :
  SF64mul (SFopp x) y = SFopp (SF64mul x y).
Proof.
  destruct x as [sx|sx| |sx mx ex], y as [sy|sy| |sy my ey]; cbn;
    try reflexivity; try (destruct sx, sy; reflexivity).
  rewrite <- binary_round_aux_opp. f_equal. destruct sx, sy; reflexivity.
Qed.

Lemma SFmul_comm (x y : spec_float) : SF64mul x y = SF64mul y x.
Proof.
  destruct x as [sx|sx| |sx mx ex], y as [sy|sy| |sy my ey]; cbn;
    try reflexivity; try (destruct sx, sy; reflexivity).
  rewrite Pos.mul_comm, Z.add_comm, xorb_comm. reflexivity.
Qed.

Lemma SFdiv_opp_l (x y : spec_float) :
  SF64div (SFopp x) y = SFopp (SF64div x y).
Proof.
  destruct x as [sx|sx| |sx mx ex], y as [sy|sy| |sy my ey]; cbn;
    try reflexivity; try (destruct sx, sy; reflexivity).
  destruct (SFdiv_core_binary prec emax (Z.pos mx) ex (Z.pos my) ey)
    as [[mz ez] lz].
  rewrite <- binary_round_aux_opp. f_equal. destruct sx, sy; reflexivity.
Qed.

Lemma SFopp_involutive (x : spec_float) : SFopp (SFopp x) = x.
Proof. destruct x as [s|s| |s m e]; cbn; rewrite ?negb_involutive; reflexivity. Qed.

Lemma binary_normalize_opp (z e : Z) :
  z <> 0 ->
  binary_normalize prec emax (- z) e false =
    SFopp (binary_normalize prec emax z e false).
Proof.
  intros Hz. destruct z as [|p|p]; [contradiction| |].
  - change (- Z.pos p) with (Z.neg p). unfold binary_normalize, binary_round.
    destruct (shl_align p e _) as [mz ez].
    apply (binary_round_aux_opp false).
  - change (- Z.neg p) with (Z.pos p). unfold binary_normalize, binary_round.
    destruct (shl_align p e _) as [mz ez].
    rewrite (binary_round_aux_opp false), SFopp_involutive. reflexivity.
Qed.

Lemma SFsub_swap (x y : spec_float) :
  SF64sub x y = SFopp (SF64sub y x) \/ SF64sub x y = SF64sub y x.
Proof.
  destruct x as [sx|sx| |sx mx ex], y as [sy|sy| |sy my ey]; cbn;
    try (left; reflexivity); try (right; reflexivity);
    try (destruct sx, sy; (left; reflexivity) || (right; reflexivity)).
  rewrite (Z.min_comm ey ex).
  set (a := cond_Zopp sx _). set (b := cond_Zopp sy _).
  destruct (Z.eq_dec (b - a) 0) as [E|E].
  - right. rewrite E. replace (a - b) with 0 by lia. reflexivity.
  - left. replace (a - b) with (- (b - a)) by lia.
    apply binary_normalize_opp. exact E.
Qed.

Local Open Scope float_scope.

Lemma mul_opp_l (x y : Number) : - x * y = - (x * y).
Proof.
  apply Prim2SF_inj. rewrite mul_spec, !opp_spec, mul_spec. apply SFmul_opp_l.
Qed.

Lemma mul_comm (x y : Number) : x * y = y * x.
Proof. apply Prim2SF_inj. rewrite !mul_spec. apply SFmul_comm. Qed.

Lemma div_opp_l (x y : Number) : - x / y = - (x / y).
Proof.
  apply Prim2SF_inj. rewrite div_spec, !opp_spec, div_spec. apply SFdiv_opp_l.
Qed.

Lemma opp_involutive (x : Number) : - - x = x.
Proof. apply Prim2SF_inj. rewrite !opp_spec. apply SFopp_involutive. Qed.

Lemma sub_swap (x y : Number) : x - y = - (y - x) \/ x - y = y - x.
Proof.
  destruct (SFsub_swap (Prim2SF x) (Prim2SF y)) as [E|E]; [left|right];
    apply Prim2SF_inj; rewrite ?opp_spec, !sub_spec; exact E.
Qed.

Lemma mul_opp_r (x y : Number) : x * - y = - (x * y).
Proof. rewrite (mul_comm x (- y)), mul_opp_l, (mul_comm y x). reflexivity. Qed.

Context `{MathLib}.

Lemma half_angle_sine_swap (x y : Number) :
  (forall a, Math_sin (- a) = - Math_sin a) ->
  Math_sin ((x - y) * Math_PI / 180 / 2)
    = - Math_sin ((y - x) * Math_PI / 180 / 2) \/
  Math_sin ((x - y) * Math_PI / 180 / 2)
    = Math_sin ((y - x) * Math_PI / 180 / 2).
Proof.
  intros Hodd. destruct (sub_swap x y) as [E|E]; rewrite E; [left|right].
  - rewrite mul_opp_l, !div_opp_l. apply Hodd.
  - reflexivity.
Qed.

(** X20: with an odd sine, the haversine distance from one coordinate to
    another equals the distance back, bit for bit, for all Number
    arguments. *)
Theorem haversine_symmetric (la1 lo1 la2 lo2 : Number) :
  (forall a, Math_sin (- a) = - Math_sin a) ->
  haversine la1 lo1 la2 lo2 = haversine la2 lo2 la1 lo1.
Proof.
  intros Hodd. unfold haversine.
  rewrite (mul_comm (Math_cos (la2 * Math_PI / 180))
                    (Math_cos (la1 * Math_PI / 180))).
  destruct (half_angle_sine_swap la2 la1 Hodd) as [-> | ->];
    destruct (half_angle_sine_swap lo2 lo1 Hodd) as [-> | ->];
    repeat (rewrite mul_opp_r || rewrite mul_opp_l || rewrite opp_involutive);
    reflexivity.
Qed.

(** X21: an order whose pickup and delivery coordinates coincide has
    distance 0 and is priced at the base fare plus the priority surcharge:
    5.00 standard, 7.50 express, 10.00 urgent, with distance fare 0. *)
Theorem same_place_order_costs_base_fare (o : Order.t) :
  Math_sin 0 = 0 ->
  Math_atan2 0 1 = 0 ->
  (forall x, finite x = true -> (abs (Math_cos x) <=? 1) = true) ->
  LocationDetails.coordinates (Order.pickupLocation o)
    = LocationDetails.coordinates (Order.deliveryLocation o) ->
  floatBetween (-90) 90
    (lat (LocationDetails.coordinates (Order.deliveryLocation o))) = true ->
  floatBetween (-180) 180
    (lng (LocationDetails.coordinates (Order.deliveryLocation o))) = true ->
  calculateDistance o = 0 /\
  Pricing.distanceFare (calculatePricing (calculateDistance o) (Order.priority o))
    = 0 /\
  Pricing.totalAmount (calculatePricing (calculateDistance o) (Order.priority o))
    = match Order.priority o with
      | Priority.standard => 5
      | Priority.express => 7.5
      | Priority.urgent => 10
      end.
Proof.
  intros Hsin Hatan Hcos Hsame Hla Hlo.
  assert (Hd : calculateDistance o = 0).
  { unfold calculateDistance. rewrite Hsame.
    apply haversine_same_point; assumption. }
  rewrite Hd. split; [reflexivity|].
  destruct (Order.priority o); split; vm_compute; reflexivity.
Qed.

End SymmetryFacts.

Lemma haversine_symmetric_witness :
  haversine (H := Sample.flatMath) 40.5%float (-74)%float 40.75%float
    (-73.5)%float
  = haversine (H := Sample.flatMath) 40.75%float (-73.5)%float 40.5%float
      (-74)%float.
Proof.
  apply (haversine_symmetric (H := Sample.flatMath)).
  intros a. reflexivity.
Defined.

(** ** Order numbers *)

Section OrderNumberFacts.
Local Open Scope Z_scope.

Lemma length_fixedDigits k : forall n, length (fixedDigits k n) = k.
Proof.
  induction k as [|k IH]; intros n; cbn; [reflexivity|].
  rewrite length_app, IH. cbn. lia.
Qed.

(* last k digits, given enough fuel *)
Lemma sliceLast_snoc {A} (k : nat) (l : list A) (x : A) :
  (k <= length l)%nat ->
  sliceLast (S k) (l ++ [x]) = sliceLast k l ++ [x].
Proof.
  intros Hk. unfold sliceLast. rewrite length_app. cbn.
  replace (length l + 1 - S k)%nat with (length l - k)%nat by lia.
  rewrite drop_app_le by lia. reflexivity.
Qed.

Lemma decimalDigitsFuel_S (fuel : nat) (n : Z) :
  decimalDigitsFuel (S fuel) n =
    if n <? 10 then [n] else decimalDigitsFuel fuel (n / 10) ++ [n mod 10].
Proof. reflexivity. Qed.

Lemma sliceLast_fuel (k : nat) :
  forall (fuel : nat) (n : Z),
    10 ^ Z.of_nat k <= n < 2 ^ Z.of_nat fuel ->
    sliceLast (S k) (decimalDigitsFuel (S fuel) n) = fixedDigits (S k) n.
Proof.
  induction k as [|k IH]; intros fuel n [Hlo Hhi]; rewrite decimalDigitsFuel_S.
  - change (10 ^ Z.of_nat 0) with 1 in Hlo.
    destruct (Z.ltb_spec n 10) as [Hlt|Hge].
    + unfold sliceLast. cbn. f_equal. symmetry. apply Z.mod_small. lia.
    + rewrite sliceLast_snoc by lia. unfold sliceLast.
      rewrite Nat.sub_0_r, drop_all. reflexivity.
  - assert (Hpos : 0 < 10 ^ Z.of_nat k) by (apply Z.pow_pos_nonneg; lia).
    rewrite Nat2Z.inj_succ, Z.pow_succ_r in Hlo by lia.
    destruct (Z.ltb_spec n 10) as [Hlt|_]; [lia|].
    destruct fuel as [|fuel].
    { change (2 ^ Z.of_nat 0) with 1 in Hhi. lia. }
    rewrite Nat2Z.inj_succ, Z.pow_succ_r in Hhi by lia.
    assert (Hrec : 10 ^ Z.of_nat k <= n / 10 < 2 ^ Z.of_nat fuel).
    { split.
      - apply Z.div_le_lower_bound; lia.
      - apply Z.div_lt_upper_bound; lia. }
    specialize (IH fuel (n / 10) Hrec).
    assert (Hlen : (S k <= length (decimalDigitsFuel (S fuel) (n / 10)))%nat).
    { pose proof (f_equal length IH) as Hl.
      rewrite length_fixedDigits in Hl. unfold sliceLast in Hl.
      rewrite length_drop in Hl. lia. }
    rewrite sliceLast_snoc by exact Hlen. rewrite IH. reflexivity.
Qed.

Lemma lt_pow_log2 (n : Z) : 0 <= n -> n < 2 ^ Z.of_nat (S (Z.to_nat (Z.log2 n))).
Proof.
  intros Hn. rewrite Nat2Z.inj_succ, Z2Nat.id by apply Z.log2_nonneg.
  destruct (Z.eq_dec n 0) as [->|Hne]; [reflexivity|].
  apply Z.log2_spec. lia.
Qed.

Lemma decimalDigits_last (k : nat) (n : Z) :
  10 ^ Z.of_nat k <= n ->
  sliceLast (S k) (decimalDigits n) = fixedDigits (S k) n.
Proof.
  intros Hlo. unfold decimalDigits. apply sliceLast_fuel.
  assert (0 < 10 ^ Z.of_nat k) by (apply Z.pow_pos_nonneg; lia).
  split; [exact Hlo|apply lt_pow_log2; lia].
Qed.

(* fixed digits depend on the residue only *)
Lemma fixedDigits_mod (k : nat) :
  forall n, fixedDigits k (n mod 10 ^ Z.of_nat k) = fixedDigits k n.
Proof.
  induction k as [|k IH]; intros n; [reflexivity|].
  cbn [fixedDigits]. rewrite Nat2Z.inj_succ, Z.pow_succ_r by lia.
  assert (Hpos : 0 < 10 ^ Z.of_nat k) by (apply Z.pow_pos_nonneg; lia).
  set (P := 10 ^ Z.of_nat k) in *.
  assert (Hsplit : n mod (10 * P) = 10 * ((n / 10) mod P) + n mod 10)
    by (rewrite Z.rem_mul_r by lia; lia).
  pose proof (Z.mod_pos_bound n 10 ltac:(lia)) as Hr.
  assert (Hq : (n mod (10 * P)) / 10 = (n / 10) mod P)
    by (symmetry; apply (Z.div_unique _ 10 _ (n mod 10)); [left; exact Hr|exact Hsplit]).
  assert (Hm : (n mod (10 * P)) mod 10 = n mod 10)
    by (symmetry; apply (Z.mod_unique _ 10 ((n / 10) mod P)); [left; exact Hr|exact Hsplit]).
  rewrite Hq, Hm, IH. reflexivity.
Qed.

Lemma fixedDigits_inj (k : nat) :
  forall n m,
    0 <= n < 10 ^ Z.of_nat k -> 0 <= m < 10 ^ Z.of_nat k ->
    fixedDigits k n = fixedDigits k m -> n = m.
Proof.
  induction k as [|k IH]; intros n m Hn Hm E.
  - change (10 ^ Z.of_nat 0) with 1 in *. lia.
  - cbn [fixedDigits] in E. apply app_inj_tail in E as [E1 E2].
    rewrite Nat2Z.inj_succ, Z.pow_succ_r in Hn, Hm by lia.
    assert (n / 10 = m / 10).
    { apply IH; [| |exact E1]; split;
        try (apply Z.div_pos; lia); apply Z.div_lt_upper_bound; lia. }
    rewrite (Z.div_mod n 10), (Z.div_mod m 10) by lia. congruence.
Qed.

Lemma fixedDigits_range (k : nat) :
  forall n, Forall (fun d => 0 <= d < 10) (fixedDigits k n).
Proof.
  induction k as [|k IH]; intros n; cbn; [constructor|].
  apply Forall_app. split; [apply IH|]. repeat constructor;
    apply Z.mod_pos_bound; lia.
Qed.

Lemma decimalDigits_small (n : Z) : 0 <= n < 10 -> decimalDigits n = [n].
Proof.
  intros Hn. unfold decimalDigits. rewrite decimalDigitsFuel_S.
  destruct (Z.ltb_spec n 10); [reflexivity|lia].
Qed.

Lemma length_decimalDigitsFuel (fuel : nat) :
  forall (n : Z) (k : nat),
    n < 10 ^ Z.of_nat (S k) -> (length (decimalDigitsFuel fuel n) <= S k)%nat.
Proof.
  induction fuel as [|fuel IH]; intros n k Hn; [cbn; lia|].
  rewrite decimalDigitsFuel_S. destruct (Z.ltb_spec n 10) as [|Hge]; [cbn; lia|].
  rewrite length_app. cbn [length].
  rewrite Nat2Z.inj_succ, Z.pow_succ_r in Hn by lia.
  destruct k as [|k]; [rewrite Z.pow_0_r in Hn; lia|].
  assert (length (decimalDigitsFuel fuel (n / 10)) <= S k)%nat.
  { apply IH. apply Z.div_lt_upper_bound; lia. }
  lia.
Qed.

(** A number of exactly k+1 digits. *)
Lemma decimalDigits_exact (k : nat) (n : Z) :
  10 ^ Z.of_nat k <= n < 10 ^ Z.of_nat (S k) ->
  decimalDigits n = fixedDigits (S k) n.
Proof.
  intros [Hlo Hhi]. rewrite <- (decimalDigits_last k n Hlo).
  unfold sliceLast.
  replace (length (decimalDigits n) - S k)%nat with 0%nat; [reflexivity|].
  pose proof (length_decimalDigitsFuel (S (S (Z.to_nat (Z.log2 n)))) n k Hhi).
  unfold decimalDigits. lia.
Qed.

(** [padStart(3, '0')] of a number below 1000 gives its three digits. *)
Lemma padStart_three (r : Z) :
  0 <= r < 1000 -> padStart 3 0 (decimalDigits r) = fixedDigits 3 r.
Proof.
  intros Hr.
  destruct (Z.lt_ge_cases r 10) as [H10|H10].
  - rewrite decimalDigits_small by lia. cbn [fixedDigits].
    rewrite (Z.div_small r 10), (Z.mod_small r 10) by lia. reflexivity.
  - destruct (Z.lt_ge_cases r 100) as [H100|H100].
    + rewrite (decimalDigits_exact 1 r) by (change (10 ^ Z.of_nat 1) with 10; change (10 ^ Z.of_nat 2) with 100; lia).
      unfold padStart. rewrite length_fixedDigits. cbn [fixedDigits].
      rewrite (Z.div_small (r / 10) 10)
        by (split; [apply Z.div_pos; lia|apply Z.div_lt_upper_bound; lia]).
      reflexivity.
    + rewrite (decimalDigits_exact 2 r) by (change (10 ^ Z.of_nat 2) with 100; change (10 ^ Z.of_nat 3) with 1000; lia).
      unfold padStart. rewrite length_fixedDigits. reflexivity.
Qed.

Lemma orderNumber_digits (now random : Z) :
  100000 <= now -> 0 <= random < 1000 ->
  generateOrderNumber now random =
    "CR" +:+ string_of_list_ascii
               (map digitChar
                  (fixedDigits 6 (now mod 1000000) ++ fixedDigits 3 random)).
Proof.
  intros Hnow Hr. unfold generateOrderNumber.
  rewrite (decimalDigits_last 5 now) by exact Hnow.
  rewrite padStart_three by exact Hr.
  rewrite <- (fixedDigits_mod 6 now). reflexivity.
Qed.

Lemma length_string_of_list_ascii (l : list ascii) :
  String.length (string_of_list_ascii l) = length l.
Proof. induction l as [|a l IH]; cbn; congruence. Qed.

Lemma digitChar_inj (d e : Z) :
  0 <= d < 10 -> 0 <= e < 10 -> digitChar d = digitChar e -> d = e.
Proof.
  intros Hd He E. apply (f_equal nat_of_ascii) in E. unfold digitChar in E.
  rewrite !nat_ascii_embedding in E by lia. lia.
Qed.

Lemma map_digitChar_inj (l1 l2 : list Z) :
  Forall (fun d => 0 <= d < 10) l1 ->
  Forall (fun d => 0 <= d < 10) l2 ->
  map digitChar l1 = map digitChar l2 -> l1 = l2.
Proof.
  intros H1. revert l2. induction H1 as [|d l1 Hd H1 IH]; intros l2 H2 E;
    destruct H2 as [|e l2 He H2]; try discriminate E; [reflexivity|].
  cbn in E. injection E as E1 E2. f_equal; [apply digitChar_inj|apply IH]; auto.
Qed.

Lemma prefix_CR_inj (a b : string) : "CR" +:+ a = "CR" +:+ b -> a = b.
Proof.
  change ("CR" +:+ a) with (String "C" (String "R" a)).
  change ("CR" +:+ b) with (String "C" (String "R" b)).
  intros E. injection E as E. exact E.
Qed.

(** X22: for a clock reading from 100000 on and a random suffix in 0..999,
    the order number is [CR] followed by the six low decimal digits of the
    reading and the three digits of the suffix, eleven characters in all. *)
Theorem orderNumber_format (now random : Z) :
  100000 <= now -> 0 <= random < 1000 ->
  generateOrderNumber now random =
    "CR" +:+ string_of_list_ascii
               (map digitChar
                  (fixedDigits 6 (now mod 1000000) ++ fixedDigits 3 random)) /\
  String.length (generateOrderNumber now random) = 11%nat.
Proof.
  intros Hnow Hr. rewrite (orderNumber_digits now random Hnow Hr).
  split; [reflexivity|].
  change (String.length ("CR" +:+ ?s)) with (S (S (String.length s))).
  rewrite length_string_of_list_ascii, length_map, length_app,
    !length_fixedDigits. reflexivity.
Qed.

(** X23: two generated order numbers are equal exactly when the clock
    readings agree modulo 1000000 milliseconds and the random suffixes are
    equal; so a number can repeat every 1000 seconds. *)
Theorem orderNumbers_collide_iff (now1 random1 now2 random2 : Z) :
  100000 <= now1 -> 0 <= random1 < 1000 ->
  100000 <= now2 -> 0 <= random2 < 1000 ->
  generateOrderNumber now1 random1 = generateOrderNumber now2 random2 <->
  now1 mod 1000000 = now2 mod 1000000 /\ random1 = random2.
Proof.
  intros Hn1 Hr1 Hn2 Hr2.
  rewrite (orderNumber_digits now1 random1 Hn1 Hr1),
    (orderNumber_digits now2 random2 Hn2 Hr2).
  split.
  - intros E. apply prefix_CR_inj in E.
    apply (f_equal list_ascii_of_string) in E.
    rewrite !list_ascii_of_string_of_list_ascii in E.
    apply map_digitChar_inj in E;
      [|apply Forall_app; split; apply fixedDigits_range ..].
    apply app_inj_1 in E as [E6 E3]; [|rewrite !length_fixedDigits; reflexivity].
    split.
    + apply (fixedDigits_inj 6); [| |exact E6];
        apply Z.mod_pos_bound; reflexivity.
    + apply (fixedDigits_inj 3); [| |exact E3];
        change (10 ^ Z.of_nat 3) with 1000; assumption.
  - intros [-> ->]. reflexivity.
Qed.

End OrderNumberFacts.

Lemma orderNumber_format_witness :
  generateOrderNumber 1700000060000%Z 7%Z = "CR060000007".
Proof.
  destruct (orderNumber_format 1700000060000%Z 7%Z) as [E _]; [lia|lia|].
  rewrite E. vm_compute. reflexivity.
Defined.

Lemma orderNumbers_collide_iff_witness :
  generateOrderNumber 1700000060000%Z 7%Z
  = generateOrderNumber 1701000060000%Z 7%Z.
Proof.
  apply (orderNumbers_collide_iff 1700000060000%Z 7%Z 1701000060000%Z 7%Z);
    try lia. split; reflexivity.
Defined.

Lemma same_place_order_costs_base_fare_witness :
  calculateDistance (H := Sample.flatMath) SampleMore.sameDesk = 0%float /\
  Pricing.totalAmount
    (calculatePricing (calculateDistance (H := Sample.flatMath) SampleMore.sameDesk)
       Priority.express) = 7.5%float.
Proof.
  destruct (same_place_order_costs_base_fare (H := Sample.flatMath)
              SampleMore.sameDesk) as (Hd & _ & Ht).
  - reflexivity.
  - reflexivity.
  - intros x _. reflexivity.
  - reflexivity.
  - reflexivity.
  - reflexivity.
  - split; [exact Hd|exact Ht].
Defined.

(** ** Delivery proofs *)

Section ProofFacts.
Context {strings : StringLib}.

(** X25: a delivery proof is never stored.  The upload request is answered
    with an error and leaves the store as it was, whoever sends it and
    whatever it carries; sent by the order's courier with a valid URL it is
    answered 500; and after any sequence of operations a stored order has
    exactly the images it had. *)
Theorem delivery_proofs_are_never_stored
    (ops : list Op) (db : Db) (id : OrderId) (o : Order.t) :
  orders db !! id = Some o ->
  (forall n u imageUrl isURL description,
     isOk (fst (uploadProof db n u imageUrl isURL description)) = false /\
     snd (uploadProof db n u imageUrl isURL description) = db) /\
  (forall u imageUrl description,
     findOne db (Order.orderNumber o) = Some (id, o) ->
     isCourierOf o u = true ->
     uploadProof db (Order.orderNumber o) u imageUrl true description =
       (Error 500 "Server error uploading delivery proof", db)) /\
  exists o',
    orders (execAll ops db) !! id = Some o' /\
    Order.images o' = Order.images o.
Proof.
  intros Hid. split; [|split].
  - intros n u imageUrl isURL description.
    split; [|apply uploadProof_stores_nothing].
    unfold uploadProof. destruct (negb isURL); [reflexivity|].
    destruct (findOne db n) as [[k order]|]; [|reflexivity].
    destruct (negb _); reflexivity.
  - intros u imageUrl description Hfind Hco. unfold uploadProof.
    cbn [negb]. rewrite Hfind, Hco. reflexivity.
  - revert Hid.
    apply (execAll_related (fun o o' => Order.images o' = Order.images o)).
    + intros x. reflexivity.
    + intros x y z Hxy Hyz. congruence.
    + intros x y []. assumption.
Qed.

End ProofFacts.

Lemma delivery_proofs_are_never_stored_witness :
  uploadProof SampleMore.dbDelivered "CR000000003" Sample.bob
    "https://img.example/1.jpg" true None
  = (Error 500 "Server error uploading delivery proof", SampleMore.dbDelivered)
  /\
  exists o',
    orders (execAll
              [OpProof "CR000000003" Sample.bob "https://img.example/1.jpg"
                 true None]
              SampleMore.dbDelivered) !! 8%nat = Some o' /\
    Order.images o' = ["https://img.example/0.jpg"%string].
Proof.
  destruct (delivery_proofs_are_never_stored
              [OpProof "CR000000003" Sample.bob "https://img.example/1.jpg"
                 true None]
              SampleMore.dbDelivered 8 SampleMore.delivered eq_refl)
    as (_ & Hcourier & Hkept).
  split; [|exact Hkept].
  apply Hcourier; reflexivity.
Defined.

(** ** The two ways to cancel *)

Section CancelFacts.
Context {strings : StringLib}.

(** X26: on a pending or assigned order, the cancel request of an
    administrator, the customer or the courier stores exactly what their
    status request for cancelled stores when it carries the cancellation
    note and a null location, and both succeed. *)
Theorem cancel_is_a_status_update
    (db : Db) (id : OrderId) (o : Order.t) (u : User.t)
    (reason : option string) (nowActual now : Date) :
  orders db !! id = Some o ->
  Order.status o = Status.pending \/ Order.status o = Status.assigned ->
  isAdmin u || isCustomerOf o u || isCourierOf o u = true ->
  isOk (fst (cancelOrder db id u reason now)) = true /\
  isOk (fst (updateStatus db id u
               {| sb_status := Status.cancelled;
                  sb_notes := Some (orDefault reason "Order cancelled");
                  sb_location := None |} nowActual now)) = true /\
  snd (cancelOrder db id u reason now) =
    snd (updateStatus db id u
           {| sb_status := Status.cancelled;
              sb_notes := Some (orDefault reason "Order cancelled");
              sb_location := None |} nowActual now).
Proof.
  intros Hid Hs Hauth. unfold cancelOrder, updateStatus. cbn [sb_status].
  rewrite Hid, Hauth.
  replace (isAdmin u || isCourierOf o u
           || bool_decide (Status.cancelled = Status.cancelled)
              && isCustomerOf o u)
    with true
    by (destruct (isAdmin u), (isCustomerOf o u), (isCourierOf o u);
        try reflexivity; discriminate Hauth).
  destruct Hs as [-> | ->]; cbn; repeat split.
Qed.

End CancelFacts.

Lemma cancel_is_a_status_update_witness :
  snd (cancelOrder (Sample.db Status.assigned (Some 2)) 7 Sample.alice None
         Sample.later)
  = snd (updateStatus (Sample.db Status.assigned (Some 2)) 7 Sample.alice
           {| sb_status := Status.cancelled;
              sb_notes := Some (orDefault None "Order cancelled");
              sb_location := None |} Sample.later Sample.later).
Proof.
  apply (cancel_is_a_status_update (Sample.db Status.assigned (Some 2)) 7
           (Sample.order Status.assigned (Some 2)) Sample.alice None
           Sample.later Sample.later).
  - reflexivity.
  - right. reflexivity.
  - reflexivity.
Defined.

(** ** A score sent as a string *)

Section ScoreFacts.
Context {strings : StringLib}.
Local Open Scope Z_scope.

Lemma list_ascii_of_string_app (a b : string) :
  list_ascii_of_string (a +:+ b)
  = list_ascii_of_string a ++ list_ascii_of_string b.
Proof.
  induction a as [|c a IH]; [reflexivity|].
  change (String c a +:+ b) with (String c (a +:+ b)).
  cbn [list_ascii_of_string]. rewrite IH. reflexivity.
Qed.

Lemma length_list_ascii_of_string (t : string) :
  length (list_ascii_of_string t) = String.length t.
Proof. induction t as [|c t IH]; cbn; [reflexivity|]. f_equal. exact IH. Qed.

Lemma digitsValue_from (l : list ascii) :
  forall acc : Z,
    foldl (fun acc c => 10 * acc + (Z.of_nat (nat_of_ascii c) - 48)) acc l
    = acc * 10 ^ Z.of_nat (length l) + digitsValue l.
Proof.
  unfold digitsValue. induction l as [|c l IH]; intros acc.
  - cbn. lia.
  - cbn [foldl length]. rewrite IH, (IH (10 * 0 + _)).
    rewrite Nat2Z.inj_succ, Z.pow_succ_r by lia. ring.
Qed.

Lemma digitsValue_app (l1 l2 : list ascii) :
  digitsValue (l1 ++ l2)
  = digitsValue l1 * 10 ^ Z.of_nat (length l2) + digitsValue l2.
Proof.
  unfold digitsValue at 1. rewrite foldl_app. apply digitsValue_from.
Qed.

Lemma digitChar_value (d : Z) :
  0 <= d < 10 ->
  Z.of_nat (nat_of_ascii (digitChar d)) - 48 = d /\
  isDigit (digitChar d) = true.
Proof.
  intros Hd.
  assert (Hcases : d = 0 \/ d = 1 \/ d = 2 \/ d = 3 \/ d = 4 \/ d = 5 \/
                   d = 6 \/ d = 7 \/ d = 8 \/ d = 9) by lia.
  repeat (destruct Hcases as [->|Hcases]; [split; reflexivity|]).
  subst d. split; reflexivity.
Qed.

(** The digits [decimalDigits] prints read back as the number. *)
Lemma decimalDigitsFuel_value (fuel : nat) :
  forall n,
    0 <= n < 2 ^ Z.of_nat fuel -> fuel <> 0%nat ->
    digitsValue (map digitChar (decimalDigitsFuel fuel n)) = n /\
    forallb isDigit (map digitChar (decimalDigitsFuel fuel n)) = true /\
    decimalDigitsFuel fuel n <> [].
Proof.
  induction fuel as [|fuel IH]; intros n Hn Hf; [contradiction|].
  rewrite decimalDigitsFuel_S.
  destruct (Z.ltb_spec n 10) as [Hlt|Hge].
  - destruct (digitChar_value n ltac:(lia)) as [Hv Hd].
    cbn [map forallb]. rewrite Hd. unfold digitsValue. cbn [foldl].
    repeat split; [lia|discriminate].
  - rewrite Nat2Z.inj_succ, Z.pow_succ_r in Hn by lia.
    assert (Hq : 1 <= n / 10 < 2 ^ Z.of_nat fuel).
    { split; [apply Z.div_le_lower_bound; lia|apply Z.div_lt_upper_bound; lia]. }
    assert (Hf' : fuel <> 0%nat).
    { intros ->. change (2 ^ Z.of_nat 0) with 1 in Hq. lia. }
    destruct (IH (n / 10) ltac:(lia) Hf') as (Hv & Hd & _).
    pose proof (Z.mod_pos_bound n 10 ltac:(lia)) as Hr.
    destruct (digitChar_value (n mod 10) Hr) as [Hv1 Hd1].
    rewrite map_app. cbn [map]. split; [|split].
    + rewrite digitsValue_app, Hv. unfold digitsValue at 1. cbn [foldl length].
      rewrite Hv1. change (10 ^ Z.of_nat 1) with 10.
      rewrite (Z.div_mod n 10) at 3 by lia. lia.
    + rewrite forallb_app, Hd. cbn [forallb]. rewrite Hd1. reflexivity.
    + intros E. apply app_eq_nil in E as [_ E]. discriminate E.
Qed.

Lemma decimalDigits_value (n : Z) :
  0 <= n ->
  digitsValue (map digitChar (decimalDigits n)) = n /\
  forallb isDigit (map digitChar (decimalDigits n)) = true /\
  decimalDigits n <> [].
Proof.
  intros Hn. unfold decimalDigits. apply decimalDigitsFuel_value; [|discriminate].
  split; [exact Hn|].
  pose proof (lt_pow_log2 n Hn) as Hlt.
  eapply Z.lt_le_trans; [exact Hlt|]. apply Z.pow_le_mono_r; lia.
Qed.

(** A string of digits writes the value of its digits. *)
Lemma integerOf_digits (l : list ascii) :
  l <> [] -> forallb isDigit l = true ->
  integerOf (string_of_list_ascii l) = Some (digitsValue l).
Proof.
  intros Hne Hd. unfold integerOf.
  rewrite list_ascii_of_string_of_list_ascii.
  destruct l as [|c l]; [contradiction|].
  cbn [forallb] in Hd. apply andb_prop in Hd as [Hc Hl].
  destruct c as [[] [] [] [] [] [] [] []]; try discriminate Hc;
    cbv zeta; cbn [forallb]; rewrite Hl; reflexivity.
Qed.

(** What the engine reads when a string of digits is appended to the
    digits of a whole number. *)
Lemma integerOf_appended (p n : Z) (t : string) :
  0 <= p ->
  forallb isDigit (list_ascii_of_string t) = true ->
  integerOf t = Some n ->
  integerOf (digitString (decimalDigits p) +:+ t)
  = Some (p * 10 ^ Z.of_nat (String.length t) + n).
Proof.
  intros Hp Hd Ht.
  destruct (decimalDigits_value p Hp) as (Hv & Hdp & Hne).
  assert (Hn : digitsValue (list_ascii_of_string t) = n /\
               list_ascii_of_string t <> []).
  { rewrite <- (string_of_list_ascii_of_string t) in Ht.
    destruct (list_ascii_of_string t) as [|c l] eqn:El.
    - discriminate Ht.
    - rewrite integerOf_digits in Ht by (discriminate || exact Hd).
      injection Ht as <-. split; [reflexivity|discriminate]. }
  destruct Hn as [Hn _].
  rewrite <- (string_of_list_ascii_of_string (digitString _ +:+ t)).
  rewrite list_ascii_of_string_app. unfold digitString.
  rewrite list_ascii_of_string_of_list_ascii.
  rewrite integerOf_digits.
  - rewrite digitsValue_app, Hv, Hn, length_list_ascii_of_string. reflexivity.
  - intros E. apply app_eq_nil in E as [E _].
    apply map_eq_nil in E. contradiction.
  - rewrite forallb_app, Hdp, Hd. reflexivity.
Qed.

(** X27: a score sent as a string of digits is appended to the digits of
    average * count instead of being added to it.  With an engine that
    prints whole numbers below 2^53 by their digits and reads strings of
    digits as the numbers they write, and a stored average * count that is the
    whole number p, a successful rating with the string s writing n stores
    the average round2 ((p * 10^length s + n) / (count + 1)). *)
Theorem string_score_is_appended
    (db db' : Db) (id : OrderId) (order : Order.t) (user : User.t)
    (body : RateBody) (s : string) (m : string) (r : OrderRating.t)
    (k : UserId) :
  (forall z, 0 <= z < 2 ^ 53 ->
             Number_toString (of_Z z) = digitString (decimalDigits z)) ->
  (forall t z, integerOf t = Some z -> 0 < z < 2 ^ 53 ->
               StringToNumber t = of_Z z) ->
  orders db !! id = Some order ->
  rb_rating body = ScoreString s ->
  forallb isDigit (list_ascii_of_string s) = true ->
  rateOrder db id user body = (Ok m r, db') ->
  ratedParty order user = Some k ->
  exists profile n,
    users db !! k = Some profile /\
    integerOf s = Some n /\ 1 <= n <= 5 /\
    forall p,
      (Rating.average (User.rating profile) * Rating.count (User.rating profile))%float
        = of_Z p ->
      0 <= p ->
      p * 10 ^ Z.of_nat (String.length s) + n < 2 ^ 53 ->
      users db' !! User._id profile =
        Some (User.set_rating
                {| Rating.average :=
                     toFixed2
                       (of_Z (p * 10 ^ Z.of_nat (String.length s) + n)
                        / (Rating.count (User.rating profile) + 1))%float;
                   Rating.count :=
                     (Rating.count (User.rating profile) + 1)%float |}
                profile).
Proof.
  intros Hprint Hread Hfound Hstr Hdigits Hrate Hparty.
  unfold rateOrder in Hrate. rewrite Hfound, Hstr in Hrate.
  unfold ratedParty in Hparty. cbn [scoreValue] in Hrate.
  destruct (integerOf s) as [n|] eqn:Hn; [|discriminate Hrate].
  destruct (Z.leb 1 n && Z.leb n 5) eqn:Hrange; [|discriminate Hrate].
  apply andb_prop in Hrange as [H1 H5]. apply Z.leb_le in H1, H5.
  destruct (bool_decide _); [discriminate Hrate|].
  assert (Hsaved : forall profile profile' p,
             rateProfile profile (ScoreString s) = Some profile' ->
             (Rating.average (User.rating profile)
              * Rating.count (User.rating profile))%float = of_Z p ->
             0 <= p ->
             p * 10 ^ Z.of_nat (String.length s) + n < 2 ^ 53 ->
             profile' =
               User.set_rating
                 {| Rating.average :=
                      toFixed2
                        (of_Z (p * 10 ^ Z.of_nat (String.length s) + n)
                         / (Rating.count (User.rating profile) + 1))%float;
                    Rating.count :=
                      (Rating.count (User.rating profile) + 1)%float |}
                 profile).
  { intros profile profile' p Hp Hprod Hp0 Hsmall. unfold rateProfile in Hp.
    destruct (_ || _); [discriminate Hp|]. injection Hp as <-.
    unfold rated, newAverage. rewrite Hprod.
    assert (Hpow : 0 < 10 ^ Z.of_nat (String.length s))
      by (apply Z.pow_pos_nonneg; lia).
    rewrite Hprint by nia.
    rewrite (Hread _ _ (integerOf_appended p n s Hp0 Hdigits Hn)) by nia.
    reflexivity. }
  assert (Hid : forall profile profile',
             rateProfile profile (ScoreString s) = Some profile' ->
             User._id profile' = User._id profile).
  { intros profile profile'. unfold rateProfile.
    destruct (_ || _); [discriminate|]. intros [= <-]. reflexivity. }
  destruct (isCustomerOf order user).
  - destruct (ratingSet _); [discriminate Hrate|].
    rewrite Hparty in Hrate.
    destruct (users db !! k) as [courier|] eqn:Hk; [|discriminate Hrate].
    cbn [mbind option_bind] in Hrate.
    destruct (rateProfile courier (ScoreString s)) as [courier'|] eqn:Hp;
      [|discriminate Hrate].
    injection Hrate as _ _ <-. exists courier, n.
    split; [reflexivity|]. split; [reflexivity|]. split; [lia|].
    intros p Hprod Hp0 Hsmall. rewrite users_saveOrder.
    rewrite <- (Hsaved _ _ p Hp Hprod Hp0 Hsmall), <- (Hid _ _ Hp).
    apply users_saveUser.
  - injection Hparty as <-.
    destruct (isCourierOf order user); [|discriminate Hrate].
    destruct (ratingSet _); [discriminate Hrate|].
    destruct (users db !! Order.customer order) as [customer|] eqn:Hk;
      [|discriminate Hrate].
    cbn [mbind option_bind] in Hrate.
    destruct (rateProfile customer (ScoreString s)) as [customer'|] eqn:Hp;
      [|discriminate Hrate].
    injection Hrate as _ _ <-. exists customer, n.
    split; [reflexivity|]. split; [reflexivity|]. split; [lia|].
    intros p Hprod Hp0 Hsmall. rewrite users_saveOrder.
    rewrite <- (Hsaved _ _ p Hp Hprod Hp0 Hsmall), <- (Hid _ _ Hp).
    apply users_saveUser.
Qed.

End ScoreFacts.

(** The sample string library prints and reads whole numbers as the
    engine does. *)
Lemma wholeStrings_prints (z : Z) :
  (0 <= z < 2 ^ 53)%Z ->
  Number_toString (StringLib := Sample.wholeStrings) (of_Z z)
  = digitString (decimalDigits z).
Proof.
  intros Hz. cbn [Number_toString Sample.wholeStrings].
  assert (Hw : Sample.wholeNumber (of_Z z) = Some z).
  { unfold Sample.wholeNumber. destruct z as [|p|p]; [reflexivity| |lia].
    destruct (of_Z_pos p ltac:(lia)) as (m0 & e0 & -> & _ & He & Hm).
    destruct (Z.leb_spec 0 e0).
    - replace e0 with 0%Z in * by lia. f_equal. cbn in Hm. lia.
    - rewrite Hm, Z_mod_mult, Z.div_mul by (apply Z.pow_nonzero; lia).
      reflexivity. }
  rewrite Hw. destruct (Z.ltb_spec z 0); [lia|reflexivity].
Qed.

Lemma wholeStrings_reads (t : string) (z : Z) :
  integerOf t = Some z ->
  StringToNumber (StringLib := Sample.wholeStrings) t = of_Z z.
Proof. intros Ht. cbn [StringToNumber Sample.wholeStrings]. rewrite Ht. reflexivity. Qed.

Lemma string_score_is_appended_witness :
  users (snd (rateOrder (Sample.db Status.delivered (Some 2)) 7 Sample.alice
                {| rb_rating := ScoreString "4"; rb_feedback := None |}))
    !! 2%nat
  = Some (User.set_rating
            {| Rating.average := 34.67%float; Rating.count := 3%float |}
            Sample.bob).
Proof.
  destruct (string_score_is_appended
              (Sample.db Status.delivered (Some 2))
              (snd (rateOrder (Sample.db Status.delivered (Some 2)) 7
                      Sample.alice
                      {| rb_rating := ScoreString "4"; rb_feedback := None |}))
              7 (Sample.order Status.delivered (Some 2)) Sample.alice
              {| rb_rating := ScoreString "4"; rb_feedback := None |}
              "4" "Rating submitted successfully"
              {| OrderRating.customerRating := Some 4%Z;
                 OrderRating.courierRating := None;
                 OrderRating.customerFeedback := None;
                 OrderRating.courierFeedback := None |}
              2%nat)
    as (profile & n & Hprofile & Hn & _ & Hstored).
  - exact wholeStrings_prints.
  - intros t z Ht _. exact (wholeStrings_reads t z Ht).
  - reflexivity.
  - reflexivity.
  - reflexivity.
  - vm_compute. reflexivity.
  - reflexivity.
  - vm_compute in Hprofile. injection Hprofile as <-.
    vm_compute in Hn. injection Hn as <-.
    exact (Hstored 10%Z ltac:(vm_compute; reflexivity) ltac:(lia)
             ltac:(vm_compute; reflexivity)).
Defined.

(** ** The estimate for a courier who never reported a position *)

Section UnknownPositionFacts.
Context `{MathLib}.
Local Open Scope float_scope.

Lemma sub_nan_r (x : Number) : x - nan = nan.
Proof.
  apply Prim2SF_inj. rewrite sub_spec. change (Prim2SF nan) with S754_nan.
  destruct (Prim2SF x); reflexivity.
Qed.

Lemma add_nan_l (x : Number) : nan + x = nan.
Proof.
  apply Prim2SF_inj. rewrite add_spec. change (Prim2SF nan) with S754_nan.
  reflexivity.
Qed.

Lemma add_nan_r (x : Number) : x + nan = nan.
Proof.
  apply Prim2SF_inj. rewrite add_spec. change (Prim2SF nan) with S754_nan.
  destruct (Prim2SF x); reflexivity.
Qed.

(** X28: for an order whose courier is stored but never reported a
    position, the endpoint does not answer that the courier's location is
    not available: it computes with the missing coordinates and answers an
    estimate whose minutes and distance are NaN and whose eta is an invalid
    date.  Assumes of the engine's library that sin NaN and atan2 (NaN, NaN)
    are NaN. *)
Theorem eta_without_reported_position
    (db : Db) (orderNumber : string) (now : Date) (id : OrderId)
    (order : Order.t) (c : UserId) (courier : User.t) :
  Math_sin nan = nan ->
  Math_atan2 nan nan = nan ->
  findOne db orderNumber = Some (id, order) ->
  Order.courier order = Some c ->
  users db !! c = Some courier ->
  User.currentLocation courier = None ->
  getEta db orderNumber now =
    Ok "" (EtaEstimate None nan nan (Order.status order) None).
Proof.
  intros Hsin Hatan Hfind Hc Hu Hl.
  unfold getEta. rewrite Hfind, Hc. cbn [mbind option_bind]. rewrite Hu, Hl.
  unfold estimateEta, haversine, courierCoordinate. cbv zeta.
  rewrite !sub_nan_r.
  change (nan * Math_PI / 180 / 2) with nan. rewrite Hsin.
  change (nan * nan) with nan. rewrite add_nan_l.
  change (sqrt nan) with nan. change (sqrt (1 - nan)) with nan. rewrite Hatan.
  change (6371 * (2 * nan)) with nan.
  assert (Hq : nan / estimatedSpeed (User.vehicle courier) * 60 = nan)
    by (destruct (User.vehicle courier) as [[]|]; reflexivity).
  rewrite Hq. change (Math_ceil nan) with nan.
  change (nan * 60000) with nan. rewrite add_nan_r.
  reflexivity.
Qed.

End UnknownPositionFacts.

Lemma eta_without_reported_position_witness :
  getEta (H := Sample.flatMath) (Sample.db Status.assigned (Some 3))
    "CR000000001" Sample.later
  = Ok "" (EtaEstimate None nan nan Status.assigned None).
Proof.
  apply (eta_without_reported_position (H := Sample.flatMath)
           (Sample.db Status.assigned (Some 3)) "CR000000001" Sample.later 7
           (Sample.order Status.assigned (Some 3)) 3 Sample.carol);
    reflexivity.
Defined.
